(** * DENSO b-CAP MCP server: session state, operation log, motion executors

    A shallow embedding of [workgroups_track/cobotta_mcp/mcp_server.py].

    The protocol client ([bcapclient.BCAPClient]) is a black box: every call
    made on it is appended to a chronological trace, and its answer (a value
    or a raised exception) is given by an arbitrary function of the trace so
    far and of the call.  Theorems quantify over that function, so they hold
    whatever the controller answers and whichever calls fail.

    Python exceptions are an explicit error result; the module-level [state]
    singleton is threaded through every handler.

    Left out, because no handler branches on them: time stamps
    ([datetime.now()]), [time.sleep], the [logger] calls, and the purely
    presentational ["message"], ["warning"] and ["note"] texts of result
    dictionaries.  JSON numbers are binary64 floats, as Python's are. *)

Set Warnings "-register-all,-inexact-float".
From Stdlib Require Import List String Ascii ZArith Bool Lia PrimFloat.
From Stdlib Require Import DecimalString.
Import ListNotations.

Local Open Scope string_scope.
Local Open Scope list_scope.

(** ** Values, exceptions, protocol-client calls *)

(** What travels to and from the protocol client. *)
Inductive Value :=
| VNone
| VInt (z : Z)
| VFloat (f : float)
| VStr (s : string)
| VList (l : list Value).

Inductive Exn :=
| ORiNException (hresult : Z) (text : string)
| Exception (msg : string)
| ValueError (msg : string)
| KeyError (key : string)
| IndexError (msg : string)
| TypeError (msg : string)
| AttributeError (msg : string)
| UnboundLocalError (msg : string).

(** [str(e)] *)
Definition str (e : Exn) : string :=
  match e with
  | ORiNException _ text => text
  | Exception m | ValueError m | IndexError m | TypeError m
  | AttributeError m | UnboundLocalError m => m
  | KeyError k => "'" ++ k ++ "'"
  end.

(** Handles are passed as the session holds them ([None] included). *)
Inductive Call :=
| c_BCAPClient (host : string) (port : Z) (timeout : float)
| c_controller_connect (name provider machine option : string)
| c_controller_disconnect (h : option Z)
| c_controller_getrobot (h : option Z) (name option : string)
| c_controller_getrobotnames (h : option Z) (option : string)
| c_controller_getvariablenames (h : option Z) (option : string)
| c_controller_execute (h : option Z) (command : string) (param : Value)
| c_robot_release (h : option Z)
| c_robot_getvariable (h : option Z) (name option : string)
| c_robot_getvariablenames (h : option Z) (option : string)
| c_robot_execute (h : option Z) (command : string) (param : Value)
| c_robot_move (h : option Z) (comp : Z) (target : list float)
               (kind ext : string) (option : string)
| c_robot_speed (h : option Z) (axis : Z) (speed : float)
| c_robot_gohome (h : option Z)
| c_variable_getvalue (vh : Z)
| c_variable_release (vh : Z).

(** The black box: the answer to a call, given every call made before it.
    [reply_handle] answers the calls that return a handle, [reply_value] the
    others (their value is ignored where the source ignores it). *)
Record Client := {
  reply_handle : list Call -> Call -> Exn + Z;
  reply_value : list Call -> Call -> Exn + Value
}.

(** ** Arguments and results *)

(** The argument bag of a request, one optional entry per key the handlers
    read. *)
Record Args := {
  arg_host : option string;
  arg_port : option Z;
  arg_timeout : option float;
  arg_name : option string;
  arg_provider : option string;
  arg_machine : option string;
  arg_option : option string;
  arg_joint_angles : option (list float);
  arg_pose : option (list float);
  arg_axis : option Z;
  arg_speed : option float;
  arg_trajectory : option (list (list float));
  arg_dist : option float;
  arg_pick_down_distance : option float;
  arg_lift_up_distance : option float;
  arg_place_y_offset : option float;
  arg_place_down_distance : option float;
  arg_gripper_speed : option float;
  arg_limit : option Z
}.

Definition no_args : Args :=
  Build_Args None None None None None None None None None None
             None None None None None None None None None.

(** [args.get(key, default)] *)
Definition dict_get {A} (entry : option A) (default : A) : A :=
  match entry with Some v => v | None => default end.

Record ConnInfo := {
  ci_host : string;
  ci_port : Z;
  ci_timeout : float
}.

(** The client object held by the session (its constructor arguments). *)
Record BCAPClient := {
  bc_host : string;
  bc_port : Z;
  bc_timeout : float
}.

Record ExecutedPoint := {
  ep_index : nat;
  ep_angles : list float
}.

Record FailedPoint := {
  fp_index : nat;
  fp_angles : list float;
  fp_error : string
}.

Record TrajectoryReport := {
  tr_success : bool;
  tr_total_points : nat;
  tr_executed_points : nat;
  tr_failed_points : nat;
  tr_initial_angles : Value;
  tr_trajectory : list (list float);
  tr_executed_details : list ExecutedPoint;
  tr_failed_details : option (list FailedPoint)
}.

Record SlaveFailure := {
  sf_total_points : nat;
  sf_executed_points : nat;
  sf_failed_points : nat;
  sf_initial_angles : Value;
  sf_error : string
}.

Inductive Status := success | failed.

Record StepResult := {
  sr_step : nat;
  sr_action : string;
  sr_status : Status;
  sr_position : option (list float);
  sr_distance_mm : option float;
  sr_gripper_distance_mm : option float;
  sr_speed : option float;
  sr_error : option string
}.

Record SagaReport := {
  sg_success : bool;
  sg_initial_position : list float;
  sg_final_position : Value;
  sg_steps : list StepResult;
  sg_errors : option (list string)
}.

(** The result dictionaries the handlers build and log. *)
Inductive Result :=
| R_connect (info : ConnInfo)
| R_disconnect
| R_controller_connect (h : Z)
| R_robot_names (names : Value)
| R_variable_names (names : Value)
| R_clear_error (v : Value)
| R_robot_connect (h : Z) (name : string)
| R_variable (name : string) (v : Value)
| R_move_pose (target : list float) (previous : Value)
| R_gohome (previous : Value)
| R_speed (axis : Z) (speed : float)
| R_trajectory (rep : TrajectoryReport)
| R_slave (rep : TrajectoryReport)
| R_slave_failed (rep : SlaveFailure)
| R_gripper (action : string) (distance_mm speed : float)
| R_pick_place (rep : SagaReport)
| R_pick_place_failed (error : string) (steps : list StepResult)
                      (errors : list string).

Record LogEntry := {
  le_operation : string;
  le_params : Args;
  le_result : option Result;
  le_error : option string
}.

(** What a request returns to the dispatcher. *)
Inductive Reply :=
| Rep (r : Result)
| Rep_error (error : string) (hresult : option Z)
| Rep_status (connected controller_connected robot_connected : bool)
             (info : option ConnInfo)
| Rep_joint_move (previous : Value) (target : list float)
| Rep_joint_move_failed (error : string)
| Rep_log (total_operations returned_count : nat) (logs : list LogEntry).

(** The ["success"] entry of a reply; the status reply has none. *)
Definition reply_success (r : Reply) : option bool :=
  match r with
  | Rep (R_trajectory rep) | Rep (R_slave rep) => Some (tr_success rep)
  | Rep (R_slave_failed _) => Some false
  | Rep (R_pick_place rep) => Some (sg_success rep)
  | Rep (R_pick_place_failed _ _ _) => Some false
  | Rep _ => Some true
  | Rep_error _ _ => Some false
  | Rep_status _ _ _ _ => None
  | Rep_joint_move _ _ => Some true
  | Rep_joint_move_failed _ => Some false
  | Rep_log _ _ _ => Some true
  end.

(** ** Session state *)

Record ServerState := {
  client : option BCAPClient;
  controller_handle : option Z;
  robot_handle : option Z;
  connection_info : option ConnInfo;
  operation_log : list LogEntry
}.

(** [ServerState.__init__] *)
Definition init_state : ServerState :=
  {| client := None; controller_handle := None; robot_handle := None;
     connection_info := None; operation_log := [] |}.

(** The session together with the trace of protocol-client calls. *)
Record World := {
  state : ServerState;
  calls : list Call
}.

Definition init_world : World := {| state := init_state; calls := [] |}.

(** Python truth value of an [Optional[int]]: [None] and [0] are false. *)
Definition truthy (h : option Z) : bool :=
  match h with
  | Some z => negb (Z.eqb z 0)
  | None => false
  end.

Definition is_some {A} (o : option A) : bool :=
  match o with Some _ => true | None => false end.

(** ** A state-and-exception monad for the handlers *)

(** A computation over a store [S] that returns a value or raises. *)
Definition Eff (S A : Type) : Type := S -> (Exn + A) * S.

Definition ret {S A} (a : A) : Eff S A := fun s => (inr a, s).

Definition bind {S A B} (m : Eff S A) (k : A -> Eff S B) : Eff S B :=
  fun s =>
    match m s with
    | (inr a, s') => k a s'
    | (inl e, s') => (inl e, s')
    end.

Definition raise {S A} (e : Exn) : Eff S A := fun s => (inl e, s).

(** [try: m except Exception as e: h e] *)
Definition try_except {S A} (m : Eff S A) (h : Exn -> Eff S A) : Eff S A :=
  fun s =>
    match m s with
    | (inr a, s') => (inr a, s')
    | (inl e, s') => h e s'
    end.

Declare Scope py_scope.
Delimit Scope py_scope with py.
Notation "x <- m ;; k" := (bind m (fun x => k))
  (at level 61, m at next level, right associativity) : py_scope.
Notation "m ;; k" := (bind m (fun _ => k))
  (at level 61, right associativity) : py_scope.
Local Open Scope py_scope.

Definition when {S} (b : bool) (m : Eff S unit) : Eff S unit :=
  if b then m else ret tt.

(** [args[key]] *)
Definition subscript {S A} (key : string) (entry : option A) : Eff S A :=
  match entry with
  | Some v => ret v
  | None => raise (KeyError key)
  end.

(** Handlers run over the session and the call trace. *)
Definition M : Type -> Type := Eff World.

Definition get_state : M ServerState := fun w => (inr (state w), w).

Definition set_state (s : ServerState) : M unit :=
  fun w => (inr tt, {| state := s; calls := calls w |}).

(** A handler's local variables that are assigned inside a [try] and read
    after it live in a frame [F] next to the world, so that an assignment
    made before an exception is still there in the handler. *)
Definition Fr (F : Type) : Type -> Type := Eff (F * World).

Definition lift {F A} (m : M A) : Fr F A :=
  fun fw => let (r, w') := m (snd fw) in (r, (fst fw, w')).

Definition get_frame {F} : Fr F F := fun fw => (inr (fst fw), fw).

Definition set_frame {F} (f : F) : Fr F unit :=
  fun fw => (inr tt, (f, snd fw)).

Definition modify_frame {F} (g : F -> F) : Fr F unit :=
  fun fw => (inr tt, (g (fst fw), snd fw)).

(** Run a body from its initial locals and forget them at the end. *)
Definition with_frame {F A} (f0 : F) (m : Fr F A) : M A :=
  fun w => let (r, fw) := m (f0, w) in (r, snd fw).

(** ** What the platform supplies *)

(** The [HResult] codes of the [orinexception] module that
    [get_error_description] names (the module is not part of the server). *)
Record HResultCodes := {
  E_TIMEOUT : Z;
  E_NOT_CONNECTED : Z;
  E_ACCESSDENIED : Z;
  E_INVALIDARG : Z;
  E_CAO_OBJECT_NOTFOUND : Z;
  E_CAO_VARIANT_TYPE_NOSUPPORT : Z;
  E_FAIL : Z
}.

Definition string_of_nat (n : nat) : string :=
  NilZero.string_of_uint (Nat.to_uint n).

Definition string_of_Z (z : Z) : string :=
  NilZero.string_of_int (Z.to_int z).

(** [lst[-limit:]]: a negative start counts from the end and is clamped at
    the front; a start beyond the end gives the empty list. *)
Definition slice_from {A} (start : Z) (l : list A) : list A :=
  let len := Z.of_nat (List.length l) in
  let start' := if (start <? 0)%Z then Z.max (len + start) 0
                else Z.min start len in
  skipn (Z.to_nat start') l.

Section Server.

(** The controller behind the protocol client. *)
Variable cl : Client.

Variable HResult : HResultCodes.

(** Lines 936-944 of [handle_robot_move_to_joint_angles]: the number after
    ["Speed="] in the option string, read with Python's [split] and
    [float()]; [None] when the option is empty, has no ["Speed="], or the
    text does not parse. *)
Variable parse_speed : string -> option float.

(** The interpreter's message for reading a local variable that was never
    assigned (its wording depends on the Python version). *)
Variable unbound_message : string -> string.

(** *** Calls on the protocol client *)

Definition invoke_handle (c : Call) : M Z :=
  fun w => (reply_handle cl (calls w) c,
            {| state := state w; calls := calls w ++ [c] |}).

Definition invoke (c : Call) : M Value :=
  fun w => (reply_value cl (calls w) c,
            {| state := state w; calls := calls w ++ [c] |}).

(** [state.client.<method>(...)]: the attribute lookup on [None] raises
    before anything is sent. *)
Definition on_client {A} (m : M A) : M A :=
  s <- get_state ;;
  match client s with
  | Some _ => m
  | None => raise (AttributeError "'NoneType' object has no attribute")
  end.

(** *** [ServerState] methods *)

Definition log_operation (operation : string) (params : Args)
           (result : option Result) (error : option string) : M unit :=
  s <- get_state ;;
  set_state {| client := client s;
               controller_handle := controller_handle s;
               robot_handle := robot_handle s;
               connection_info := connection_info s;
               operation_log :=
                 operation_log s ++
                 [{| le_operation := operation; le_params := params;
                     le_result := result; le_error := error |}] |}.

Definition reset : M unit :=
  s <- get_state ;;
  (if is_some (client s) then
     when (truthy (robot_handle s))
          (_ <- invoke (c_robot_release (robot_handle s)) ;; ret tt) ;;
     when (truthy (controller_handle s))
          (_ <- invoke (c_controller_disconnect (controller_handle s)) ;;
           ret tt)
   else ret tt) ;;
  s <- get_state ;;
  set_state {| client := None; controller_handle := None;
               robot_handle := None; connection_info := None;
               operation_log := operation_log s |}.

(** *** Connection handlers *)

Definition set_client (c : BCAPClient) (info : ConnInfo) : M unit :=
  s <- get_state ;;
  set_state {| client := Some c;
               controller_handle := controller_handle s;
               robot_handle := robot_handle s;
               connection_info := Some info;
               operation_log := operation_log s |}.

Definition set_controller_handle (h : Z) : M unit :=
  s <- get_state ;;
  set_state {| client := client s;
               controller_handle := Some h;
               robot_handle := robot_handle s;
               connection_info := connection_info s;
               operation_log := operation_log s |}.

Definition set_robot_handle (h : Z) : M unit :=
  s <- get_state ;;
  set_state {| client := client s;
               controller_handle := controller_handle s;
               robot_handle := Some h;
               connection_info := connection_info s;
               operation_log := operation_log s |}.

Definition handle_connect (args : Args) : M Reply :=
  host <- subscript "host" (arg_host args) ;;
  let port := dict_get (arg_port args) 5007%Z in
  let timeout := dict_get (arg_timeout args) 3%float in
  s <- get_state ;;
  when (is_some (client s)) reset ;;
  _ <- invoke (c_BCAPClient host port timeout) ;;
  let info := {| ci_host := host; ci_port := port;
                 ci_timeout := timeout |} in
  set_client {| bc_host := host; bc_port := port;
                bc_timeout := timeout |} info ;;
  let result := R_connect info in
  log_operation "bcap_connect" args (Some result) None ;;
  ret (Rep result).

Definition handle_disconnect (args : Args) : M Reply :=
  s <- get_state ;;
  if negb (is_some (client s)) then
    ret (Rep_error "Not connected" None)
  else
    reset ;;
    let result := R_disconnect in
    log_operation "bcap_disconnect" args (Some result) None ;;
    ret (Rep result).

Definition handle_get_connection_status (args : Args) : M Reply :=
  s <- get_state ;;
  ret (Rep_status (is_some (client s))
                  (is_some (controller_handle s))
                  (is_some (robot_handle s))
                  (if is_some (client s) then connection_info s
                   else None)).

Definition handle_controller_connect (args : Args) : M Reply :=
  s <- get_state ;;
  if negb (is_some (client s)) then
    raise (Exception
             "Please call bcap_connect first to establish connection")
  else
    let name := dict_get (arg_name args) "" in
    let provider := dict_get (arg_provider args) "CaoProv.DENSO.VRC" in
    let machine := dict_get (arg_machine args) "localhost" in
    let option := dict_get (arg_option args) "" in
    h <- on_client
           (invoke_handle (c_controller_connect name provider machine
                                                option)) ;;
    set_controller_handle h ;;
    let result := R_controller_connect h in
    log_operation "bcap_controller_connect" args (Some result) None ;;
    ret (Rep result).

Definition need_controller : M unit :=
  s <- get_state ;;
  if negb (truthy (controller_handle s)) then
    raise (Exception "Please call bcap_controller_connect first")
  else ret tt.

Definition need_robot : M unit :=
  s <- get_state ;;
  if negb (truthy (robot_handle s)) then
    raise (Exception "Please call bcap_robot_connect first")
  else ret tt.

Definition handle_controller_get_robot_names (args : Args) : M Reply :=
  need_controller ;;
  let option := dict_get (arg_option args) "" in
  s <- get_state ;;
  robot_names <- on_client
    (invoke (c_controller_getrobotnames (controller_handle s) option)) ;;
  let result := R_robot_names robot_names in
  log_operation "bcap_controller_get_robot_names" args (Some result)
                None ;;
  ret (Rep result).

Definition handle_controller_get_variable_names (args : Args) : M Reply :=
  need_controller ;;
  let option := dict_get (arg_option args) "" in
  s <- get_state ;;
  variable_names <- on_client
    (invoke (c_controller_getvariablenames (controller_handle s)
                                           option)) ;;
  let result := R_variable_names variable_names in
  log_operation "bcap_controller_get_variable_names" args (Some result)
                None ;;
  ret (Rep result).

Definition handle_controller_clear_error (args : Args) : M Reply :=
  need_controller ;;
  s <- get_state ;;
  result_value <- on_client
    (invoke (c_controller_execute (controller_handle s) "ClearError"
                                  VNone)) ;;
  let result := R_clear_error result_value in
  log_operation "bcap_controller_clear_error" args (Some result) None ;;
  ret (Rep result).

Definition handle_robot_connect (args : Args) : M Reply :=
  need_controller ;;
  let name := dict_get (arg_name args) "Arm" in
  let option := dict_get (arg_option args) "" in
  s <- get_state ;;
  h <- on_client
         (invoke_handle (c_controller_getrobot (controller_handle s)
                                               name option)) ;;
  set_robot_handle h ;;
  let result := R_robot_connect h name in
  log_operation "bcap_robot_connect" args (Some result) None ;;
  ret (Rep result).

(** *** Reading a robot variable *)

(** [robot_getvariable], [variable_getvalue], [variable_release] on the
    session's client. *)
Definition read_variable (name option : string) : M Value :=
  s <- get_state ;;
  var_handle <- on_client
    (invoke_handle (c_robot_getvariable (robot_handle s) name option)) ;;
  value <- on_client (invoke (c_variable_getvalue var_handle)) ;;
  _ <- on_client (invoke (c_variable_release var_handle)) ;;
  ret value.

Definition handle_robot_get_variable (args : Args) : M Reply :=
  need_robot ;;
  name <- subscript "name" (arg_name args) ;;
  let option := dict_get (arg_option args) "" in
  value <- read_variable name option ;;
  let result := R_variable name value in
  log_operation "bcap_robot_get_variable" args (Some result) None ;;
  ret (Rep result).

Definition handle_robot_get_variable_names (args : Args) : M Reply :=
  need_robot ;;
  let option := dict_get (arg_option args) "" in
  s <- get_state ;;
  variable_names <- on_client
    (invoke (c_robot_getvariablenames (robot_handle s) option)) ;;
  let result := R_variable_names variable_names in
  log_operation "bcap_robot_get_variable_names" args (Some result) None ;;
  ret (Rep result).

(** *** Single moves *)

Definition take_arm_param : Value := VList [VInt 0; VInt 0].

(** The body of the [try] of the joint move: a controller and a robot
    handle of its own, the move, and their release. *)
Definition joint_move_body (joint_angles : list float) (option : string)
  : M Reply :=
  controller_handle <-
    invoke_handle (c_controller_connect "" "CaoProv.DENSO.VRC"
                                        "localhost" "") ;;
  robot_handle <-
    invoke_handle (c_controller_getrobot (Some controller_handle)
                                         "Arm" "") ;;
  var_handle <-
    invoke_handle (c_robot_getvariable (Some robot_handle)
                                       "@CURRENT_ANGLE" "") ;;
  current_angles <- invoke (c_variable_getvalue var_handle) ;;
  _ <- invoke (c_variable_release var_handle) ;;
  let speed_value := parse_speed option in
  _ <- invoke (c_robot_execute (Some robot_handle) "TakeArm"
                               take_arm_param) ;;
  match speed_value with
  | Some v =>
      try_except
        (_ <- invoke (c_robot_speed (Some robot_handle) 0 v) ;;
         ret tt)
        (fun _ => ret tt)
  | None => ret tt
  end ;;
  _ <- invoke (c_robot_move (Some robot_handle) 1 joint_angles
                            "J" "@E" "") ;;
  _ <- invoke (c_robot_release (Some robot_handle)) ;;
  _ <- invoke (c_controller_disconnect (Some controller_handle)) ;;
  ret (Rep_joint_move current_angles joint_angles).

(** The joint move opens a client, controller and robot of its own on
    every call and does not touch the session's handles. *)
Definition handle_robot_move_to_joint_angles (args : Args) : M Reply :=
  s <- get_state ;;
  let host := match connection_info s with
              | Some i => ci_host i | None => "192.168.0.1" end in
  let port := match connection_info s with
              | Some i => ci_port i | None => 5007%Z end in
  let timeout := match connection_info s with
                 | Some i => ci_timeout i | None => 3%float end in
  joint_angles <- subscript "joint_angles" (arg_joint_angles args) ;;
  let option := dict_get (arg_option args) "" in
  _ <- invoke (c_BCAPClient host port timeout) ;;
  try_except
    (joint_move_body joint_angles option)
    (fun e => ret (Rep_joint_move_failed (str e))).

Definition take_arm : M unit :=
  s <- get_state ;;
  _ <- on_client
    (invoke (c_robot_execute (robot_handle s) "TakeArm" take_arm_param)) ;;
  ret tt.

(** [try: GiveArm except: pass] *)
Definition give_arm_if_held : M unit :=
  try_except
    (s <- get_state ;;
     _ <- on_client
       (invoke (c_robot_execute (robot_handle s) "GiveArm" VNone)) ;;
     ret tt)
    (fun _ => ret tt).

Definition robot_move (target : list float) (kind option : string)
  : M unit :=
  s <- get_state ;;
  _ <- on_client
    (invoke (c_robot_move (robot_handle s) 1 target kind "@E" option)) ;;
  ret tt.

Definition handle_robot_move_to_pose (args : Args) : M Reply :=
  need_robot ;;
  pose <- subscript "pose" (arg_pose args) ;;
  let option := dict_get (arg_option args) "" in
  (if negb (Nat.eqb (List.length pose) 6) then
     raise (ValueError
              "Position and orientation must be 6 values [x(mm), y(mm), z(mm), rx(deg), ry(deg), rz(deg)]")
   else ret tt) ;;
  current_pose <- read_variable "@CURRENT_POSITION" "" ;;
  take_arm ;;
  let move_option := option in
  robot_move pose "P" move_option ;;
  let result := R_move_pose pose current_pose in
  log_operation "bcap_robot_move_to_pose" args (Some result) None ;;
  ret (Rep result).

Definition handle_robot_gohome (args : Args) : M Reply :=
  need_robot ;;
  current_angles <- read_variable "@CURRENT_ANGLE" "" ;;
  give_arm_if_held ;;
  take_arm ;;
  s <- get_state ;;
  _ <- on_client (invoke (c_robot_gohome (robot_handle s))) ;;
  let result := R_gohome current_angles in
  log_operation "bcap_robot_gohome" args (Some result) None ;;
  ret (Rep result).

Definition handle_robot_set_speed (args : Args) : M Reply :=
  need_robot ;;
  let axis := dict_get (arg_axis args) 0%Z in
  let speed := dict_get (arg_speed args) 50%float in
  s <- get_state ;;
  _ <- on_client (invoke (c_robot_speed (robot_handle s) axis speed)) ;;
  let result := R_speed axis speed in
  log_operation "bcap_robot_set_speed" args (Some result) None ;;
  ret (Rep result).

(** *** Gripper *)

(** [0 <= dist <= 0.03] *)
Definition dist_in_range (dist : float) : bool :=
  (PrimFloat.leb 0 dist && PrimFloat.leb dist 0.03)%bool.

Definition hand_move (distance_mm speed : float) : M unit :=
  s <- get_state ;;
  _ <- on_client
    (invoke (c_controller_execute (controller_handle s) "HandMoveA"
                                  (VList [VFloat distance_mm;
                                          VFloat speed]))) ;;
  ret tt.

Definition handle_robot_open_gripper (args : Args) : M Reply :=
  need_controller ;;
  let dist := dict_get (arg_dist args) 0.030%float in
  let speed := dict_get (arg_speed args) 100%float in
  (if negb (dist_in_range dist) then
     raise (ValueError "Distance must be between 0 and 0.03 meters")
   else ret tt) ;;
  hand_move (dist * 1000)%float speed ;;
  let result := R_gripper "open_gripper" (dist * 1000)%float speed in
  log_operation "bcap_robot_open_gripper" args (Some result) None ;;
  ret (Rep result).

Definition handle_robot_close_gripper (args : Args) : M Reply :=
  need_controller ;;
  let dist := dict_get (arg_dist args) 0%float in
  let speed := dict_get (arg_speed args) 20%float in
  (if negb (dist_in_range dist) then
     raise (ValueError "Distance must be between 0 and 0.03 meters")
   else ret tt) ;;
  hand_move (dist * 1000)%float speed ;;
  let result := R_gripper "close_gripper" (dist * 1000)%float speed in
  log_operation "bcap_robot_close_gripper" args (Some result) None ;;
  ret (Rep result).

(** *** Trajectories *)

(** The two lists a trajectory handler fills while it runs. *)
Record TrajFrame := {
  executed_points : list ExecutedPoint;
  failed_points : list FailedPoint
}.

Definition no_points : TrajFrame :=
  {| executed_points := []; failed_points := [] |}.

Definition push_executed (index : nat) (angles : list float)
  : Fr TrajFrame unit :=
  f <- get_frame ;;
  set_frame {| executed_points :=
                 executed_points f ++
                 [{| ep_index := index; ep_angles := angles |}];
               failed_points := failed_points f |}.

Definition push_failed (index : nat) (angles : list float)
           (error_msg : string) : Fr TrajFrame unit :=
  f <- get_frame ;;
  set_frame {| executed_points := executed_points f;
               failed_points :=
                 failed_points f ++
                 [{| fp_index := index; fp_angles := angles;
                     fp_error := error_msg |}] |}.

(** [for i, point in enumerate(trajectory): if len(point) != 6: raise] *)
Fixpoint validate_points (i : nat) (trajectory : list (list float))
  : M unit :=
  match trajectory with
  | [] => ret tt
  | point :: rest =>
      if negb (Nat.eqb (List.length point) 6) then
        raise (ValueError ("Trajectory point " ++ string_of_nat (i + 1)
                           ++ " must have 6 joint angle values"))
      else validate_points (S i) rest
  end.

(** The guarded read of [@CURRENT_ANGLE]: [initial_angles] keeps whatever
    was assigned before an exception; [as_list] is the conversion applied
    after the variable was released. *)
Definition capture_initial_angles (as_list : Value -> Value) : M Value :=
  try_except
    (s <- get_state ;;
     var_handle <- on_client
       (invoke_handle (c_robot_getvariable (robot_handle s)
                                           "@CURRENT_ANGLE" "")) ;;
     try_except
       (initial_angles <- on_client
          (invoke (c_variable_getvalue var_handle)) ;;
        try_except
          (_ <- on_client (invoke (c_variable_release var_handle)) ;;
           ret (as_list initial_angles))
          (fun _ => ret initial_angles))
       (fun _ => ret VNone))
    (fun _ => ret VNone).

(** [for i, joint_angles in enumerate(trajectory)] of the discrete
    executor, from index [i] on. *)
Fixpoint run_points (move_option : string) (i : nat)
         (trajectory : list (list float)) : Fr TrajFrame unit :=
  match trajectory with
  | [] => ret tt
  | joint_angles :: rest =>
      try_except
        (lift (robot_move joint_angles "J" move_option) ;;
         push_executed (i + 1) joint_angles)
        (fun e => push_failed (i + 1) joint_angles (str e)) ;;
      run_points move_option (S i) rest
  end.

Definition trajectory_report (trajectory : list (list float))
           (initial_angles : Value) (f : TrajFrame) : TrajectoryReport :=
  {| tr_success := Nat.eqb (List.length (failed_points f)) 0;
     tr_total_points := List.length trajectory;
     tr_executed_points := List.length (executed_points f);
     tr_failed_points := List.length (failed_points f);
     tr_initial_angles := initial_angles;
     tr_trajectory := trajectory;
     tr_executed_details := executed_points f;
     tr_failed_details :=
       match failed_points f with
       | [] => None
       | _ :: _ => Some (failed_points f)
       end |}.

Definition handle_robot_execute_trajectory (args : Args) : M Reply :=
  need_robot ;;
  trajectory <- subscript "trajectory" (arg_trajectory args) ;;
  let option := dict_get (arg_option args) "" in
  validate_points 0 trajectory ;;
  initial_angles <- capture_initial_angles (fun v => v) ;;
  give_arm_if_held ;;
  take_arm ;;
  let move_option := option in
  f <- with_frame no_points
         (run_points move_option 0 trajectory ;; get_frame) ;;
  let result := R_trajectory (trajectory_report trajectory
                                                initial_angles f) in
  log_operation "bcap_robot_execute_trajectory" args (Some result)
                None ;;
  ret (Rep result).

Definition slv_change_mode (mode : Z) : M unit :=
  s <- get_state ;;
  _ <- on_client
    (invoke (c_robot_execute (robot_handle s) "slvChangeMode"
                             (VInt mode))) ;;
  ret tt.

Definition give_arm : M unit :=
  s <- get_state ;;
  _ <- on_client
    (invoke (c_robot_execute (robot_handle s) "GiveArm" VNone)) ;;
  ret tt.

(** [slvMove] with the point padded to 8 values. *)
Definition slv_move (point : list float) : M unit :=
  s <- get_state ;;
  _ <- on_client
    (invoke (c_robot_execute (robot_handle s) "slvMove"
                             (VList (map VFloat point
                                     ++ [VInt 0; VInt 0])))) ;;
  ret tt.

(** [for i in range(1, len(trajectory))], from index [i] on. *)
Fixpoint stream_points (i : nat) (rest : list (list float))
  : Fr TrajFrame unit :=
  match rest with
  | [] => ret tt
  | point :: rest' =>
      try_except
        (lift (slv_move point) ;;
         push_executed (i + 1) point)
        (fun e => push_failed (i + 1) point (str e)) ;;
      stream_points (S i) rest'
  end.

(** The body of the outer [try] of the slave executor. *)
Definition slave_body (trajectory : list (list float))
  : Fr TrajFrame unit :=
  lift take_arm ;;
  lift (slv_change_mode 514) ;;
  match trajectory with
  | first_point :: _ =>
      try_except
        (lift (slv_move first_point) ;;
         push_executed 1 first_point)
        (fun e => push_failed 1 first_point (str e) ;; raise e)
  | [] => ret tt
  end ;;
  stream_points 1 (tl trajectory) ;;
  lift (slv_change_mode 0) ;;
  lift give_arm.

(** The handler of the outer [except]: one guarded block for both
    clean-up commands. *)
Definition slave_cleanup : Fr TrajFrame unit :=
  try_except
    (lift (slv_change_mode 0) ;;
     lift give_arm)
    (fun _ => ret tt).

(** [list(initial_angles[:6])] *)
Definition first_six (v : Value) : Value :=
  match v with
  | VList l => VList (firstn 6 l)
  | _ => v
  end.

Definition handle_robot_execute_slave_trajectory (args : Args)
  : M Reply :=
  need_robot ;;
  trajectory <- subscript "trajectory" (arg_trajectory args) ;;
  validate_points 0 trajectory ;;
  initial_angles <- capture_initial_angles first_six ;;
  with_frame no_points
    (caught <- try_except
                 (slave_body trajectory ;; ret None)
                 (fun e => slave_cleanup ;; ret (Some e)) ;;
     f <- get_frame ;;
     match caught with
     | Some e =>
         let result :=
           R_slave_failed
             {| sf_total_points := List.length trajectory;
                sf_executed_points := List.length (executed_points f);
                sf_failed_points := List.length (failed_points f);
                sf_initial_angles := initial_angles;
                sf_error := str e |} in
         lift (log_operation "bcap_robot_execute_slave_trajectory" args
                             (Some result) None) ;;
         ret (Rep result)
     | None =>
         let result := R_slave (trajectory_report trajectory
                                                  initial_angles f) in
         lift (log_operation "bcap_robot_execute_slave_trajectory" args
                             (Some result) None) ;;
         ret (Rep result)
     end).

(** *** Pick and place *)

(** The locals of [handle_robot_pick_and_place] that are assigned inside
    a step's [try]; [None] is a name not assigned yet. *)
Record SagaFrame := {
  steps : list StepResult;
  errors : list string;
  pick_z : option float;
  current_z : option float;
  place_y : option float;
  place_z : option float
}.

Definition saga_start : SagaFrame :=
  {| steps := []; errors := []; pick_z := None; current_z := None;
     place_y := None; place_z := None |}.

(** [steps.append(sr)] *)
Definition add_step (sr : StepResult) (f : SagaFrame) : SagaFrame :=
  {| steps := steps f ++ [sr]; errors := errors f;
     pick_z := pick_z f; current_z := current_z f;
     place_y := place_y f; place_z := place_z f |}.

(** [errors.append(error_msg)] *)
Definition add_error (error_msg : string) (f : SagaFrame) : SagaFrame :=
  {| steps := steps f; errors := errors f ++ [error_msg];
     pick_z := pick_z f; current_z := current_z f;
     place_y := place_y f; place_z := place_z f |}.

Definition assign_pick_z (v : float) (f : SagaFrame) : SagaFrame :=
  {| steps := steps f; errors := errors f;
     pick_z := Some v; current_z := current_z f;
     place_y := place_y f; place_z := place_z f |}.

Definition assign_current_z (v : float) (f : SagaFrame) : SagaFrame :=
  {| steps := steps f; errors := errors f;
     pick_z := pick_z f; current_z := Some v;
     place_y := place_y f; place_z := place_z f |}.

Definition assign_place_y (v : float) (f : SagaFrame) : SagaFrame :=
  {| steps := steps f; errors := errors f;
     pick_z := pick_z f; current_z := current_z f;
     place_y := Some v; place_z := place_z f |}.

Definition assign_place_z (v : float) (f : SagaFrame) : SagaFrame :=
  {| steps := steps f; errors := errors f;
     pick_z := pick_z f; current_z := current_z f;
     place_y := place_y f; place_z := Some v |}.

Definition push_step (sr : StepResult) : Fr SagaFrame unit :=
  modify_frame (add_step sr).

Definition push_error (error_msg : string) : Fr SagaFrame unit :=
  modify_frame (add_error error_msg).

Definition set_pick_z (v : float) : Fr SagaFrame unit :=
  modify_frame (assign_pick_z v).

Definition set_current_z (v : float) : Fr SagaFrame unit :=
  modify_frame (assign_current_z v).

Definition set_place_y (v : float) : Fr SagaFrame unit :=
  modify_frame (assign_place_y v).

Definition set_place_z (v : float) : Fr SagaFrame unit :=
  modify_frame (assign_place_z v).

(** Reading a local: unassigned names raise [UnboundLocalError]. *)
Definition read_local (name : string) (get : SagaFrame -> option float)
  : Fr SagaFrame float :=
  f <- get_frame ;;
  match get f with
  | Some v => ret v
  | None => raise (UnboundLocalError (unbound_message name))
  end.

Definition step_failed (step : nat) (action error_msg : string)
  : StepResult :=
  {| sr_step := step; sr_action := action; sr_status := failed;
     sr_position := None; sr_distance_mm := None;
     sr_gripper_distance_mm := None; sr_speed := None;
     sr_error := Some error_msg |}.

Definition step_moved (step : nat) (action : string)
           (distance_mm : option float) (position : list float)
  : StepResult :=
  {| sr_step := step; sr_action := action; sr_status := success;
     sr_position := Some position; sr_distance_mm := distance_mm;
     sr_gripper_distance_mm := None; sr_speed := None;
     sr_error := None |}.

Definition step_gripped (step : nat) (action : string)
           (gripper_distance_mm speed : float) : StepResult :=
  {| sr_step := step; sr_action := action; sr_status := success;
     sr_position := None; sr_distance_mm := None;
     sr_gripper_distance_mm := Some gripper_distance_mm;
     sr_speed := Some speed; sr_error := None |}.

(** The text a failed step reports. *)
Definition failure_text (step : nat) (note : string) (e : Exn) : string :=
  "Step " ++ string_of_nat step ++ " failed" ++ note ++ ": " ++ str e.

(** [except Exception as e:] of a step: the message goes to [errors], a
    failed record to [steps]. *)
Definition record_failure (step : nat) (action note : string) (e : Exn)
  : Fr SagaFrame unit :=
  let error_msg := failure_text step note e in
  push_error error_msg ;;
  push_step (step_failed step action error_msg).

Definition simulator_note : string := " (may be simulator limitation)".

(** Steps 1, 3 and 9: [HandMoveA] to a fixed opening. *)
Definition gripper_step (step : nat) (action : string)
           (distance_mm gripper_speed : float) : Fr SagaFrame unit :=
  try_except
    (lift (hand_move distance_mm gripper_speed) ;;
     push_step (step_gripped step action distance_mm gripper_speed))
    (record_failure step action simulator_note).

Section Saga.

(** The captured initial pose and the distances in millimetres. *)
Variables x y z rx ry rz : float.
Variables pick_down_mm lift_up_mm place_y_mm place_down_mm : float.

(** Step 2 *)
Definition move_down_to_pick : Fr SagaFrame unit :=
  try_except
    (lift take_arm ;;
     set_pick_z (z - pick_down_mm)%float ;;
     pick_z <- read_local "pick_z" pick_z ;;
     lift (robot_move [x; y; pick_z; rx; ry; rz] "P" "") ;;
     push_step (step_moved 2 "move_down_to_pick" (Some pick_down_mm)
                           [x; y; pick_z; rx; ry; rz]))
    (record_failure 2 "move_down_to_pick" "").

(** One round of [for i in range(3)] of steps 4-6. *)
Definition lift_up (step_up_mm : float) (i : nat) : Fr SagaFrame unit :=
  let action := ("lift_up_" ++ string_of_nat (i + 1))%string in
  try_except
    (lift take_arm ;;
     cz <- read_local "current_z" current_z ;;
     set_current_z (cz + step_up_mm)%float ;;
     current_z <- read_local "current_z" current_z ;;
     lift (robot_move [x; y; current_z; rx; ry; rz] "P" "") ;;
     push_step (step_moved (4 + i) action (Some step_up_mm)
                           [x; y; current_z; rx; ry; rz]))
    (record_failure (4 + i) action "").

(** Steps 4-6; [current_z = pick_z] stands outside every step's
    [try]. *)
Definition lift_up_in_three : Fr SagaFrame unit :=
  let step_up_mm := (lift_up_mm / 3)%float in
  pick_z <- read_local "pick_z" pick_z ;;
  set_current_z pick_z ;;
  lift_up step_up_mm 0 ;;
  lift_up step_up_mm 1 ;;
  lift_up step_up_mm 2.

(** Step 7 *)
Definition move_y_to_place : Fr SagaFrame unit :=
  try_except
    (lift take_arm ;;
     set_place_y (y + place_y_mm)%float ;;
     place_y <- read_local "place_y" place_y ;;
     current_z <- read_local "current_z" current_z ;;
     lift (robot_move [x; place_y; current_z; rx; ry; rz] "P" "") ;;
     push_step (step_moved 7 "move_y_to_place" (Some place_y_mm)
                           [x; place_y; current_z; rx; ry; rz]))
    (record_failure 7 "move_y_to_place" "").

(** Step 8 *)
Definition move_down_to_place : Fr SagaFrame unit :=
  try_except
    (lift take_arm ;;
     current_z <- read_local "current_z" current_z ;;
     set_place_z (current_z - place_down_mm)%float ;;
     place_y <- read_local "place_y" place_y ;;
     place_z <- read_local "place_z" place_z ;;
     lift (robot_move [x; place_y; place_z; rx; ry; rz] "P" "") ;;
     push_step (step_moved 8 "move_down_to_place" (Some place_down_mm)
                           [x; place_y; place_z; rx; ry; rz]))
    (record_failure 8 "move_down_to_place" "").

(** Step 10 *)
Definition return_to_initial_position : Fr SagaFrame unit :=
  try_except
    (lift take_arm ;;
     lift (robot_move [x; y; z; rx; ry; rz] "P" "") ;;
     push_step (step_moved 10 "return_to_initial_position" None
                           [x; y; z; rx; ry; rz]))
    (record_failure 10 "return_to_initial_position" "").

(** Steps 1 to 10 in the order of the source. *)
Definition saga_steps (gripper_speed : float) : Fr SagaFrame unit :=
  gripper_step 1 "open_gripper" 30%float gripper_speed ;;
  move_down_to_pick ;;
  gripper_step 3 "close_gripper" 21%float gripper_speed ;;
  lift_up_in_three ;;
  move_y_to_place ;;
  move_down_to_place ;;
  gripper_step 9 "open_gripper" 30%float gripper_speed ;;
  return_to_initial_position.

End Saga.

(** The position variable is a sequence of doubles; [None] for a reply of
    another shape. *)
Fixpoint as_floats (l : list Value) : option (list float) :=
  match l with
  | [] => Some []
  | VFloat f :: rest =>
      match as_floats rest with
      | Some fs => Some (f :: fs)
      | None => None
      end
  | _ :: _ => None
  end.

(** [value[:6]] *)
Definition slice6 {S} (v : Value) : Eff S Value :=
  match v with
  | VList l => ret (VList (firstn 6 l))
  | VStr s => ret (VStr (substring 0 6 s))
  | _ => raise (TypeError "object is not subscriptable")
  end.

(** After step 10: the final pose is read and the report is built. *)
Definition saga_report (initial_position : list float)
  : Fr SagaFrame Result :=
  final_pose <- lift (read_variable "@CURRENT_POSITION" "") ;;
  final_position <- slice6 final_pose ;;
  f <- get_frame ;;
  ret (R_pick_place
         {| sg_success := Nat.eqb (List.length (errors f)) 0;
            sg_initial_position := initial_position;
            sg_final_position := final_position;
            sg_steps := steps f;
            sg_errors := match errors f with
                         | [] => None
                         | _ :: _ => Some (errors f)
                         end |}).

(** The body of the outer [try]: step 0, steps 1-10, the final pose and
    the report.  The position variable is a sequence of doubles: a reply of
    another shape fails the capture. *)
Definition saga_body (pick_down_mm lift_up_mm place_y_mm place_down_mm
                      gripper_speed : float) : Fr SagaFrame Result :=
  initial_pose <- lift (read_variable "@CURRENT_POSITION" "") ;;
  match initial_pose with
  | VList l =>
      match as_floats l with
      | Some (x :: y :: z :: rx :: ry :: rz :: more) =>
          push_step (step_moved 0 "get_initial_position" None
                                [x; y; z; rx; ry; rz]) ;;
          saga_steps x y z rx ry rz pick_down_mm lift_up_mm place_y_mm
                     place_down_mm gripper_speed ;;
          saga_report [x; y; z; rx; ry; rz]
      | Some _ => raise (IndexError "list index out of range")
      | None => raise (TypeError "unsupported operand type(s)")
      end
  | _ => raise (TypeError "object is not subscriptable")
  end.

Definition handle_robot_pick_and_place (args : Args) : M Reply :=
  need_controller ;;
  need_robot ;;
  let pick_down_distance := dict_get (arg_pick_down_distance args) 4%float in
  let lift_up_distance := dict_get (arg_lift_up_distance args) 9%float in
  let place_y_offset := dict_get (arg_place_y_offset args) 2.5%float in
  let place_down_distance := dict_get (arg_place_down_distance args) 3%float in
  let gripper_speed := dict_get (arg_gripper_speed args) 100%float in
  let pick_down_mm := (pick_down_distance * 10)%float in
  let lift_up_mm := (lift_up_distance * 10)%float in
  let place_y_mm := (place_y_offset * 10)%float in
  let place_down_mm := (place_down_distance * 10)%float in
  result <- with_frame saga_start
    (try_except
       (saga_body pick_down_mm lift_up_mm place_y_mm place_down_mm
                  gripper_speed)
       (fun e =>
          f <- get_frame ;;
          ret (R_pick_place_failed (str e) (steps f) (errors f)))) ;;
  log_operation "bcap_robot_pick_and_place" args (Some result) None ;;
  ret (Rep result).

(** *** Operation log *)

Definition handle_get_operation_log (args : Args) : M Reply :=
  let limit := dict_get (arg_limit args) 50%Z in
  s <- get_state ;;
  let logs := slice_from (- limit) (operation_log s) in
  ret (Rep_log (List.length (operation_log s)) (List.length logs) logs).

(** *** Error descriptions *)

(** The dictionary literal: a later entry replaces an earlier one with
    the same key. *)
Definition error_map : list (Z * string) :=
  [ (E_TIMEOUT HResult, "Connection timeout");
    (E_NOT_CONNECTED HResult, "Not connected");
    (E_ACCESSDENIED HResult, "Access denied");
    (E_INVALIDARG HResult, "Invalid parameter");
    (E_CAO_OBJECT_NOTFOUND HResult, "Object not found");
    (E_CAO_VARIANT_TYPE_NOSUPPORT HResult, "Unsupported variable type");
    (E_FAIL HResult, "Operation failed") ].

Fixpoint dict_find (key : Z) (items : list (Z * string))
         (found : option string) : option string :=
  match items with
  | [] => found
  | (k, v) :: rest =>
      dict_find key rest (if Z.eqb k key then Some v else found)
  end.

Definition get_error_description (hresult : Z) : string :=
  match dict_find hresult error_map None with
  | Some d => d
  | None => "Unknown error (" ++ string_of_Z hresult ++ ")"
  end.

(** *** Dispatch *)

Definition dispatch (name : string) (arguments : Args) : M Reply :=
  if name =? "bcap_connect" then handle_connect arguments
  else if name =? "bcap_disconnect" then handle_disconnect arguments
  else if name =? "bcap_get_connection_status" then
    handle_get_connection_status arguments
  else if name =? "bcap_controller_connect" then
    handle_controller_connect arguments
  else if name =? "bcap_controller_get_robot_names" then
    handle_controller_get_robot_names arguments
  else if name =? "bcap_controller_get_variable_names" then
    handle_controller_get_variable_names arguments
  else if name =? "bcap_controller_clear_error" then
    handle_controller_clear_error arguments
  else if name =? "bcap_robot_connect" then handle_robot_connect arguments
  else if name =? "bcap_robot_get_variable" then
    handle_robot_get_variable arguments
  else if name =? "bcap_robot_get_variable_names" then
    handle_robot_get_variable_names arguments
  else if name =? "bcap_robot_move_to_joint_angles" then
    handle_robot_move_to_joint_angles arguments
  else if name =? "bcap_robot_move_to_pose" then
    handle_robot_move_to_pose arguments
  else if name =? "bcap_robot_gohome" then handle_robot_gohome arguments
  else if name =? "bcap_robot_set_speed" then
    handle_robot_set_speed arguments
  else if name =? "bcap_robot_execute_trajectory" then
    handle_robot_execute_trajectory arguments
  else if name =? "bcap_robot_execute_slave_trajectory" then
    handle_robot_execute_slave_trajectory arguments
  else if name =? "bcap_robot_open_gripper" then
    handle_robot_open_gripper arguments
  else if name =? "bcap_robot_close_gripper" then
    handle_robot_close_gripper arguments
  else if name =? "bcap_robot_pick_and_place" then
    handle_robot_pick_and_place arguments
  else if name =? "bcap_get_operation_log" then
    handle_get_operation_log arguments
  else raise (ValueError ("Unknown tool: " ++ name)).

(** [call_tool]: the dispatch under the two [except] clauses, each of
    which logs the error and returns the failure envelope. *)
Definition call_tool (name : string) (arguments : Args)
  : World -> Reply * World :=
  fun w =>
    match dispatch name arguments w with
    | (inr reply, w') => (reply, w')
    | (inl (ORiNException hresult _), w') =>
        let error_msg :=
          ("ORiN error (HResult=" ++ string_of_Z hresult ++ "): "
           ++ get_error_description hresult)%string in
        (Rep_error error_msg (Some hresult),
         snd (log_operation name arguments None (Some error_msg) w'))
    | (inl e, w') =>
        let error_msg := ("Error: " ++ str e)%string in
        (Rep_error error_msg None,
         snd (log_operation name arguments None (Some error_msg) w'))
    end.

End Server.

(** ** The advertised tools *)

(** A [Tool] of [list_tools]: its name, the keys under ["properties"] of
    its input schema, each with its ["default"] when it has one, and the
    keys listed under ["required"].  Descriptions and types are left
    out; the default of a key of type ["number"] is a float. *)
Record Tool := {
  tool_name : string;
  tool_properties : list (string * option Value);
  tool_required : list string
}.

Definition list_tools : list Tool :=
  [ {| tool_name := "bcap_connect";
       tool_properties := [ ("host", None);
                            ("port", Some (VInt 5007));
                            ("timeout", Some (VFloat 3)) ];
       tool_required := ["host"] |};
    {| tool_name := "bcap_disconnect";
       tool_properties := [];
       tool_required := [] |};
    {| tool_name := "bcap_get_connection_status";
       tool_properties := [];
       tool_required := [] |};
    {| tool_name := "bcap_controller_connect";
       tool_properties := [ ("name", Some (VStr ""));
                            ("provider", Some (VStr "CaoProv.DENSO.VRC"));
                            ("machine", Some (VStr "localhost"));
                            ("option", Some (VStr "")) ];
       tool_required := [] |};
    {| tool_name := "bcap_controller_get_robot_names";
       tool_properties := [ ("option", Some (VStr "")) ];
       tool_required := [] |};
    {| tool_name := "bcap_controller_get_variable_names";
       tool_properties := [ ("option", Some (VStr "")) ];
       tool_required := [] |};
    {| tool_name := "bcap_controller_clear_error";
       tool_properties := [];
       tool_required := [] |};
    {| tool_name := "bcap_robot_connect";
       tool_properties := [ ("name", Some (VStr "Arm"));
                            ("option", Some (VStr "")) ];
       tool_required := [] |};
    {| tool_name := "bcap_robot_get_variable";
       tool_properties := [ ("name", None);
                            ("option", Some (VStr "")) ];
       tool_required := ["name"] |};
    {| tool_name := "bcap_robot_get_variable_names";
       tool_properties := [ ("option", Some (VStr "")) ];
       tool_required := [] |};
    {| tool_name := "bcap_robot_move_to_joint_angles";
       tool_properties := [ ("joint_angles", None);
                            ("option", Some (VStr "")) ];
       tool_required := ["joint_angles"] |};
    {| tool_name := "bcap_robot_move_to_pose";
       tool_properties := [ ("pose", None);
                            ("option", Some (VStr "")) ];
       tool_required := ["pose"] |};
    {| tool_name := "bcap_robot_gohome";
       tool_properties := [];
       tool_required := [] |};
    {| tool_name := "bcap_robot_set_speed";
       tool_properties := [ ("axis", Some (VInt 0));
                            ("speed", Some (VFloat 50)) ];
       tool_required := [] |};
    {| tool_name := "bcap_robot_execute_trajectory";
       tool_properties := [ ("trajectory", None);
                            ("option", Some (VStr "")) ];
       tool_required := ["trajectory"] |};
    {| tool_name := "bcap_robot_execute_slave_trajectory";
       tool_properties := [ ("trajectory", None);
                            ("option", Some (VStr "")) ];
       tool_required := ["trajectory"] |};
    {| tool_name := "bcap_robot_open_gripper";
       tool_properties := [ ("dist", Some (VFloat 0.030));
                            ("speed", Some (VFloat 30)) ];
       tool_required := [] |};
    {| tool_name := "bcap_robot_close_gripper";
       tool_properties := [ ("dist", Some (VFloat 0));
                            ("speed", Some (VFloat 100)) ];
       tool_required := [] |};
    {| tool_name := "bcap_robot_pick_and_place";
       tool_properties := [ ("pick_down_distance", Some (VFloat 4));
                            ("lift_up_distance", Some (VFloat 9));
                            ("place_y_offset", Some (VFloat 2.5));
                            ("place_down_distance", Some (VFloat 3));
                            ("gripper_speed", Some (VFloat 100)) ];
       tool_required := [] |};
    {| tool_name := "bcap_get_operation_log";
       tool_properties := [ ("limit", Some (VInt 50)) ];
       tool_required := [] |} ].

(** * Properties *)

(** ** Computations that keep a relation between worlds

    [stable R m]: whatever [m] returns or raises, the world it leaves is
    related by [R] to the world it started from.  Used with "same session
    handles" and with "same operation log". *)

Class View (S : Type) := world_of : S -> World.

#[export] Instance view_world : View World := fun w => w.
#[export] Instance view_frame {F} : View (F * World) := fun fw => snd fw.

Definition stable {S} `{View S} (R : World -> World -> Prop) {A}
           (m : Eff S A) : Prop :=
  forall s, R (world_of s) (world_of (snd (m s))).

(** The relations it is used with: reflexive, transitive, and blind to the
    call trace. *)
Class WorldRel (R : World -> World -> Prop) := {
  rel_refl : forall w, R w w;
  rel_trans : forall a b c, R a b -> R b c -> R a c;
  rel_call :
    forall w c, R w {| state := state w; calls := calls w ++ [c] |}
}.

(** The connection handles and metadata are the same. *)
Definition same_session (w w' : World) : Prop :=
  client (state w') = client (state w) /\
  controller_handle (state w') = controller_handle (state w) /\
  robot_handle (state w') = robot_handle (state w) /\
  connection_info (state w') = connection_info (state w).

(** The operation log is the same. *)
Definition same_log (w w' : World) : Prop :=
  operation_log (state w') = operation_log (state w).

Create HintDb stable.


(** ** The connection chain *)

(** Robot connected implies controller connected implies network
    connected. *)
Definition chain (s : ServerState) : Prop :=
  (robot_handle s <> None -> controller_handle s <> None) /\
  (controller_handle s <> None -> client s <> None).

(** The session once [reset] has run to its end. *)
Definition cleared (s : ServerState) : ServerState :=
  {| client := None; controller_handle := None; robot_handle := None;
     connection_info := None; operation_log := operation_log s |}.

(** The releases a reset owes, in the order of the specification: the
    robot handle, then the controller handle. *)
Definition releases (s : ServerState) : list Call :=
  if is_some (client s) then
    (if truthy (robot_handle s)
     then [c_robot_release (robot_handle s)] else [])
    ++ (if truthy (controller_handle s)
        then [c_controller_disconnect (controller_handle s)] else [])
  else [].

Section Reachable.

Variable cl : Client.
Variable HResult : HResultCodes.
Variable parse_speed : string -> option float.
Variable unbound_message : string -> string.

(** The worlds a server can be in: the start, and whatever a request or
    a direct reset leaves. *)
Inductive reachable : World -> Prop :=
| reach_init : reachable init_world
| reach_call name arguments w :
    reachable w ->
    reachable (snd (call_tool cl HResult parse_speed unbound_message
                              name arguments w))
| reach_reset w :
    reachable w -> reachable (snd (reset cl w)).

End Reachable.

(** The chain, if it held before, holds after. *)
Definition chain_kept (w w' : World) : Prop :=
  chain (state w) -> chain (state w').

(** ** Logging *)

(** From store [s], [m] either returns having appended exactly one entry,
    filed under [name], or raises having appended none. *)
Definition logged_once {S} `{View S} {A} (name : string) (m : Eff S A)
           (s : S) : Prop :=
  match m s with
  | (inr _, s') =>
      exists e,
        operation_log (state (world_of s')) =
          operation_log (state (world_of s)) ++ [e] /\
        le_operation e = name
  | (inl _, s') =>
      operation_log (state (world_of s')) =
        operation_log (state (world_of s))
  end.

Definition appends_one {S} `{View S} {A} (name : string) (m : Eff S A)
  : Prop :=
  forall s, logged_once name m s.

(** ** Preconditions *)

Inductive Stage := Network | Controller | Robot.

(** The connection stages a request needs, in the order in which its
    handler asks for them. *)
Definition required (name : string) : list Stage :=
  if name =? "bcap_controller_connect" then [Network]
  else if name =? "bcap_controller_get_robot_names" then [Controller]
  else if name =? "bcap_controller_get_variable_names" then [Controller]
  else if name =? "bcap_controller_clear_error" then [Controller]
  else if name =? "bcap_robot_connect" then [Controller]
  else if name =? "bcap_robot_get_variable" then [Robot]
  else if name =? "bcap_robot_get_variable_names" then [Robot]
  else if name =? "bcap_robot_move_to_pose" then [Robot]
  else if name =? "bcap_robot_gohome" then [Robot]
  else if name =? "bcap_robot_set_speed" then [Robot]
  else if name =? "bcap_robot_execute_trajectory" then [Robot]
  else if name =? "bcap_robot_execute_slave_trajectory" then [Robot]
  else if name =? "bcap_robot_open_gripper" then [Controller]
  else if name =? "bcap_robot_close_gripper" then [Controller]
  else if name =? "bcap_robot_pick_and_place" then [Controller; Robot]
  else [].

(** A stage is missing when the session holds no client, or no handle for
    it ([None], or the handle [0], which the handlers' truth tests do not
    tell apart from [None]). *)
Definition missing (s : ServerState) (stage : Stage) : bool :=
  match stage with
  | Network => negb (is_some (client s))
  | Controller => negb (truthy (controller_handle s))
  | Robot => negb (truthy (robot_handle s))
  end.

Definition precondition_text (stage : Stage) : string :=
  match stage with
  | Network => "Please call bcap_connect first to establish connection"
  | Controller => "Please call bcap_controller_connect first"
  | Robot => "Please call bcap_robot_connect first"
  end.

(** The answer to a request whose handler raised a plain exception with
    message [text]: the failure envelope, and the error logged. *)
Definition refusal (name : string) (args : Args) (text : string)
           (w : World) : Reply * World :=
  (Rep_error ("Error: " ++ text) None,
   snd (log_operation name args None (Some ("Error: " ++ text)%string) w)).

(** The trace only grows. *)
Definition extends (w w' : World) : Prop :=
  exists issued, calls w' = calls w ++ issued.

(** ** Concrete platforms for the examples *)

(** Arbitrary distinct codes. *)
Definition example_codes : HResultCodes :=
  {| E_TIMEOUT := 1; E_NOT_CONNECTED := 2; E_ACCESSDENIED := 3;
     E_INVALIDARG := 4; E_CAO_OBJECT_NOTFOUND := 5;
     E_CAO_VARIANT_TYPE_NOSUPPORT := 6; E_FAIL := 7 |}.

Definition no_speed (text : string) : option float := None.

Definition example_unbound (name : string) : string :=
  "cannot access local variable '" ++ name ++ "'".

Definition example_pose : list float :=
  [100; 200; 300; 180; 0; 90]%float.

(** A controller on which every call succeeds; every variable reads as
    [example_pose]. *)
Definition obliging : Client :=
  {| reply_handle := fun _ _ => inr 1%Z;
     reply_value := fun _ c =>
       match c with
       | c_variable_getvalue _ => inr (VList (map VFloat example_pose))
       | _ => inr VNone
       end |}.

(** The session after connect, controller-connect and robot-connect. *)
Definition connected_state : ServerState :=
  {| client := Some {| bc_host := "192.168.0.1"; bc_port := 5007;
                       bc_timeout := 3 |};
     controller_handle := Some 1%Z;
     robot_handle := Some 2%Z;
     connection_info := Some {| ci_host := "192.168.0.1"; ci_port := 5007;
                                ci_timeout := 3 |};
     operation_log := [] |}.

Definition connected_world : World :=
  {| state := connected_state; calls := [] |}.

(** Argument bags of the examples. *)
Definition args_host (host : string) : Args :=
  Build_Args (Some host) None None None None None None None None None
             None None None None None None None None None.

Definition args_joint_angles (joint_angles : list float) : Args :=
  Build_Args None None None None None None None (Some joint_angles) None
             None None None None None None None None None None.

Definition args_trajectory (trajectory : list (list float)) : Args :=
  Build_Args None None None None None None None None None None
             None (Some trajectory) None None None None None None None.

Definition args_limit (limit : Z) : Args :=
  Build_Args None None None None None None None None None None
             None None None None None None None None (Some limit).

Definition args_lift_up (lift_up_distance : float) : Args :=
  Build_Args None None None None None None None None None None
             None None None None (Some lift_up_distance) None None None
             None.

Definition origin : list float := [0; 0; 0; 0; 0; 0]%float.

(** A controller that rejects the release of a robot handle. *)
Definition release_fails : Client :=
  {| reply_handle := fun _ _ => inr 1%Z;
     reply_value := fun _ c =>
       match c with
       | c_robot_release _ => inl (ORiNException 7 "release rejected")
       | _ => inr VNone
       end |}.

(** A controller that rejects every streamed point and the return to
    normal mode ([slvChangeMode 0]). *)
Definition slave_stuck : Client :=
  {| reply_handle := fun _ _ => inr 1%Z;
     reply_value := fun _ c =>
       match c with
       | c_robot_execute _ command param =>
           if command =? "slvMove" then
             inl (ORiNException 7 "point rejected")
           else if command =? "slvChangeMode" then
             match param with
             | VInt 0 => inl (ORiNException 7 "mode change rejected")
             | _ => inr VNone
             end
           else inr VNone
       | c_variable_getvalue _ => inr (VList (map VFloat example_pose))
       | _ => inr VNone
       end |}.

(** The last [n] entries of a list. *)
Definition last_entries {A} (n : nat) (l : list A) : list A :=
  skipn (List.length l - n) l.

(** The session after three logged requests on the obliging controller. *)
Definition busy_world : World :=
  snd (call_tool obliging example_codes no_speed example_unbound
         "bcap_robot_connect" no_args
         (snd (call_tool obliging example_codes no_speed example_unbound
                 "bcap_controller_connect" no_args
                 (snd (call_tool obliging example_codes no_speed
                                 example_unbound "bcap_connect"
                                 (args_host "192.168.0.1") init_world))))).

(** ** Trajectories *)

(** The world once call [c] was sent. *)
Definition sent (w : World) (c : Call) : World :=
  {| state := state w; calls := calls w ++ [c] |}.

(** The outcome of a call whose value is not used. *)
Definition dropped (r : Exn + Value) : Exn + unit :=
  match r with
  | inl e => inl e
  | inr _ => inr tt
  end.

Definition six (point : list float) : bool :=
  Nat.eqb (List.length point) 6.

(** The move the discrete executor issues for a point. *)
Definition move_call (rh : option Z) (move_option : string)
           (point : list float) : Call :=
  c_robot_move rh 1 point "J" "@E" move_option.

Definition take_arm_call (rh : option Z) : Call :=
  c_robot_execute rh "TakeArm" take_arm_param.

Definition give_arm_call (rh : option Z) : Call :=
  c_robot_execute rh "GiveArm" VNone.

Definition slv_mode_call (rh : option Z) (mode : Z) : Call :=
  c_robot_execute rh "slvChangeMode" (VInt mode).

(** The streamed move the slave executor issues for a point. *)
Definition slv_move_call (rh : option Z) (point : list float) : Call :=
  c_robot_execute rh "slvMove"
                  (VList (map VFloat point ++ [VInt 0; VInt 0])).

(** The targets of the moves in a trace, in the order they were issued. *)
Definition move_targets (cs : list Call) : list (list float) :=
  flat_map (fun c => match c with
                     | c_robot_move _ _ target _ _ _ => [target]
                     | _ => []
                     end) cs.

(** The world in which the discrete executor asks for the arm: the initial
    angles were read and a stale arm ownership given up. *)
Definition before_take_arm (cl : Client) (w : World) : World :=
  snd (give_arm_if_held cl (snd (capture_initial_angles cl (fun v => v) w))).

(** The failed list of a report ([None] stands for the empty list). *)
Definition failed_list (rep : TrajectoryReport) : list FailedPoint :=
  match tr_failed_details rep with
  | Some l => l
  | None => []
  end.

(** A controller that refuses the arm. *)
Definition arm_denied : Client :=
  {| reply_handle := fun _ _ => inr 1%Z;
     reply_value := fun _ c =>
       match c with
       | c_robot_execute _ command _ =>
           if command =? "TakeArm" then inl (ORiNException 3 "arm denied")
           else inr VNone
       | c_variable_getvalue _ => inr (VList (map VFloat example_pose))
       | _ => inr VNone
       end |}.

(** A controller that carries out the first move it is sent and rejects
    every later one. *)
Definition second_move_fails : Client :=
  {| reply_handle := fun _ _ => inr 1%Z;
     reply_value := fun history c =>
       match c with
       | c_robot_move _ _ _ _ _ _ =>
           match move_targets history with
           | [] => inr VNone
           | _ :: _ => inl (Exception "move rejected")
           end
       | c_variable_getvalue _ => inr (VList (map VFloat example_pose))
       | _ => inr VNone
       end |}.

Definition two_points : list (list float) :=
  [[0; 0; 0; 0; 0; 0]; [10; 20; 30; 0; 0; 0]]%float.

(** A controller that rejects every streamed point and nothing else. *)
Definition points_rejected : Client :=
  {| reply_handle := fun _ _ => inr 1%Z;
     reply_value := fun _ c =>
       match c with
       | c_robot_execute _ command _ =>
           if command =? "slvMove" then
             inl (ORiNException 7 "point rejected")
           else inr VNone
       | c_variable_getvalue _ => inr (VList (map VFloat example_pose))
       | _ => inr VNone
       end |}.

(** ** Pick and place *)

(** What the [except] clause of a step leaves in the frame. *)
Definition add_failure (step : nat) (action note : string) (e : Exn)
           (f : SagaFrame) : SagaFrame :=
  add_step (step_failed step action (failure_text step note e))
           (add_error (failure_text step note e) f).

(** The Cartesian move of a saga step. *)
Definition pose_move (rh : option Z) (target : list float) : Call :=
  c_robot_move rh 1 target "P" "@E" "".

Definition hand_call (ch : option Z) (distance_mm speed : float) : Call :=
  c_controller_execute ch "HandMoveA"
                       (VList [VFloat distance_mm; VFloat speed]).

(** The outcome of a gripper step from frame [f] and world [w]. *)
Definition gripper_outcome (cl : Client) (step : nat) (action : string)
           (distance_mm speed : float) (f : SagaFrame) (w : World)
  : SagaFrame * World :=
  let c := hand_call (controller_handle (state w)) distance_mm speed in
  (match reply_value cl (calls w) c with
   | inl e => add_failure step action simulator_note e f
   | inr _ => add_step (step_gripped step action distance_mm speed) f
   end,
   sent w c).

(** The outcome of a move step: [f] is the frame at its start, [fa] the
    frame once the step's locals are assigned (after [TakeArm]), [sr] the
    record appended when the move goes through. *)
Definition move_outcome (cl : Client) (step : nat) (action : string)
           (target : list float) (sr : StepResult) (f fa : SagaFrame)
           (w : World) : SagaFrame * World :=
  let rh := robot_handle (state w) in
  match reply_value cl (calls w) (take_arm_call rh) with
  | inl e => (add_failure step action "" e f, sent w (take_arm_call rh))
  | inr _ =>
      let w1 := sent w (take_arm_call rh) in
      (match reply_value cl (calls w1) (pose_move rh target) with
       | inl e => add_failure step action "" e fa
       | inr _ => add_step sr fa
       end,
       sent w1 (pose_move rh target))
  end.

(** The outcome of step 8 when step 7 never assigned [place_y]: the arm is
    asked for, the list of the target cannot be built, no move is sent. *)
Definition unplaced_outcome (cl : Client) (unbound_message : string -> string)
           (f fa : SagaFrame) (w : World) : SagaFrame * World :=
  let rh := robot_handle (state w) in
  (match reply_value cl (calls w) (take_arm_call rh) with
   | inl e => add_failure 8 "move_down_to_place" "" e f
   | inr _ =>
       add_failure 8 "move_down_to_place" ""
                   (UnboundLocalError (unbound_message "place_y")) fa
   end,
   sent w (take_arm_call rh)).

(** The messages of the failed records of a step sequence, in order. *)
Definition failure_texts (srs : list StepResult) : list string :=
  flat_map (fun sr => match sr_status sr, sr_error sr with
                      | failed, Some text => [text]
                      | _, _ => []
                      end) srs.

(** A record is well formed when it is a success without an error text or
    a failure with one. *)
Definition well_formed (sr : StepResult) : Prop :=
  match sr_status sr with
  | success => sr_error sr = None
  | failed => sr_error sr <> None
  end.

(** From frame [f] to frame [f'] the steps numbered [ks] were recorded, in
    this order, one record each, and the error list grew by the messages of
    the failed ones. *)
Definition recorded (ks : list nat) (f f' : SagaFrame) : Prop :=
  exists srs,
    steps f' = steps f ++ srs /\
    map sr_step srs = ks /\
    errors f' = errors f ++ failure_texts srs /\
    Forall well_formed srs.





Definition reply_errors (r : Reply) : list string :=
  match r with
  | Rep (R_pick_place rep) =>
      match sg_errors rep with Some l => l | None => [] end
  | Rep (R_pick_place_failed _ _ errs) => errs
  | _ => []
  end.

Definition position_call (rh : option Z) : Call :=
  c_robot_getvariable rh "@CURRENT_POSITION" "".

(** The calls of a successful read of the position variable through
    variable handle [vh]. *)
Definition position_read (rh : option Z) (vh : Z) : list Call :=
  [position_call rh; c_variable_getvalue vh; c_variable_release vh].

(** Reading the final pose: the variable, then its first six values. *)
Definition read_final_position (cl : Client) : M Value :=
  bind (read_variable cl "@CURRENT_POSITION" "") slice6.

(** Every call on the controller succeeds. *)
Definition always_succeeds (cl : Client) : Prop :=
  (forall h c, exists r, reply_handle cl h c = inr r) /\
  (forall h c, exists v, reply_value cl h c = inr v).

(** The calls of steps 1 to 10 when none fails: [pz] is the pick height,
    [s] the height of one lift, [py] the place ordinate, [dz] the place
    descent. *)
Definition saga_calls (rh ch : option Z) (speed x y z rx ry rz pz s py dz
                                          : float) : list Call :=
  let z4 := (pz + s)%float in
  let z5 := (z4 + s)%float in
  let z6 := (z5 + s)%float in
  [ hand_call ch 30 speed;
    take_arm_call rh; pose_move rh [x; y; pz; rx; ry; rz];
    hand_call ch 21 speed;
    take_arm_call rh; pose_move rh [x; y; z4; rx; ry; rz];
    take_arm_call rh; pose_move rh [x; y; z5; rx; ry; rz];
    take_arm_call rh; pose_move rh [x; y; z6; rx; ry; rz];
    take_arm_call rh; pose_move rh [x; py; z6; rx; ry; rz];
    take_arm_call rh; pose_move rh [x; py; (z6 - dz)%float; rx; ry; rz];
    hand_call ch 30 speed;
    take_arm_call rh; pose_move rh [x; y; z; rx; ry; rz] ].


(** A controller that refuses the arm the first time it is asked for. *)
Definition arm_denied_once : Client :=
  {| reply_handle := fun _ _ => inr 1%Z;
     reply_value := fun history c =>
       match c with
       | c_robot_execute _ command _ =>
           if (command =? "TakeArm")
              && negb (existsb (fun c' => match c' with
                                          | c_robot_execute _ _ _ => true
                                          | _ => false
                                          end) history)
           then inl (ORiNException 3 "arm denied")
           else inr VNone
       | c_variable_getvalue _ => inr (VList (map VFloat example_pose))
       | _ => inr VNone
       end |}.

(** ** The advertised tools *)

(** Whether the argument bag has an entry under [key]. *)
Definition has_key (key : string) (args : Args) : bool :=
  if key =? "host" then is_some (arg_host args)
  else if key =? "port" then is_some (arg_port args)
  else if key =? "timeout" then is_some (arg_timeout args)
  else if key =? "name" then is_some (arg_name args)
  else if key =? "provider" then is_some (arg_provider args)
  else if key =? "machine" then is_some (arg_machine args)
  else if key =? "option" then is_some (arg_option args)
  else if key =? "joint_angles" then is_some (arg_joint_angles args)
  else if key =? "pose" then is_some (arg_pose args)
  else if key =? "axis" then is_some (arg_axis args)
  else if key =? "speed" then is_some (arg_speed args)
  else if key =? "trajectory" then is_some (arg_trajectory args)
  else if key =? "dist" then is_some (arg_dist args)
  else if key =? "pick_down_distance" then
    is_some (arg_pick_down_distance args)
  else if key =? "lift_up_distance" then is_some (arg_lift_up_distance args)
  else if key =? "place_y_offset" then is_some (arg_place_y_offset args)
  else if key =? "place_down_distance" then
    is_some (arg_place_down_distance args)
  else if key =? "gripper_speed" then is_some (arg_gripper_speed args)
  else if key =? "limit" then is_some (arg_limit args)
  else false.

(** The default a tool advertises for [key], if any. *)
Definition default_of (key : string) (t : Tool) : option Value :=
  match find (fun p => fst p =? key) (tool_properties t) with
  | Some (_, d) => d
  | None => None
  end.

Definition as_text (v : option Value) : option string :=
  match v with
  | Some (VStr s) => Some s
  | _ => None
  end.

Definition as_integer (v : option Value) : option Z :=
  match v with
  | Some (VInt z) => Some z
  | _ => None
  end.

Definition as_number (v : option Value) : option float :=
  match v with
  | Some (VFloat f) => Some f
  | _ => None
  end.

(** The argument bag that holds exactly the defaults a tool advertises. *)
Definition advertised (t : Tool) : Args :=
  {| arg_host := as_text (default_of "host" t);
     arg_port := as_integer (default_of "port" t);
     arg_timeout := as_number (default_of "timeout" t);
     arg_name := as_text (default_of "name" t);
     arg_provider := as_text (default_of "provider" t);
     arg_machine := as_text (default_of "machine" t);
     arg_option := as_text (default_of "option" t);
     arg_joint_angles := None;
     arg_pose := None;
     arg_axis := as_integer (default_of "axis" t);
     arg_speed := as_number (default_of "speed" t);
     arg_trajectory := None;
     arg_dist := as_number (default_of "dist" t);
     arg_pick_down_distance :=
       as_number (default_of "pick_down_distance" t);
     arg_lift_up_distance := as_number (default_of "lift_up_distance" t);
     arg_place_y_offset := as_number (default_of "place_y_offset" t);
     arg_place_down_distance :=
       as_number (default_of "place_down_distance" t);
     arg_gripper_speed := as_number (default_of "gripper_speed" t);
     arg_limit := as_integer (default_of "limit" t) |}.

Definition or_default {A} (entry default : option A) : option A :=
  match entry with
  | Some v => Some v
  | None => default
  end.

(** [args] with every absent key filled in from [defaults]. *)
Definition fill (defaults args : Args) : Args :=
  {| arg_host := or_default (arg_host args) (arg_host defaults);
     arg_port := or_default (arg_port args) (arg_port defaults);
     arg_timeout := or_default (arg_timeout args) (arg_timeout defaults);
     arg_name := or_default (arg_name args) (arg_name defaults);
     arg_provider := or_default (arg_provider args) (arg_provider defaults);
     arg_machine := or_default (arg_machine args) (arg_machine defaults);
     arg_option := or_default (arg_option args) (arg_option defaults);
     arg_joint_angles :=
       or_default (arg_joint_angles args) (arg_joint_angles defaults);
     arg_pose := or_default (arg_pose args) (arg_pose defaults);
     arg_axis := or_default (arg_axis args) (arg_axis defaults);
     arg_speed := or_default (arg_speed args) (arg_speed defaults);
     arg_trajectory :=
       or_default (arg_trajectory args) (arg_trajectory defaults);
     arg_dist := or_default (arg_dist args) (arg_dist defaults);
     arg_pick_down_distance :=
       or_default (arg_pick_down_distance args)
                  (arg_pick_down_distance defaults);
     arg_lift_up_distance :=
       or_default (arg_lift_up_distance args)
                  (arg_lift_up_distance defaults);
     arg_place_y_offset :=
       or_default (arg_place_y_offset args) (arg_place_y_offset defaults);
     arg_place_down_distance :=
       or_default (arg_place_down_distance args)
                  (arg_place_down_distance defaults);
     arg_gripper_speed :=
       or_default (arg_gripper_speed args) (arg_gripper_speed defaults);
     arg_limit := or_default (arg_limit args) (arg_limit defaults) |}.

(** Two log entries that differ at most in the logged parameters. *)
Definition same_entry_but_params (e1 e2 : LogEntry) : Prop :=
  le_operation e1 = le_operation e2 /\
  le_result e1 = le_result e2 /\
  le_error e1 = le_error e2.

(** Two worlds that differ at most in the parameters their log entries
    carry. *)
Definition same_but_params (w1 w2 : World) : Prop :=
  calls w1 = calls w2 /\
  same_session w1 w2 /\
  Forall2 same_entry_but_params (operation_log (state w1))
          (operation_log (state w2)).

(** The two gripper tools. *)
Definition gripper_tool (name : string) : bool :=
  (name =? "bcap_robot_open_gripper")
  || (name =? "bcap_robot_close_gripper").

(** The world once an entry was appended to the operation log. *)
Definition logged (operation : string) (params : Args)
           (result : option Result) (error : option string) (w : World)
  : World :=
  {| state :=
       {| client := client (state w);
          controller_handle := controller_handle (state w);
          robot_handle := robot_handle (state w);
          connection_info := connection_info (state w);
          operation_log :=
            operation_log (state w) ++
            [{| le_operation := operation; le_params := params;
                le_result := result; le_error := error |}] |};
     calls := calls w |}.

(** ** The session's metadata *)

(** The metadata a client was built from. *)
Definition info_of (c : BCAPClient) : ConnInfo :=
  {| ci_host := bc_host c; ci_port := bc_port c;
     ci_timeout := bc_timeout c |}.

(** The metadata describe the client: there is none without a client, and
    with one they are its host, port and timeout. *)
Definition described (s : ServerState) : Prop :=
  connection_info s = option_map info_of (client s).

Definition described_kept (w w' : World) : Prop :=
  described (state w) -> described (state w').

(** The four tools that manage the connection. *)
Definition connection_tools : list string :=
  [ "bcap_connect"; "bcap_disconnect"; "bcap_controller_connect";
    "bcap_robot_connect" ].


(** The client and the metadata are the same. *)
Definition same_client (w w' : World) : Prop :=
  client (state w') = client (state w) /\
  connection_info (state w') = connection_info (state w).

(** A controller that hands out the handle [0]. *)
Definition handle_zero : Client :=
  {| reply_handle := fun _ _ => inr 0%Z;
     reply_value := fun _ _ => inr VNone |}.

(** The session after a connect request on the obliging controller. *)
Definition online_world : World :=
  snd (call_tool obliging example_codes no_speed example_unbound
                 "bcap_connect" (args_host "192.168.0.1") init_world).

(** ** What a request sends *)

(** From store [s], [m] sends only calls that satisfy [P]. *)
Definition emits {S} `{View S} (P : Call -> bool) {A} (m : Eff S A)
  : Prop :=
  forall s, exists issued,
    calls (world_of (snd (m s))) = calls (world_of s) ++ issued /\
    forallb P issued = true.

(** The commands that make the arm move: a move, the return to the home
    position, a streamed point. *)
Definition is_motion (c : Call) : bool :=
  match c with
  | c_robot_move _ _ _ _ _ _ => true
  | c_robot_gohome _ => true
  | c_robot_execute _ command _ => command =? "slvMove"
  | _ => false
  end.

Definition no_motion (c : Call) : bool := negb (is_motion c).

(** The calls that neither move the arm or the gripper nor change who
    holds the arm or the mode it is in: everything but [robot_move],
    [robot_gohome], [robot_execute] and the [HandMoveA] command. *)
Definition passive (c : Call) : bool :=
  match c with
  | c_robot_move _ _ _ _ _ _ => false
  | c_robot_gohome _ => false
  | c_robot_execute _ _ _ => false
  | c_controller_execute _ command _ => negb (command =? "HandMoveA")
  | _ => true
  end.

(** The tools that command the arm or the gripper. *)
Definition motion_tools : list string :=
  [ "bcap_robot_move_to_joint_angles"; "bcap_robot_move_to_pose";
    "bcap_robot_gohome"; "bcap_robot_execute_trajectory";
    "bcap_robot_execute_slave_trajectory"; "bcap_robot_open_gripper";
    "bcap_robot_close_gripper"; "bcap_robot_pick_and_place" ].

Definition is_inr {A B} (r : A + B) : bool :=
  match r with
  | inr _ => true
  | inl _ => false
  end.

(** [c] is a [TakeArm] command that the controller, having seen the calls
    [pre], grants. *)
Definition grants (cl : Client) (pre : list Call) (c : Call) : bool :=
  match c with
  | c_robot_execute _ command _ =>
      (command =? "TakeArm") && is_inr (reply_value cl pre c)
  | _ => false
  end.

(** Run through the calls [issued] after the calls [pre]: [took] tells
    whether the arm was granted so far; the result is [None] when a motion
    command was sent before any grant. *)
Fixpoint arm (cl : Client) (pre : list Call) (took : bool)
         (issued : list Call) : option bool :=
  match issued with
  | [] => Some took
  | c :: rest =>
      if is_motion c then
        if took then arm cl (pre ++ [c]) took rest else None
      else arm cl (pre ++ [c]) (took || grants cl pre c) rest
  end.

(** Started with the arm granted when [b] holds, [m] sends no motion
    command before a grant, and when it returns normally the arm was
    granted if [b'] holds. *)
Definition keeps_arm {S} `{View S} (cl : Client) (b b' : bool) {A}
           (m : Eff S A) : Prop :=
  forall s took,
    (b = true -> took = true) ->
    exists issued t,
      calls (world_of (snd (m s))) = calls (world_of s) ++ issued /\
      arm cl (calls (world_of s)) took issued = Some t /\
      (took = true -> t = true) /\
      (is_inr (fst (m s)) = true -> b' = true -> t = true).

(** Two outcomes of a handler that agree up to the logged parameters. *)
Definition agree_but_params {A} (x y : (Exn + A) * World) : Prop :=
  fst x = fst y /\ same_but_params (snd x) (snd y).

Definition args_name (name : string) : Args :=
  Build_Args None None None (Some name) None None None None None None
             None None None None None None None None None.

(** ** What the log records *)

(** From store [s], [m] either returns a result, having appended the entry
    that records this result under [name] with the parameters [args], or
    raises, having appended nothing. *)
Definition reports {S} `{View S} (name : string) (args : Args)
           (m : Eff S Reply) : Prop :=
  forall s,
    match m s with
    | (inr r, s') =>
        exists res,
          r = Rep res /\
          operation_log (state (world_of s')) =
            operation_log (state (world_of s)) ++
            [{| le_operation := name; le_params := args;
                le_result := Some res; le_error := None |}]
    | (inl _, s') =>
        operation_log (state (world_of s')) =
          operation_log (state (world_of s))
    end.

(** The entry that records reply [r] to a request: the result of a
    success, the error text of a failure. *)
Definition entry_of (name : string) (args : Args) (r : Reply)
  : option LogEntry :=
  match r with
  | Rep res =>
      Some {| le_operation := name; le_params := args;
              le_result := Some res; le_error := None |}
  | Rep_error text _ =>
      Some {| le_operation := name; le_params := args;
              le_result := None; le_error := Some text |}
  | _ => None
  end.

(** The requests whose handler files an entry whenever it is run: all
    but the status query, the log read and the single joint move (a
    disconnect files one when there is a client). *)
Definition unlogged_tools : list string :=
  [ "bcap_get_connection_status"; "bcap_get_operation_log";
    "bcap_robot_move_to_joint_angles" ].

Section Serving.

Variable cl : Client.
Variable HResult : HResultCodes.
Variable parse_speed : string -> option float.
Variable unbound_message : string -> string.

(** A sequence of requests, served one after the other. *)
Fixpoint serve_all (requests : list (string * Args)) (w : World) : World :=
  match requests with
  | [] => w
  | (name, args) :: rest =>
      serve_all rest
                (snd (call_tool cl HResult parse_speed unbound_message
                                name args w))
  end.

End Serving.

(** ** The single joint move *)

(** The session is the same, log included. *)
Definition same_state (w w' : World) : Prop := state w' = state w.

(** The calls that give a robot or a controller handle back. *)
Definition is_release (c : Call) : bool :=
  match c with
  | c_robot_release _ => true
  | c_controller_disconnect _ => true
  | _ => false
  end.

(** A controller that rejects every move. *)
Definition rejects_moves (cl : Client) : Prop :=
  forall pre h comp target kind ext option,
  exists e,
    reply_value cl pre (c_robot_move h comp target kind ext option) = inl e.

(** A controller that rejects every move and accepts everything else. *)
Definition move_rejected : Client :=
  {| reply_handle := fun _ _ => inr 1%Z;
     reply_value := fun _ c =>
       match c with
       | c_robot_move _ _ _ _ _ _ => inl (Exception "move rejected")
       | c_variable_getvalue _ => inr (VList (map VFloat example_pose))
       | _ => inr VNone
       end |}.

(** ** Pick and place: the initial pose *)



(** The saga's locals after steps 1 to 6 on a pose captured at height
    300: heights are known, the place ordinate is not assigned yet. *)
Definition lifted_frame : SagaFrame :=
  {| steps := []; errors := []; pick_z := Some 260%float;
     current_z := Some 350%float; place_y := None; place_z := None |}.

(** ** The tools that pass one call on *)

(** The tools whose handler, once its handle is there, passes one call on
    to the protocol client and answers with what came back. *)
Definition forwarding_tools : list string :=
  [ "bcap_controller_get_robot_names"; "bcap_controller_get_variable_names";
    "bcap_controller_clear_error"; "bcap_robot_get_variable_names";
    "bcap_robot_set_speed" ].

(** The call such a tool sends from session [s]. *)
Definition forwarded (name : string) (args : Args) (s : ServerState)
  : Call :=
  if name =? "bcap_controller_get_robot_names" then
    c_controller_getrobotnames (controller_handle s)
                               (dict_get (arg_option args) "")
  else if name =? "bcap_controller_get_variable_names" then
    c_controller_getvariablenames (controller_handle s)
                                  (dict_get (arg_option args) "")
  else if name =? "bcap_controller_clear_error" then
    c_controller_execute (controller_handle s) "ClearError" VNone
  else if name =? "bcap_robot_get_variable_names" then
    c_robot_getvariablenames (robot_handle s)
                             (dict_get (arg_option args) "")
  else
    c_robot_speed (robot_handle s) (dict_get (arg_axis args) 0%Z)
                  (dict_get (arg_speed args) 50%float).

(** The result it builds from the value [v] that came back; the speed
    tool drops the value. *)
Definition forwarded_result (name : string) (args : Args) (v : Value)
  : Result :=
  if name =? "bcap_controller_get_robot_names" then R_robot_names v
  else if name =? "bcap_controller_get_variable_names" then
    R_variable_names v
  else if name =? "bcap_controller_clear_error" then R_clear_error v
  else if name =? "bcap_robot_get_variable_names" then R_variable_names v
  else R_speed (dict_get (arg_axis args) 0%Z)
               (dict_get (arg_speed args) 50%float).

(** The two [except] clauses of [call_tool]: the reply to exception
    [e]. *)
Definition error_reply (HResult : HResultCodes) (e : Exn) : Reply :=
  match e with
  | ORiNException hresult _ =>
      Rep_error ("ORiN error (HResult=" ++ string_of_Z hresult ++ "): "
                 ++ get_error_description HResult hresult)
                (Some hresult)
  | _ => Rep_error ("Error: " ++ str e) None
  end.

(** A controller that answers every query with the [ORiNException] of
    code 3. *)
Definition access_denied : Client :=
  {| reply_handle := fun _ _ => inr 1%Z;
     reply_value := fun _ _ => inl (ORiNException 3 "access denied") |}.

Definition args_pose (pose : list float) : Args :=
  Build_Args None None None None None None None None (Some pose) None
             None None None None None None None None None.
(** ** Closure of [stable] under the monad's operations *)

#[export] Instance same_session_rel : WorldRel same_session.
Proof.
  split.
  - intro w. repeat split.
  - intros a b c (H1 & H2 & H3 & H4) (K1 & K2 & K3 & K4).
    repeat split; congruence.
  - intros w c. repeat split.
Qed.

#[export] Instance same_log_rel : WorldRel same_log.
Proof.
  split.
  - intro w. reflexivity.
  - intros a b c H1 H2. unfold same_log in *. congruence.
  - intros w c. reflexivity.
Qed.

Section Stable.

Context {R : World -> World -> Prop} {HR : WorldRel R}.
Context {S : Type} `{View S}.

Lemma stable_ret A (a : A) : stable R (ret (S := S) a).
Proof. intro s. apply rel_refl. Qed.

Lemma stable_raise A e : stable R (raise (S := S) (A := A) e).
Proof. intro s. apply rel_refl. Qed.

Lemma stable_bind A B (m : Eff S A) (k : A -> Eff S B) :
  stable R m -> (forall a, stable R (k a)) -> stable R (bind m k).
Proof.
  intros Hm Hk s. unfold bind.
  specialize (Hm s). destruct (m s) as [[e | a] s']; simpl in *.
  - exact Hm.
  - eapply rel_trans; [exact Hm | apply Hk].
Qed.

Lemma stable_try_except A (m : Eff S A) h :
  stable R m -> (forall e, stable R (h e)) -> stable R (try_except m h).
Proof.
  intros Hm Hh s. unfold try_except.
  specialize (Hm s). destruct (m s) as [[e | a] s']; simpl in *.
  - eapply rel_trans; [exact Hm | apply Hh].
  - exact Hm.
Qed.

Lemma stable_when b (m : Eff S unit) : stable R m -> stable R (when b m).
Proof. destruct b; simpl; auto using stable_ret. Qed.

Lemma stable_subscript A key (entry : option A) :
  stable R (subscript (S := S) key entry).
Proof. destruct entry; simpl; auto using stable_ret, stable_raise. Qed.

End Stable.

Section StableWorld.

Context {R : World -> World -> Prop} {HR : WorldRel R}.

Lemma stable_get_state : stable R get_state.
Proof. intro w. apply rel_refl. Qed.

Lemma stable_invoke cl c : stable R (invoke cl c).
Proof. intro w. apply rel_call. Qed.

Lemma stable_invoke_handle cl c : stable R (invoke_handle cl c).
Proof. intro w. apply rel_call. Qed.

Lemma stable_lift F A (m : M A) : stable R m -> stable R (lift (F := F) m).
Proof.
  intros Hm [f w]. unfold lift. simpl.
  specialize (Hm w). destruct (m w) as [r w']. exact Hm.
Qed.

Lemma stable_get_frame F : stable R (get_frame (F := F)).
Proof. intros [f w]. apply rel_refl. Qed.

Lemma stable_set_frame F (f : F) : stable R (set_frame f).
Proof. intros [f0 w]. apply rel_refl. Qed.

Lemma stable_modify_frame F (g : F -> F) : stable R (modify_frame g).
Proof. intros [f0 w]. apply rel_refl. Qed.

Lemma stable_with_frame F A (f0 : F) (m : Fr F A) :
  stable R m -> stable R (with_frame f0 m).
Proof.
  intros Hm w. unfold with_frame.
  specialize (Hm (f0, w)). destruct (m (f0, w)) as [r fw]. exact Hm.
Qed.

Lemma stable_on_client A (m : M A) : stable R m -> stable R (on_client m).
Proof.
  intro Hm. unfold on_client.
  apply stable_bind; [apply stable_get_state | intro s].
  destruct (client s); [exact Hm | apply stable_raise].
Qed.

End StableWorld.

(** One step of a stability proof: peel the outermost monad operation. *)
Ltac stable_step :=
  lazymatch goal with
  | |- stable _ (bind _ _) => apply stable_bind; [ | intro ]
  | |- stable _ (try_except _ _) => apply stable_try_except; [ | intro ]
  | |- stable _ (ret _) => apply stable_ret
  | |- stable _ (raise _) => apply stable_raise
  | |- stable _ (when _ _) => apply stable_when
  | |- stable _ (subscript _ _) => apply stable_subscript
  | |- stable _ get_state => apply stable_get_state
  | |- stable _ (invoke _ _) => apply stable_invoke
  | |- stable _ (invoke_handle _ _) => apply stable_invoke_handle
  | |- stable _ (lift _) => apply stable_lift
  | |- stable _ (on_client _) => apply stable_on_client
  | |- stable _ get_frame => apply stable_get_frame
  | |- stable _ (set_frame _) => apply stable_set_frame
  | |- stable _ (modify_frame _) => apply stable_modify_frame
  | |- stable _ (with_frame _ _) => apply stable_with_frame
  | |- stable _ (if ?b then _ else _) => destruct b
  | |- stable _ (match ?x with _ => _ end) => destruct x
  | |- stable _ _ => solve [eauto with stable typeclass_instances]
  end.

Ltac stable_tac := cbv zeta; repeat (stable_step; cbv zeta).

(** ** The helper operations keep every such relation *)

Section StableOps.

Context {R : World -> World -> Prop} {HR : WorldRel R}.
Variable cl : Client.
Variable unbound_message : string -> string.

Lemma stable_need_controller : stable R need_controller.
Proof. unfold need_controller. stable_tac. Qed.

Lemma stable_need_robot : stable R need_robot.
Proof. unfold need_robot. stable_tac. Qed.

Lemma stable_joint_move_body parse_speed joint_angles option :
  stable R (joint_move_body cl parse_speed joint_angles option).
Proof. unfold joint_move_body. stable_tac. Qed.

Lemma stable_read_variable name option :
  stable R (read_variable cl name option).
Proof. unfold read_variable. stable_tac. Qed.

Lemma stable_take_arm : stable R (take_arm cl).
Proof. unfold take_arm. stable_tac. Qed.

Lemma stable_give_arm : stable R (give_arm cl).
Proof. unfold give_arm. stable_tac. Qed.

Lemma stable_give_arm_if_held : stable R (give_arm_if_held cl).
Proof. unfold give_arm_if_held. stable_tac. Qed.

Lemma stable_robot_move target kind option :
  stable R (robot_move cl target kind option).
Proof. unfold robot_move. stable_tac. Qed.

Lemma stable_hand_move d sp : stable R (hand_move cl d sp).
Proof. unfold hand_move. stable_tac. Qed.

Lemma stable_slv_change_mode mode : stable R (slv_change_mode cl mode).
Proof. unfold slv_change_mode. stable_tac. Qed.

Lemma stable_slv_move point : stable R (slv_move cl point).
Proof. unfold slv_move. stable_tac. Qed.

Lemma stable_validate_points trajectory :
  forall i, stable R (validate_points i trajectory).
Proof.
  induction trajectory as [| point rest IH]; intro i; simpl.
  - stable_tac.
  - destruct (negb (List.length point =? 6)%nat); [stable_tac | apply IH].
Qed.

Lemma stable_capture_initial_angles as_list :
  stable R (capture_initial_angles cl as_list).
Proof. unfold capture_initial_angles. stable_tac. Qed.

#[local] Hint Resolve stable_need_controller stable_need_robot
  stable_read_variable stable_take_arm stable_give_arm
  stable_give_arm_if_held stable_robot_move stable_hand_move
  stable_slv_change_mode stable_slv_move stable_validate_points
  stable_capture_initial_angles : stable.

Lemma stable_push_executed i a : stable R (push_executed i a).
Proof. unfold push_executed. stable_tac. Qed.

Lemma stable_push_failed i a e : stable R (push_failed i a e).
Proof. unfold push_failed. stable_tac. Qed.

#[local] Hint Resolve stable_push_executed stable_push_failed : stable.

Lemma stable_run_points move_option trajectory :
  forall i, stable R (run_points cl move_option i trajectory).
Proof.
  induction trajectory as [| p rest IH]; intro i; simpl.
  - stable_tac.
  - stable_tac.
Qed.

Lemma stable_stream_points rest :
  forall i, stable R (stream_points cl i rest).
Proof.
  induction rest as [| p rest IH]; intro i; simpl.
  - stable_tac.
  - stable_tac.
Qed.

#[local] Hint Resolve stable_run_points stable_stream_points : stable.

Lemma stable_slave_body trajectory : stable R (slave_body cl trajectory).
Proof. unfold slave_body. stable_tac. Qed.

Lemma stable_slave_cleanup : stable R (slave_cleanup cl).
Proof. unfold slave_cleanup. stable_tac. Qed.

Lemma stable_push_step sr : stable R (push_step sr).
Proof. unfold push_step. stable_tac. Qed.

Lemma stable_push_error e : stable R (push_error e).
Proof. unfold push_error. stable_tac. Qed.

Lemma stable_set_pick_z v : stable R (set_pick_z v).
Proof. unfold set_pick_z. stable_tac. Qed.

Lemma stable_set_current_z v : stable R (set_current_z v).
Proof. unfold set_current_z. stable_tac. Qed.

Lemma stable_set_place_y v : stable R (set_place_y v).
Proof. unfold set_place_y. stable_tac. Qed.

Lemma stable_set_place_z v : stable R (set_place_z v).
Proof. unfold set_place_z. stable_tac. Qed.

Lemma stable_read_local name get :
  stable R (read_local unbound_message name get).
Proof. unfold read_local. stable_tac. Qed.

#[local] Hint Resolve stable_slave_body stable_slave_cleanup
  stable_push_step stable_push_error stable_set_pick_z
  stable_set_current_z stable_set_place_y stable_set_place_z
  stable_read_local : stable.

Lemma stable_record_failure step action note e :
  stable R (record_failure step action note e).
Proof. unfold record_failure. stable_tac. Qed.
#[local] Hint Resolve stable_record_failure : stable.

Lemma stable_gripper_step step action d sp :
  stable R (gripper_step cl step action d sp).
Proof. unfold gripper_step. stable_tac. Qed.

Lemma stable_move_down_to_pick x y z rx ry rz pd :
  stable R (move_down_to_pick cl unbound_message x y z rx ry rz pd).
Proof. unfold move_down_to_pick. stable_tac. Qed.

Lemma stable_lift_up x y rx ry rz s i :
  stable R (lift_up cl unbound_message x y rx ry rz s i).
Proof. unfold lift_up. stable_tac. Qed.
#[local] Hint Resolve stable_lift_up : stable.

Lemma stable_lift_up_in_three x y rx ry rz l :
  stable R (lift_up_in_three cl unbound_message x y rx ry rz l).
Proof. unfold lift_up_in_three. stable_tac. Qed.

Lemma stable_move_y_to_place x y rx ry rz py :
  stable R (move_y_to_place cl unbound_message x y rx ry rz py).
Proof. unfold move_y_to_place. stable_tac. Qed.

Lemma stable_move_down_to_place x rx ry rz pd :
  stable R (move_down_to_place cl unbound_message x rx ry rz pd).
Proof. unfold move_down_to_place. stable_tac. Qed.

Lemma stable_return_to_initial_position x y z rx ry rz :
  stable R (return_to_initial_position cl x y z rx ry rz).
Proof. unfold return_to_initial_position. stable_tac. Qed.

#[local] Hint Resolve stable_gripper_step stable_move_down_to_pick
  stable_lift_up_in_three stable_move_y_to_place
  stable_move_down_to_place stable_return_to_initial_position : stable.

Lemma stable_saga_steps x y z rx ry rz pd lu py pdn sp :
  stable R (saga_steps cl unbound_message x y z rx ry rz pd lu py pdn sp).
Proof. unfold saga_steps. stable_tac. Qed.
#[local] Hint Resolve stable_saga_steps : stable.

Lemma stable_slice6 S `{View S} v : stable R (slice6 (S := S) v).
Proof. unfold slice6. stable_tac. Qed.
#[local] Hint Resolve stable_slice6 : stable.

Lemma stable_saga_report initial :
  stable R (saga_report cl initial).
Proof. unfold saga_report. stable_tac. Qed.
#[local] Hint Resolve stable_saga_report : stable.

Lemma stable_saga_body pd lu py pdn sp :
  stable R (saga_body cl unbound_message pd lu py pdn sp).
Proof. unfold saga_body. stable_tac. Qed.

End StableOps.

#[export] Hint Resolve stable_joint_move_body stable_need_controller
  stable_need_robot stable_read_variable stable_take_arm stable_give_arm
  stable_give_arm_if_held stable_robot_move stable_hand_move
  stable_slv_change_mode stable_slv_move stable_validate_points
  stable_capture_initial_angles stable_push_executed stable_push_failed
  stable_run_points stable_stream_points stable_slave_body
  stable_slave_cleanup stable_push_step stable_push_error
  stable_record_failure stable_gripper_step stable_saga_steps
  stable_slice6 stable_saga_body : stable.

(** ** Handlers that leave the session handles alone *)

Section SessionStable.

Variable cl : Client.
Variable HResult : HResultCodes.
Variable parse_speed : string -> option float.
Variable unbound_message : string -> string.

Lemma session_log_operation operation params result error :
  stable same_session (log_operation operation params result error).
Proof. intro w. repeat split. Qed.
#[local] Hint Resolve session_log_operation : stable.

Lemma session_get_connection_status args :
  stable same_session (handle_get_connection_status args).
Proof. unfold handle_get_connection_status. stable_tac. Qed.

Lemma session_get_robot_names args :
  stable same_session (handle_controller_get_robot_names cl args).
Proof. unfold handle_controller_get_robot_names. stable_tac. Qed.

Lemma session_get_variable_names args :
  stable same_session (handle_controller_get_variable_names cl args).
Proof. unfold handle_controller_get_variable_names. stable_tac. Qed.

Lemma session_clear_error args :
  stable same_session (handle_controller_clear_error cl args).
Proof. unfold handle_controller_clear_error. stable_tac. Qed.

Lemma session_get_variable args :
  stable same_session (handle_robot_get_variable cl args).
Proof. unfold handle_robot_get_variable. stable_tac. Qed.

Lemma session_robot_variable_names args :
  stable same_session (handle_robot_get_variable_names cl args).
Proof. unfold handle_robot_get_variable_names. stable_tac. Qed.

Lemma session_move_to_joint_angles args :
  stable same_session
         (handle_robot_move_to_joint_angles cl parse_speed args).
Proof. unfold handle_robot_move_to_joint_angles. stable_tac. Qed.

Lemma session_move_to_pose args :
  stable same_session (handle_robot_move_to_pose cl args).
Proof. unfold handle_robot_move_to_pose. stable_tac. Qed.

Lemma session_gohome args :
  stable same_session (handle_robot_gohome cl args).
Proof. unfold handle_robot_gohome. stable_tac. Qed.

Lemma session_set_speed args :
  stable same_session (handle_robot_set_speed cl args).
Proof. unfold handle_robot_set_speed. stable_tac. Qed.

Lemma session_execute_trajectory args :
  stable same_session (handle_robot_execute_trajectory cl args).
Proof. unfold handle_robot_execute_trajectory. stable_tac. Qed.

Lemma session_execute_slave_trajectory args :
  stable same_session (handle_robot_execute_slave_trajectory cl args).
Proof. unfold handle_robot_execute_slave_trajectory. stable_tac. Qed.

Lemma session_open_gripper args :
  stable same_session (handle_robot_open_gripper cl args).
Proof. unfold handle_robot_open_gripper. stable_tac. Qed.

Lemma session_close_gripper args :
  stable same_session (handle_robot_close_gripper cl args).
Proof. unfold handle_robot_close_gripper. stable_tac. Qed.

Lemma session_pick_and_place args :
  stable same_session
         (handle_robot_pick_and_place cl unbound_message args).
Proof. unfold handle_robot_pick_and_place. stable_tac. Qed.

Lemma session_get_operation_log args :
  stable same_session (handle_get_operation_log args).
Proof. unfold handle_get_operation_log. stable_tac. Qed.

End SessionStable.

(** ** Reset *)

Section Reset.

Variable cl : Client.

(** Either reset runs to its end, having issued every release it owes, or
    a release raised: then the session is as it was and the releases
    issued are a non-empty prefix of those owed. *)
Lemma reset_cases w :
  reset cl w = (inr tt, {| state := cleared (state w);
                           calls := calls w ++ releases (state w) |})
  \/ exists e issued rest,
       issued <> [] /\ releases (state w) = issued ++ rest /\
       reset cl w = (inl e, {| state := state w;
                               calls := calls w ++ issued |}).
Proof.
  destruct w as [s h]. destruct s as [c ch rh ci lg].
  unfold reset, releases, bind, when, get_state, set_state, invoke, ret.
  simpl. destruct c as [c |]; simpl.
  2: { left. rewrite app_nil_r. reflexivity. }
  destruct (truthy rh) eqn:Hrh; simpl.
  - destruct (reply_value cl h (c_robot_release rh)) as [e | v] eqn:Hrel.
    + right. exists e, [c_robot_release rh].
      eexists. split; [discriminate |]. split; reflexivity.
    + destruct (truthy ch) eqn:Hch; simpl.
      * destruct (reply_value cl (h ++ [c_robot_release rh])
                              (c_controller_disconnect ch))
          as [e | v'] eqn:Hdis.
        -- right.
           exists e, [c_robot_release rh; c_controller_disconnect ch], [].
           split; [discriminate |]. split; [reflexivity |].
           rewrite <- app_assoc. reflexivity.
        -- left. rewrite <- app_assoc. reflexivity.
      * left. reflexivity.
  - destruct (truthy ch) eqn:Hch; simpl.
    + destruct (reply_value cl h (c_controller_disconnect ch))
        as [e | v'] eqn:Hdis.
      * right. exists e, [c_controller_disconnect ch], [].
        split; [discriminate |]. split; reflexivity.
      * left. reflexivity.
    + left. rewrite app_nil_r. reflexivity.
Qed.

Lemma chain_cleared s : chain (cleared s).
Proof. split; simpl; intro H; exfalso; apply H; reflexivity. Qed.

Lemma reset_keeps_chain w :
  chain (state w) -> chain (state (snd (reset cl w))).
Proof.
  intro Hc. destruct (reset_cases w) as [E | (e & issued & rest & _ & _ & E)];
    rewrite E; simpl; [apply chain_cleared | exact Hc].
Qed.

Lemma reset_keeps_log : stable same_log (reset cl).
Proof.
  intro w. unfold same_log, world_of, view_world.
  destruct (reset_cases w) as [E | (e & issued & rest & _ & _ & E)];
    rewrite E; reflexivity.
Qed.

(** A session without a client is reset without a call and without a
    change; so is a session that a reset has just cleared. *)
Lemma reset_idle w :
  client (state w) = None ->
  controller_handle (state w) = None ->
  robot_handle (state w) = None ->
  connection_info (state w) = None ->
  reset cl w = (inr tt, w).
Proof.
  destruct w as [s h]. destruct s as [c ch rh ci lg]. simpl.
  intros -> -> -> ->. unfold reset, bind, get_state, set_state, ret.
  reflexivity.
Qed.

Lemma reset_twice w w1 :
  reset cl w = (inr tt, w1) -> reset cl w1 = (inr tt, w1).
Proof.
  intro E. destruct (reset_cases w) as [E' | (e & i & r & _ & _ & E')];
    rewrite E' in E; inversion E; subst.
  apply reset_idle; reflexivity.
Qed.

End Reset.

(** ** The connection chain is an invariant *)

#[export] Instance chain_kept_rel : WorldRel chain_kept.
Proof.
  split; unfold chain_kept.
  - auto.
  - auto.
  - intros w c H. exact H.
Qed.


Section Chain.

Variable cl : Client.
Variable HResult : HResultCodes.
Variable parse_speed : string -> option float.
Variable unbound_message : string -> string.

Lemma chain_log_operation operation params result error :
  stable chain_kept (log_operation operation params result error).
Proof. intros w H. exact H. Qed.

Lemma chain_reset : stable chain_kept (reset cl).
Proof. intros w H. apply reset_keeps_chain. exact H. Qed.

Lemma chain_set_client c info : stable chain_kept (set_client c info).
Proof.
  intros w [Ha Hb]. split; simpl; [exact Ha | discriminate].
Qed.

#[local] Hint Resolve chain_log_operation chain_reset chain_set_client
  : stable.






#[local] Abbreviation route := (dispatch cl parse_speed unbound_message).
#[local] Abbreviation serve :=
  (call_tool cl HResult parse_speed unbound_message).




End Chain.

(** ** One log entry per request *)

Section AppendsOne.

Context {S : Type} `{View S}.

Lemma appends_one_raise A name e :
  appends_one name (raise (S := S) (A := A) e).
Proof. intro s. reflexivity. Qed.

Lemma appends_one_bind A B name (m : Eff S A) (k : A -> Eff S B) :
  stable same_log m -> (forall a, appends_one name (k a)) ->
  appends_one name (bind m k).
Proof.
  intros Hm Hk s. unfold logged_once, bind.
  specialize (Hm s). unfold same_log in Hm.
  destruct (m s) as [[e | a] s1]; simpl in *.
  - exact Hm.
  - specialize (Hk a s1). unfold logged_once in Hk.
    destruct (k a s1) as [[e | b] s2]; rewrite <- Hm; exact Hk.
Qed.

End AppendsOne.

Lemma appends_one_log A name params result (x : A) :
  appends_one name (bind (log_operation name params result None)
                         (fun _ => ret x)).
Proof. intro w. unfold logged_once. simpl. eexists. split; reflexivity. Qed.

Lemma appends_one_lift_log F A name params result (x : A) :
  appends_one name (bind (lift (F := F)
                               (log_operation name params result None))
                         (fun _ => ret x)).
Proof.
  intros [f w]. unfold logged_once. simpl. eexists. split; reflexivity.
Qed.

Lemma appends_one_with_frame F A name (f0 : F) (m : Fr F A) :
  appends_one name m -> appends_one name (with_frame f0 m).
Proof.
  intros Hm w. specialize (Hm (f0, w)).
  unfold logged_once, with_frame in *.
  destruct (m (f0, w)) as [[e | a] fw]; exact Hm.
Qed.

Ltac logs_step :=
  lazymatch goal with
  | |- appends_one _ (bind (log_operation _ _ _ _) _) =>
      apply appends_one_log
  | |- appends_one _ (bind (lift (log_operation _ _ _ _)) _) =>
      apply appends_one_lift_log
  | |- appends_one _ (bind _ _) =>
      apply appends_one_bind; [ solve [stable_tac] | intro ]
  | |- appends_one _ (raise _) => apply appends_one_raise
  | |- appends_one _ (with_frame _ _) => apply appends_one_with_frame
  | |- appends_one _ (if ?b then _ else _) => destruct b
  | |- appends_one _ (match ?x with _ => _ end) => destruct x
  end.

Ltac logs_tac := cbv zeta; repeat (logs_step; cbv zeta).

Section Logging.

Variable cl : Client.
Variable HResult : HResultCodes.
Variable parse_speed : string -> option float.
Variable unbound_message : string -> string.

Lemma log_set_client c info : stable same_log (set_client c info).
Proof. intro w. reflexivity. Qed.

Lemma log_set_controller_handle h :
  stable same_log (set_controller_handle h).
Proof. intro w. reflexivity. Qed.

Lemma log_set_robot_handle h : stable same_log (set_robot_handle h).
Proof. intro w. reflexivity. Qed.

#[local] Hint Resolve log_set_client log_set_controller_handle
  log_set_robot_handle reset_keeps_log : stable.

Lemma logs_connect args :
  appends_one "bcap_connect" (handle_connect cl args).
Proof. unfold handle_connect. logs_tac. Qed.

Lemma logs_controller_connect args :
  appends_one "bcap_controller_connect"
              (handle_controller_connect cl args).
Proof. unfold handle_controller_connect. logs_tac. Qed.

Lemma logs_get_robot_names args :
  appends_one "bcap_controller_get_robot_names"
              (handle_controller_get_robot_names cl args).
Proof. unfold handle_controller_get_robot_names. logs_tac. Qed.

Lemma logs_get_variable_names args :
  appends_one "bcap_controller_get_variable_names"
              (handle_controller_get_variable_names cl args).
Proof. unfold handle_controller_get_variable_names. logs_tac. Qed.

Lemma logs_clear_error args :
  appends_one "bcap_controller_clear_error"
              (handle_controller_clear_error cl args).
Proof. unfold handle_controller_clear_error. logs_tac. Qed.

Lemma logs_robot_connect args :
  appends_one "bcap_robot_connect" (handle_robot_connect cl args).
Proof. unfold handle_robot_connect. logs_tac. Qed.

Lemma logs_get_variable args :
  appends_one "bcap_robot_get_variable"
              (handle_robot_get_variable cl args).
Proof. unfold handle_robot_get_variable. logs_tac. Qed.

Lemma logs_robot_variable_names args :
  appends_one "bcap_robot_get_variable_names"
              (handle_robot_get_variable_names cl args).
Proof. unfold handle_robot_get_variable_names. logs_tac. Qed.

Lemma logs_move_to_pose args :
  appends_one "bcap_robot_move_to_pose"
              (handle_robot_move_to_pose cl args).
Proof. unfold handle_robot_move_to_pose. logs_tac. Qed.

Lemma logs_gohome args :
  appends_one "bcap_robot_gohome" (handle_robot_gohome cl args).
Proof. unfold handle_robot_gohome. logs_tac. Qed.

Lemma logs_set_speed args :
  appends_one "bcap_robot_set_speed" (handle_robot_set_speed cl args).
Proof. unfold handle_robot_set_speed. logs_tac. Qed.

Lemma logs_execute_trajectory args :
  appends_one "bcap_robot_execute_trajectory"
              (handle_robot_execute_trajectory cl args).
Proof. unfold handle_robot_execute_trajectory. logs_tac. Qed.

Lemma logs_execute_slave_trajectory args :
  appends_one "bcap_robot_execute_slave_trajectory"
              (handle_robot_execute_slave_trajectory cl args).
Proof. unfold handle_robot_execute_slave_trajectory. logs_tac. Qed.

Lemma logs_open_gripper args :
  appends_one "bcap_robot_open_gripper"
              (handle_robot_open_gripper cl args).
Proof. unfold handle_robot_open_gripper. logs_tac. Qed.

Lemma logs_close_gripper args :
  appends_one "bcap_robot_close_gripper"
              (handle_robot_close_gripper cl args).
Proof. unfold handle_robot_close_gripper. logs_tac. Qed.

Lemma logs_pick_and_place args :
  appends_one "bcap_robot_pick_and_place"
              (handle_robot_pick_and_place cl unbound_message args).
Proof. unfold handle_robot_pick_and_place. logs_tac. Qed.

(** Disconnect logs once when there is a client to disconnect. *)
Lemma logs_disconnect args w :
  client (state w) <> None ->
  logged_once "bcap_disconnect" (handle_disconnect cl args) w.
Proof.
  intro Hc. unfold logged_once, handle_disconnect, bind, get_state.
  destruct (client (state w)) eqn:E; [| contradiction]. simpl.
  destruct (reset_cases cl w) as [R | (e & i & r & _ & _ & R)];
    rewrite R; simpl.
  - eexists. split; reflexivity.
  - reflexivity.
Qed.

(** The two pure reads leave the log as it is. *)
Lemma status_keeps_log args :
  stable same_log (handle_get_connection_status args).
Proof. unfold handle_get_connection_status. stable_tac. Qed.

Lemma log_read_keeps_log args :
  stable same_log (handle_get_operation_log args).
Proof. unfold handle_get_operation_log. stable_tac. Qed.

End Logging.

(** ** Requests by name *)

(** Split on the tests of a tool name, first test first; where a test
    holds the name becomes the literal and the other tests compute. *)
Ltac by_name name :=
  repeat lazymatch goal with
    | |- context [if String.eqb name ?s then _ else _] =>
        let E := fresh "E" in
        destruct (String.eqb name s) eqn:E;
        [ apply String.eqb_eq in E; subst name;
          cbv beta iota fix delta [String.eqb Ascii.eqb Bool.eqb]
        | ]
    end.

Section Tools.

Variable cl : Client.
Variable HResult : HResultCodes.
Variable parse_speed : string -> option float.
Variable unbound_message : string -> string.

#[local] Abbreviation route := (dispatch cl parse_speed unbound_message).
#[local] Abbreviation serve :=
  (call_tool cl HResult parse_speed unbound_message).

Lemma dispatch_logged name args w :
  name <> "bcap_get_connection_status" ->
  name <> "bcap_get_operation_log" ->
  name <> "bcap_robot_move_to_joint_angles" ->
  (name = "bcap_disconnect" -> client (state w) <> None) ->
  logged_once name (route name args) w.
Proof.
  intros Hstatus Hlog Hjoint Hdisc. unfold dispatch.
  by_name name; try congruence; try apply appends_one_raise.
  - apply logs_connect.
  - apply logs_disconnect. apply Hdisc. reflexivity.
  - apply logs_controller_connect.
  - apply logs_get_robot_names.
  - apply logs_get_variable_names.
  - apply logs_clear_error.
  - apply logs_robot_connect.
  - apply logs_get_variable.
  - apply logs_robot_variable_names.
  - apply logs_move_to_pose.
  - apply logs_gohome.
  - apply logs_set_speed.
  - apply logs_execute_trajectory.
  - apply logs_execute_slave_trajectory.
  - apply logs_open_gripper.
  - apply logs_close_gripper.
  - apply logs_pick_and_place.
Qed.

(** What [call_tool] does with the outcome of the dispatch. *)
Lemma call_tool_logged name args w :
  logged_once name (route name args) w ->
  exists e,
    operation_log (state (snd (serve name args w))) =
      operation_log (state w) ++ [e] /\
    le_operation e = name.
Proof.
  unfold logged_once, call_tool, world_of, view_world.
  destruct (route name args w) as [[e | r] w']; simpl.
  - intro Hl. destruct e; simpl; rewrite Hl; eexists; split; reflexivity.
  - intro Hl. exact Hl.
Qed.


End Tools.

(** ** Refused requests *)

#[export] Instance extends_rel : WorldRel extends.
Proof.
  split; unfold extends.
  - intro w. exists []. symmetry. apply app_nil_r.
  - intros a b c [i Hi] [j Hj]. exists (i ++ j).
    rewrite Hj, Hi. symmetry. apply app_assoc.
  - intros w c. exists [c]. reflexivity.
Qed.

Section Refusal.

Variable cl : Client.
Variable HResult : HResultCodes.
Variable parse_speed : string -> option float.
Variable unbound_message : string -> string.

#[local] Abbreviation serve :=
  (call_tool cl HResult parse_speed unbound_message).

Ltac refuse :=
  unfold need_controller, need_robot, bind, get_state, raise, ret;
  repeat match goal with
    | E : truthy _ = _ |- _ => rewrite E; clear E; simpl
    | E : is_some _ = _ |- _ => rewrite E; clear E; simpl
    end;
  reflexivity.

Lemma refuses name args w stage :
  find (missing (state w)) (required name) = Some stage ->
  serve name args w = refusal name args (precondition_text stage) w.
Proof.
  unfold call_tool, dispatch, required, refusal.
  by_name name; intro Hf; simpl in Hf; try discriminate;
    repeat match type of Hf with
      | context [if ?b then _ else _] =>
          let E := fresh "E" in destruct b eqn:E
      end;
    inversion Hf; try subst stage; clear Hf; simpl precondition_text;
    repeat match goal with
      | E : negb _ = true |- _ => apply negb_true_iff in E
      | E : negb _ = false |- _ => apply negb_false_iff in E
      end.
  - unfold handle_controller_connect. refuse.
  - unfold handle_controller_get_robot_names. refuse.
  - unfold handle_controller_get_variable_names. refuse.
  - unfold handle_controller_clear_error. refuse.
  - unfold handle_robot_connect. refuse.
  - unfold handle_robot_get_variable. refuse.
  - unfold handle_robot_get_variable_names. refuse.
  - unfold handle_robot_move_to_pose. refuse.
  - unfold handle_robot_gohome. refuse.
  - unfold handle_robot_set_speed. refuse.
  - unfold handle_robot_execute_trajectory. refuse.
  - unfold handle_robot_execute_slave_trajectory. refuse.
  - unfold handle_robot_open_gripper. refuse.
  - unfold handle_robot_close_gripper. refuse.
  - unfold handle_robot_pick_and_place. refuse.
  - unfold handle_robot_pick_and_place. refuse.
Qed.

End Refusal.

(** ** Running the monad *)

Lemma bind_run {S A B} (m : Eff S A) (k : A -> Eff S B) s a s1 :
  m s = (inr a, s1) -> bind m k s = k a s1.
Proof. intro E. unfold bind. rewrite E. reflexivity. Qed.

Lemma bind_raise {S A B} (m : Eff S A) (k : A -> Eff S B) s e s1 :
  m s = (inl e, s1) -> bind m k s = (inl e, s1).
Proof. intro E. unfold bind. rewrite E. reflexivity. Qed.

Lemma try_run {S A} (m : Eff S A) h s a s1 :
  m s = (inr a, s1) -> try_except m h s = (inr a, s1).
Proof. intro E. unfold try_except. rewrite E. reflexivity. Qed.

Lemma try_caught {S A} (m : Eff S A) h s e s1 :
  m s = (inl e, s1) -> try_except m h s = h e s1.
Proof. intro E. unfold try_except. rewrite E. reflexivity. Qed.

Lemma lift_run {F A} (m : M A) (f : F) w r w1 :
  m w = (r, w1) -> lift m (f, w) = (r, (f, w1)).
Proof. intro E. unfold lift. simpl. rewrite E. reflexivity. Qed.

Section Calls.

Variable cl : Client.

(** A call made through the session's client, when there is one. *)
Lemma client_call_run c w :
  client (state w) <> None ->
  on_client (invoke cl c) w = (reply_value cl (calls w) c, sent w c).
Proof.
  intro Hc. unfold on_client, bind, get_state.
  destruct (client (state w)); [reflexivity | contradiction].
Qed.

Lemma dropped_call_run c w :
  client (state w) <> None ->
  bind (on_client (invoke cl c)) (fun _ => ret tt) w =
    (dropped (reply_value cl (calls w) c), sent w c).
Proof.
  intro Hc. unfold bind. rewrite client_call_run by exact Hc.
  destruct (reply_value cl (calls w) c); reflexivity.
Qed.

Lemma robot_move_run target kind option w :
  client (state w) <> None ->
  robot_move cl target kind option w =
    (dropped (reply_value cl (calls w)
                (c_robot_move (robot_handle (state w)) 1 target kind "@E"
                              option)),
     sent w (c_robot_move (robot_handle (state w)) 1 target kind "@E"
                          option)).
Proof. intro Hc. unfold robot_move. apply dropped_call_run. exact Hc. Qed.

Lemma take_arm_run w :
  client (state w) <> None ->
  take_arm cl w =
    (dropped (reply_value cl (calls w)
                          (take_arm_call (robot_handle (state w)))),
     sent w (take_arm_call (robot_handle (state w)))).
Proof. intro Hc. unfold take_arm. apply dropped_call_run. exact Hc. Qed.

Lemma give_arm_run w :
  client (state w) <> None ->
  give_arm cl w =
    (dropped (reply_value cl (calls w)
                          (give_arm_call (robot_handle (state w)))),
     sent w (give_arm_call (robot_handle (state w)))).
Proof. intro Hc. unfold give_arm. apply dropped_call_run. exact Hc. Qed.

Lemma slv_change_mode_run mode w :
  client (state w) <> None ->
  slv_change_mode cl mode w =
    (dropped (reply_value cl (calls w)
                          (slv_mode_call (robot_handle (state w)) mode)),
     sent w (slv_mode_call (robot_handle (state w)) mode)).
Proof.
  intro Hc. unfold slv_change_mode. apply dropped_call_run. exact Hc.
Qed.

Lemma slv_move_run point w :
  client (state w) <> None ->
  slv_move cl point w =
    (dropped (reply_value cl (calls w)
                          (slv_move_call (robot_handle (state w)) point)),
     sent w (slv_move_call (robot_handle (state w)) point)).
Proof. intro Hc. unfold slv_move. apply dropped_call_run. exact Hc. Qed.

Lemma hand_move_run d sp w :
  client (state w) <> None ->
  hand_move cl d sp w =
    (dropped (reply_value cl (calls w)
                (c_controller_execute (controller_handle (state w))
                   "HandMoveA" (VList [VFloat d; VFloat sp]))),
     sent w (c_controller_execute (controller_handle (state w))
               "HandMoveA" (VList [VFloat d; VFloat sp]))).
Proof. intro Hc. unfold hand_move. apply dropped_call_run. exact Hc. Qed.

(** Validation sends nothing: it passes on points of six components and
    raises on the first other point. *)
Lemma validate_points_ok trajectory :
  forall i w,
    forallb six trajectory = true ->
    validate_points i trajectory w = (inr tt, w).
Proof.
  induction trajectory as [| p rest IH]; intros i w Hv; simpl in *.
  - reflexivity.
  - apply andb_true_iff in Hv. destruct Hv as [Hp Hr].
    unfold six in Hp. rewrite Hp. simpl. apply IH. exact Hr.
Qed.

Lemma validate_points_bad trajectory :
  forall i w,
    forallb six trajectory = false ->
    exists e, validate_points i trajectory w = (inl e, w).
Proof.
  induction trajectory as [| p rest IH]; intros i w Hv; simpl in *.
  - discriminate.
  - unfold six in Hv at 1.
    destruct (List.length p =? 6)%nat; simpl in *.
    + apply IH. exact Hv.
    + eexists. reflexivity.
Qed.

(** The guarded read of the initial angles and the guarded [GiveArm] never
    raise. *)
Lemma capture_initial_angles_returns as_list w :
  exists v,
    capture_initial_angles cl as_list w =
      (inr v, snd (capture_initial_angles cl as_list w)).
Proof.
  unfold capture_initial_angles, try_except.
  match goal with
  | |- context [bind ?m ?k w] => destruct (bind m k w) as [[e | v] w1]
  end; simpl; eexists; reflexivity.
Qed.

Lemma give_arm_if_held_returns w :
  give_arm_if_held cl w = (inr tt, snd (give_arm_if_held cl w)).
Proof.
  unfold give_arm_if_held, try_except.
  match goal with
  | |- context [bind ?m ?k w] => destruct (bind m k w) as [[e | []] w1]
  end; reflexivity.
Qed.

End Calls.

(** ** The loop of the discrete executor *)

Section DiscreteLoop.

Variable cl : Client.
Variable move_option : string.

(** With a client in the session the loop never raises; it sends one move
    per point, in order, and files every point: under [failed_points] with
    the error text when its move raised, under [executed_points]
    otherwise. *)
Lemma run_points_spec trajectory :
  forall i f w,
    client (state w) <> None ->
    exists f',
      run_points cl move_option i trajectory (f, w) =
        (inr tt,
         (f', {| state := state w;
                 calls := calls w ++
                          map (move_call (robot_handle (state w))
                                         move_option) trajectory |}))
      /\ List.length (executed_points f') + List.length (failed_points f')
         = List.length (executed_points f) + List.length (failed_points f)
           + List.length trajectory
      /\ (forall x, In x (executed_points f) -> In x (executed_points f'))
      /\ (forall x, In x (failed_points f) -> In x (failed_points f'))
      /\ (forall k p,
             nth_error trajectory k = Some p ->
             match reply_value cl
                     (calls w ++
                      map (move_call (robot_handle (state w)) move_option)
                          (firstn k trajectory))
                     (move_call (robot_handle (state w)) move_option p)
             with
             | inl e =>
                 In {| fp_index := i + k + 1; fp_angles := p;
                       fp_error := str e |} (failed_points f')
             | inr _ =>
                 In {| ep_index := i + k + 1; ep_angles := p |}
                    (executed_points f')
             end).
Proof.
  induction trajectory as [| p rest IH]; intros i f w Hc.
  - exists f. simpl. rewrite app_nil_r. destruct w as [s h]. simpl.
    split; [reflexivity |]. split; [lia |].
    split; [auto |]. split; [auto |].
    intros k q Hk. destruct k; discriminate.
  - set (rh := robot_handle (state w)).
    set (c := move_call rh move_option p).
    assert (Hmove : robot_move cl p "J" move_option w =
                    (dropped (reply_value cl (calls w) c), sent w c))
      by (apply robot_move_run; exact Hc).
    destruct (reply_value cl (calls w) c) as [e | v] eqn:Hreply.
    + (* the move raised *)
      set (f1 := {| executed_points := executed_points f;
                    failed_points :=
                      failed_points f ++
                      [{| fp_index := i + 1; fp_angles := p;
                          fp_error := str e |}] |}).
      destruct (IH (S i) f1 (sent w c) Hc)
        as (f' & Hrun & Hlen & Hex & Hfl & Hpt).
      exists f'. split; [| split; [| split; [| split]]].
      * simpl run_points. unfold bind at 1.
        erewrite try_caught
          by (eapply bind_raise; eapply lift_run; exact Hmove).
        unfold push_failed, bind, get_frame, set_frame. simpl.
        fold f1. rewrite Hrun. simpl. rewrite <- app_assoc. reflexivity.
      * rewrite Hlen. unfold f1. simpl. rewrite length_app. simpl. lia.
      * intros x Hx. apply Hex. exact Hx.
      * intros x Hx. apply Hfl. unfold f1. simpl.
        apply in_or_app. left. exact Hx.
      * intros k q Hk. destruct k as [| k]; simpl in Hk.
        -- inversion Hk; subst q. simpl firstn. simpl map.
           rewrite app_nil_r. fold rh. fold c. rewrite Hreply.
           apply Hfl. unfold f1. simpl. apply in_or_app. right.
           replace (i + 0 + 1) with (i + 1) by lia. left. reflexivity.
        -- specialize (Hpt k q Hk). simpl in Hpt.
           simpl firstn. simpl map. fold rh. fold c.
           rewrite <- app_assoc in Hpt. simpl in Hpt.
           replace (i + S k + 1) with (S (i + k + 1)) by lia.
           exact Hpt.
    + (* the move went through *)
      set (f1 := {| executed_points :=
                      executed_points f ++
                      [{| ep_index := i + 1; ep_angles := p |}];
                    failed_points := failed_points f |}).
      destruct (IH (S i) f1 (sent w c) Hc)
        as (f' & Hrun & Hlen & Hex & Hfl & Hpt).
      exists f'. split; [| split; [| split; [| split]]].
      * simpl run_points. unfold bind at 1.
        erewrite try_run.
        2: { eapply eq_trans.
             - eapply bind_run. eapply lift_run. exact Hmove.
             - unfold push_executed, bind, get_frame, set_frame. simpl.
               fold f1. reflexivity. }
        rewrite Hrun. simpl. rewrite <- app_assoc. reflexivity.
      * rewrite Hlen. unfold f1. simpl. rewrite length_app. simpl. lia.
      * intros x Hx. apply Hex. unfold f1. simpl.
        apply in_or_app. left. exact Hx.
      * intros x Hx. apply Hfl. exact Hx.
      * intros k q Hk. destruct k as [| k]; simpl in Hk.
        -- inversion Hk; subst q. simpl firstn. simpl map.
           rewrite app_nil_r. fold rh. fold c. rewrite Hreply.
           apply Hex. unfold f1. simpl. apply in_or_app. right.
           replace (i + 0 + 1) with (i + 1) by lia. left. reflexivity.
        -- specialize (Hpt k q Hk). simpl in Hpt.
           simpl firstn. simpl map. fold rh. fold c.
           rewrite <- app_assoc in Hpt. simpl in Hpt.
           replace (i + S k + 1) with (S (i + k + 1)) by lia.
           exact Hpt.
Qed.

End DiscreteLoop.

(** ** Before the arm is taken *)

Lemma move_targets_app a b :
  move_targets (a ++ b) = move_targets a ++ move_targets b.
Proof. unfold move_targets. apply flat_map_app. Qed.

Lemma move_targets_moves rh move_option trajectory :
  move_targets (map (move_call rh move_option) trajectory) = trajectory.
Proof.
  induction trajectory as [| p rest IH]; simpl; [| rewrite IH]; reflexivity.
Qed.

Lemma failed_list_report trajectory v f :
  failed_list (trajectory_report trajectory v f) = failed_points f.
Proof.
  unfold failed_list, trajectory_report. simpl.
  destruct (failed_points f); reflexivity.
Qed.

Lemma report_success trajectory v f :
  tr_success (trajectory_report trajectory v f) = true <->
  failed_points f = [].
Proof.
  unfold trajectory_report. simpl.
  destruct (failed_points f); simpl; split; congruence.
Qed.

Section Prelude.

Variable cl : Client.

(** Reading the initial angles and giving up a stale arm ownership changes
    no handle and moves nothing. *)
Lemma capture_initial_angles_quiet as_list w :
  state (snd (capture_initial_angles cl as_list w)) = state w /\
  move_targets (calls (snd (capture_initial_angles cl as_list w))) =
    move_targets (calls w).
Proof.
  cbv beta iota delta [capture_initial_angles try_except bind on_client
                       get_state invoke_handle invoke raise ret].
  destruct (client (state w)) eqn:Hc; simpl; [| split; reflexivity].
  repeat first
    [ rewrite Hc; simpl
    | match goal with
      | |- context [reply_handle cl ?h ?c] =>
          destruct (reply_handle cl h c); simpl
      | |- context [reply_value cl ?h ?c] =>
          destruct (reply_value cl h c); simpl
      end ];
    rewrite ?move_targets_app, ?app_nil_r; split; reflexivity.
Qed.

Lemma give_arm_if_held_quiet w :
  state (snd (give_arm_if_held cl w)) = state w /\
  move_targets (calls (snd (give_arm_if_held cl w))) =
    move_targets (calls w).
Proof.
  cbv beta iota delta [give_arm_if_held try_except bind on_client
                       get_state invoke raise ret].
  destruct (client (state w)) eqn:Hc; simpl; [| split; reflexivity].
  repeat first
    [ rewrite Hc; simpl
    | match goal with
      | |- context [reply_value cl ?h ?c] =>
          destruct (reply_value cl h c); simpl
      end ];
    rewrite ?move_targets_app, ?app_nil_r; split; reflexivity.
Qed.

Lemma before_take_arm_quiet w :
  state (before_take_arm cl w) = state w /\
  move_targets (calls (before_take_arm cl w)) = move_targets (calls w).
Proof.
  unfold before_take_arm.
  destruct (give_arm_if_held_quiet
              (snd (capture_initial_angles cl (fun v => v) w)))
    as [Hs Hm].
  destruct (capture_initial_angles_quiet (fun v => v) w) as [Hs' Hm'].
  split; congruence.
Qed.

End Prelude.

(** ** The steps of the saga, one at a time *)

Section SagaSteps.

Variable cl : Client.
Variable unbound_message : string -> string.

(** Unfold a step down to the replies of the controller and split on
    them. *)
Ltac settle Hc Hz :=
  repeat (progress (simpl; rewrite ?Hc, ?Hz;
                    try match goal with
                        | H : place_y ?f = _ |- context [place_y ?f] =>
                            rewrite H
                        end)).

Ltac run_step Hc Hz :=
  cbv beta iota delta
      [gripper_step move_down_to_pick lift_up move_y_to_place
       move_down_to_place return_to_initial_position
       gripper_outcome move_outcome unplaced_outcome
       try_except bind lift modify_frame read_local get_frame ret raise
       take_arm robot_move hand_move on_client invoke get_state
       record_failure push_error push_step set_pick_z set_current_z
       set_place_y set_place_z sent take_arm_call pose_move hand_call
       add_failure fst snd];
  settle Hc Hz;
  repeat (match goal with
          | |- context [reply_value cl ?h ?c] =>
              destruct (reply_value cl h c)
          end; settle Hc Hz);
  reflexivity.

Lemma gripper_step_run step action d sp f w :
  client (state w) <> None ->
  gripper_step cl step action d sp (f, w) =
    (inr tt, gripper_outcome cl step action d sp f w).
Proof.
  intro Hn. destruct (client (state w)) eqn:Hc; [| contradiction].
  run_step Hc Hc.
Qed.

Lemma move_down_to_pick_run x y z rx ry rz pd f w :
  client (state w) <> None ->
  move_down_to_pick cl unbound_message x y z rx ry rz pd (f, w) =
    (inr tt,
     move_outcome cl 2 "move_down_to_pick" [x; y; (z - pd)%float; rx; ry; rz]
       (step_moved 2 "move_down_to_pick" (Some pd)
                   [x; y; (z - pd)%float; rx; ry; rz])
       f (assign_pick_z (z - pd)%float f) w).
Proof.
  intro Hn. destruct (client (state w)) eqn:Hc; [| contradiction].
  run_step Hc Hc.
Qed.

Lemma lift_up_run x y rx ry rz s i cz f w :
  client (state w) <> None ->
  current_z f = Some cz ->
  lift_up cl unbound_message x y rx ry rz s i (f, w) =
    (inr tt,
     move_outcome cl (4 + i) ("lift_up_" ++ string_of_nat (i + 1))
       [x; y; (cz + s)%float; rx; ry; rz]
       (step_moved (4 + i) ("lift_up_" ++ string_of_nat (i + 1)) (Some s)
                   [x; y; (cz + s)%float; rx; ry; rz])
       f (assign_current_z (cz + s)%float f) w).
Proof.
  intros Hn Hz. destruct (client (state w)) eqn:Hc; [| contradiction].
  run_step Hc Hz.
Qed.

Lemma move_y_to_place_run x y rx ry rz py cz f w :
  client (state w) <> None ->
  current_z f = Some cz ->
  move_y_to_place cl unbound_message x y rx ry rz py (f, w) =
    (inr tt,
     move_outcome cl 7 "move_y_to_place" [x; (y + py)%float; cz; rx; ry; rz]
       (step_moved 7 "move_y_to_place" (Some py)
                   [x; (y + py)%float; cz; rx; ry; rz])
       f (assign_place_y (y + py)%float f) w).
Proof.
  intros Hn Hz. destruct (client (state w)) eqn:Hc; [| contradiction].
  run_step Hc Hz.
Qed.

Lemma move_down_to_place_run x rx ry rz pdn cz f w :
  client (state w) <> None ->
  current_z f = Some cz ->
  move_down_to_place cl unbound_message x rx ry rz pdn (f, w) =
    (inr tt,
     match place_y f with
     | Some pyv =>
         move_outcome cl 8 "move_down_to_place"
           [x; pyv; (cz - pdn)%float; rx; ry; rz]
           (step_moved 8 "move_down_to_place" (Some pdn)
                       [x; pyv; (cz - pdn)%float; rx; ry; rz])
           f (assign_place_z (cz - pdn)%float f) w
     | None =>
         unplaced_outcome cl unbound_message f
                          (assign_place_z (cz - pdn)%float f) w
     end).
Proof.
  intros Hn Hz. destruct (client (state w)) eqn:Hc; [| contradiction].
  destruct (place_y f) eqn:Hy; run_step Hc Hz.
Qed.

Lemma return_to_initial_position_run x y z rx ry rz f w :
  client (state w) <> None ->
  return_to_initial_position cl x y z rx ry rz (f, w) =
    (inr tt,
     move_outcome cl 10 "return_to_initial_position" [x; y; z; rx; ry; rz]
       (step_moved 10 "return_to_initial_position" None
                   [x; y; z; rx; ry; rz])
       f f w).
Proof.
  intro Hn. destruct (client (state w)) eqn:Hc; [| contradiction].
  run_step Hc Hc.
Qed.

End SagaSteps.

(** ** What a step records *)

Lemma recorded_none f : recorded [] f f.
Proof.
  exists []. rewrite !app_nil_r. repeat split. constructor.
Qed.








Section Outcomes.

Variable cl : Client.
Variable unbound_message : string -> string.




End Outcomes.

(** ** Stretches of the saga *)

Section Records.

Variable cl : Client.
Variable unbound_message : string -> string.
Variables x y z rx ry rz : float.




Lemma lift_up_in_three_run lift_up_mm pz f w :
  pick_z f = Some pz ->
  lift_up_in_three cl unbound_message x y rx ry rz lift_up_mm (f, w) =
    (lift_up cl unbound_message x y rx ry rz (lift_up_mm / 3)%float 0 ;;
     lift_up cl unbound_message x y rx ry rz (lift_up_mm / 3)%float 1 ;;
     lift_up cl unbound_message x y rx ry rz (lift_up_mm / 3)%float 2)
      (assign_current_z pz f, w).
Proof.
  intro Hz. unfold lift_up_in_three. cbv zeta.
  unfold bind at 1. unfold read_local at 1. unfold bind at 1.
  unfold get_frame at 1. simpl. rewrite Hz.
  unfold ret at 1. unfold bind at 1. unfold set_current_z, modify_frame.
  reflexivity.
Qed.







End Records.

(** ** The saga from capture to report *)

Section SagaRun.

Variable cl : Client.
Variable unbound_message : string -> string.

Lemma need_controller_run w :
  truthy (controller_handle (state w)) = true ->
  need_controller w = (inr tt, w).
Proof.
  intro H. unfold need_controller, bind, get_state. rewrite H. reflexivity.
Qed.

Lemma need_robot_run w :
  truthy (robot_handle (state w)) = true -> need_robot w = (inr tt, w).
Proof.
  intro H. unfold need_robot, bind, get_state. rewrite H. reflexivity.
Qed.

Lemma read_position_run w vh v v0 :
  client (state w) <> None ->
  reply_handle cl (calls w) (position_call (robot_handle (state w))) =
    inr vh ->
  reply_value cl (calls w ++ [position_call (robot_handle (state w))])
              (c_variable_getvalue vh) = inr v ->
  reply_value cl
              (calls w ++ [position_call (robot_handle (state w));
                           c_variable_getvalue vh])
              (c_variable_release vh) = inr v0 ->
  read_variable cl "@CURRENT_POSITION" "" w =
    (inr v,
     {| state := state w;
        calls := calls w ++ position_read (robot_handle (state w)) vh |}).
Proof.
  intros Hn Hvh Hv Hrel.
  destruct (client (state w)) eqn:Hc; [| contradiction].
  unfold position_call in *.
  cbv beta iota delta [read_variable bind on_client get_state invoke_handle
                       invoke ret].
  repeat (progress (simpl;
                    rewrite ?Hc, ?Hvh, ?Hv, <- ?app_assoc; simpl;
                    rewrite ?Hrel)).
  reflexivity.
Qed.


(** Reading a variable moves nothing. *)
Lemma read_variable_quiet name option w :
  state (snd (read_variable cl name option w)) = state w /\
  move_targets (calls (snd (read_variable cl name option w))) =
    move_targets (calls w).
Proof.
  cbv beta iota delta [read_variable bind on_client get_state invoke_handle
                       invoke raise ret].
  destruct (client (state w)) eqn:Hc; simpl; [| split; reflexivity].
  repeat first
    [ rewrite Hc; simpl
    | match goal with
      | |- context [reply_handle cl ?h ?c] =>
          destruct (reply_handle cl h c); simpl
      | |- context [reply_value cl ?h ?c] =>
          destruct (reply_value cl h c); simpl
      end ];
    rewrite ?move_targets_app, ?app_nil_r; split; reflexivity.
Qed.

(** The report stage: either the final pose is read and the report carries
    the frame's records, or the read raised and the frame is as it was. *)
Lemma saga_report_cases initial f w :
  (exists rep,
      saga_report cl initial (f, w) =
        (inr (R_pick_place rep),
         (f, snd (read_variable cl "@CURRENT_POSITION" "" w))) /\
      sg_steps rep = steps f /\
      reply_errors (Rep (R_pick_place rep)) = errors f /\
      (sg_success rep = true <-> errors f = []) /\
      sg_initial_position rep = initial)
  \/ (exists e,
         saga_report cl initial (f, w) =
           (inl e, (f, snd (read_variable cl "@CURRENT_POSITION" "" w))) /\
         read_final_position cl w =
           (inl e, snd (read_variable cl "@CURRENT_POSITION" "" w))).
Proof.
  unfold saga_report, read_final_position.
  destruct (read_variable cl "@CURRENT_POSITION" "" w) as [[e | v] w'] eqn:E;
    simpl snd.
  - right. exists e. split.
    + apply bind_raise. apply lift_run. exact E.
    + apply bind_raise. exact E.
  - erewrite bind_run by (apply lift_run; exact E).
    erewrite (bind_run (read_variable cl "@CURRENT_POSITION" "")) by exact E.
    destruct v as [| n | fl | s | l];
      try (right; eexists; split; reflexivity).
    + left. eexists. split; [reflexivity |]. simpl.
      split; [reflexivity |]. split; [destruct (errors f); reflexivity |].
      split; [| reflexivity].
      destruct (errors f); simpl; split; congruence.
    + left. eexists. split; [reflexivity |]. simpl.
      split; [reflexivity |]. split; [destruct (errors f); reflexivity |].
      split; [| reflexivity].
      destruct (errors f); simpl; split; congruence.
Qed.

End SagaRun.

(** ** The saga when nothing fails *)

Lemma state_sent w c : state (sent w c) = state w.
Proof. reflexivity. Qed.

Lemma fold_sent cs :
  forall w,
    fold_left sent cs w = {| state := state w; calls := calls w ++ cs |}.
Proof.
  induction cs as [| c cs IH]; intro w; simpl.
  - rewrite app_nil_r. destruct w; reflexivity.
  - rewrite IH. unfold sent. simpl. rewrite <- app_assoc. reflexivity.
Qed.

Section SagaSucceeds.

Variable cl : Client.
Variable unbound_message : string -> string.
Hypothesis Hv : forall h c, exists v, reply_value cl h c = inr v.

Lemma gripper_outcome_succeeds step action d sp f w :
  gripper_outcome cl step action d sp f w =
    (add_step (step_gripped step action d sp) f,
     sent w (hand_call (controller_handle (state w)) d sp)).
Proof.
  unfold gripper_outcome. cbv zeta.
  destruct (Hv (calls w) (hand_call (controller_handle (state w)) d sp))
    as [v E].
  rewrite E. reflexivity.
Qed.

Lemma move_outcome_succeeds step action target sr f fa w :
  move_outcome cl step action target sr f fa w =
    (add_step sr fa,
     sent (sent w (take_arm_call (robot_handle (state w))))
          (pose_move (robot_handle (state w)) target)).
Proof.
  unfold move_outcome. cbv zeta.
  destruct (Hv (calls w) (take_arm_call (robot_handle (state w))))
    as [v E].
  rewrite E.
  destruct (Hv (calls (sent w (take_arm_call (robot_handle (state w)))))
               (pose_move (robot_handle (state w)) target)) as [v' E'].
  rewrite E'. reflexivity.
Qed.

Ltac gripper_ok Hc :=
  rewrite gripper_step_run by exact Hc;
  rewrite gripper_outcome_succeeds; reflexivity.

(** Steps 1 to 10 send [saga_calls] and nothing else. *)
Lemma saga_steps_succeed x y z rx ry rz pd lu py pdn sp f w :
  client (state w) <> None ->
  exists f',
    saga_steps cl unbound_message x y z rx ry rz pd lu py pdn sp (f, w) =
      (inr tt,
       (f', fold_left sent
                      (saga_calls (robot_handle (state w))
                                  (controller_handle (state w)) sp
                                  x y z rx ry rz (z - pd)%float
                                  (lu / 3)%float (y + py)%float pdn)
                      w)).
Proof.
  intro Hc. eexists. unfold saga_steps.
  erewrite bind_run by gripper_ok Hc.
  erewrite bind_run
    by (rewrite move_down_to_pick_run by exact Hc;
        rewrite move_outcome_succeeds; reflexivity).
  rewrite ?state_sent.
  erewrite bind_run by gripper_ok Hc.
  rewrite ?state_sent.
  erewrite bind_run.
  2: { erewrite lift_up_in_three_run by reflexivity.
       erewrite bind_run
         by (erewrite lift_up_run by (exact Hc || reflexivity);
             rewrite move_outcome_succeeds; reflexivity).
       rewrite ?state_sent.
       erewrite bind_run
         by (erewrite lift_up_run by (exact Hc || reflexivity);
             rewrite move_outcome_succeeds; reflexivity).
       rewrite ?state_sent.
       erewrite lift_up_run by (exact Hc || reflexivity).
       rewrite move_outcome_succeeds. rewrite ?state_sent. reflexivity. }
  erewrite bind_run
    by (erewrite move_y_to_place_run by (exact Hc || reflexivity);
        rewrite move_outcome_succeeds; reflexivity).
  rewrite ?state_sent.
  erewrite bind_run
    by (erewrite move_down_to_place_run by (exact Hc || reflexivity);
        simpl place_y; cbv iota;
        rewrite move_outcome_succeeds; reflexivity).
  rewrite ?state_sent.
  erewrite bind_run by gripper_ok Hc.
  rewrite ?state_sent.
  rewrite return_to_initial_position_run by exact Hc.
  rewrite move_outcome_succeeds. rewrite ?state_sent.
  reflexivity.
Qed.

End SagaSucceeds.

(** * The claims *)

Section Claims.

Variable cl : Client.
Variable HResult : HResultCodes.
Variable parse_speed : string -> option float.
Variable unbound_message : string -> string.



(** C10.  Disconnect on a session without a client returns the failure
    envelope with error "Not connected", raises nothing, and leaves the
    whole world (session fields, operation log, call trace) as it was. *)
Theorem disconnect_without_client args w :
  client (state w) = None ->
  handle_disconnect cl args w = (inr (Rep_error "Not connected" None), w)
  /\ call_tool cl HResult parse_speed unbound_message
       "bcap_disconnect" args w = (Rep_error "Not connected" None, w)
  /\ reply_success (fst (call_tool cl HResult parse_speed unbound_message
      "bcap_disconnect" args w)) = Some false.
Proof.
  intro Hc.
  assert (Hh : handle_disconnect cl args w =
               (inr (Rep_error "Not connected" None), w)).
  { unfold handle_disconnect, bind, get_state, ret. rewrite Hc.
    reflexivity. }
  assert (Hs : call_tool cl HResult parse_speed unbound_message
      "bcap_disconnect" args w =
               (Rep_error "Not connected" None, w)).
  { unfold call_tool.
    change (dispatch cl parse_speed unbound_message
        "bcap_disconnect" args) with (handle_disconnect cl args).
    rewrite Hh. reflexivity. }
  split; [exact Hh | split; [exact Hs |]].
  rewrite Hs. reflexivity.
Qed.


(** C6, as the code has it.  Every request that needs a connection stage
    checks it first: when a needed stage is missing the answer is the
    precondition error naming the first missing stage, the error is
    logged, and nothing is sent to the protocol client.  The single joint
    move is not among them: it checks no stage and opens a client of its
    own, with the session's connection parameters or the defaults. *)
Theorem preconditions_before_client_calls :
  (forall name args w stage,
      find (missing (state w)) (required name) = Some stage ->
      call_tool cl HResult parse_speed unbound_message name args w =
        refusal name args (precondition_text stage) w /\
      calls (snd (call_tool cl HResult parse_speed unbound_message
          name args w)) = calls w) /\
  (forall args w joint_angles,
      arg_joint_angles args = Some joint_angles ->
      exists issued,
        calls (snd (call_tool cl HResult parse_speed unbound_message
            "bcap_robot_move_to_joint_angles" args w)) =
          calls w ++
          c_BCAPClient
            (match connection_info (state w) with
             | Some i => ci_host i | None => "192.168.0.1" end)
            (match connection_info (state w) with
             | Some i => ci_port i | None => 5007%Z end)
            (match connection_info (state w) with
             | Some i => ci_timeout i | None => 3%float end)
          :: issued).
Proof.
  split.
  - intros name args w stage Hf.
    pose proof (refuses cl HResult parse_speed unbound_message
                        name args w stage Hf) as Hr.
    split; [exact Hr | rewrite Hr; reflexivity].
  - intros args w ja Ha. unfold call_tool.
    change (dispatch cl parse_speed unbound_message
        "bcap_robot_move_to_joint_angles" args)
      with (handle_robot_move_to_joint_angles cl parse_speed args).
    unfold handle_robot_move_to_joint_angles, bind, get_state, subscript,
      invoke at 1.
    rewrite Ha. simpl.
    destruct (reply_value cl (calls w) _) as [e | v].
    + exists []. destruct e; reflexivity.
    + match goal with
      | |- context [try_except ?m ?h ?w1] =>
          assert (Hs : stable extends (try_except m h)) by stable_tac;
          specialize (Hs w1); destruct (try_except m h w1) as [[e | r] w2]
      end;
        destruct Hs as [issued Hi]; unfold world_of, view_world in Hi;
        simpl in Hi; exists issued.
      * destruct e; simpl; rewrite Hi, <- app_assoc; reflexivity.
      * simpl. rewrite Hi, <- app_assoc. reflexivity.
Qed.

End Claims.



(** C10 at the initial session. *)
Lemma disconnect_without_client_witness :
  client (state init_world) = None /\
  call_tool obliging example_codes no_speed example_unbound
    "bcap_disconnect" no_args init_world =
    (Rep_error "Not connected" None, init_world).
Proof.
  split; [reflexivity |].
  apply (disconnect_without_client obliging example_codes no_speed
                                   example_unbound no_args init_world).
  reflexivity.
Defined.



(** C6 is false of the single joint move: on a session that was never
    connected it is not refused; it opens a client at the default address
    and moves the arm. *)
Lemma joint_move_checks_no_stage :
  missing (state init_world) Network = true /\
  missing (state init_world) Robot = true /\
  call_tool obliging example_codes no_speed example_unbound
    "bcap_robot_move_to_joint_angles" (args_joint_angles origin)
               init_world =
    (Rep_joint_move (VList (map VFloat example_pose)) origin,
     {| state := init_state;
        calls :=
          [ c_BCAPClient "192.168.0.1" 5007 3;
            c_controller_connect "" "CaoProv.DENSO.VRC" "localhost" "";
            c_controller_getrobot (Some 1%Z) "Arm" "";
            c_robot_getvariable (Some 1%Z) "@CURRENT_ANGLE" "";
            c_variable_getvalue 1;
            c_variable_release 1;
            c_robot_execute (Some 1%Z) "TakeArm" take_arm_param;
            c_robot_move (Some 1%Z) 1 origin "J" "@E" "";
            c_robot_release (Some 1%Z);
            c_controller_disconnect (Some 1%Z) ] |}).
Proof. repeat split. Qed.

(** C6, as the code has it, at a pose move on the initial session. *)
Lemma preconditions_before_client_calls_witness :
  call_tool obliging example_codes no_speed example_unbound
    "bcap_robot_move_to_pose" no_args init_world =
    refusal "bcap_robot_move_to_pose" no_args
            "Please call bcap_robot_connect first" init_world /\
  calls (snd (call_tool obliging example_codes no_speed example_unbound
      "bcap_robot_move_to_pose" no_args init_world)) =
    [].
Proof.
  apply (proj1 (preconditions_before_client_calls
                  obliging example_codes no_speed example_unbound)
               "bcap_robot_move_to_pose" no_args init_world Robot).
  reflexivity.
Defined.

(** ** Reading the operation log *)

(** For a positive limit the log read returns the last [min limit length]
    entries in insertion order and leaves the world as it was; without a
    limit it reads the last 50. *)
Lemma log_read_positive_limit args w :
  (0 < dict_get (arg_limit args) 50%Z)%Z ->
  handle_get_operation_log args w =
    (inr (Rep_log
            (List.length (operation_log (state w)))
            (Nat.min (Z.to_nat (dict_get (arg_limit args) 50%Z))
                     (List.length (operation_log (state w))))
            (last_entries (Z.to_nat (dict_get (arg_limit args) 50%Z))
                          (operation_log (state w)))),
     w).
Proof.
  intro Hpos. unfold handle_get_operation_log, bind, get_state, ret.
  set (limit := dict_get (arg_limit args) 50%Z) in *.
  set (l := operation_log (state w)).
  assert (Hs : slice_from (- limit) l = last_entries (Z.to_nat limit) l).
  { unfold slice_from, last_entries.
    destruct (Z.ltb_spec (- limit) 0) as [_ | Hge]; [| lia].
    f_equal. lia. }
  rewrite Hs. unfold last_entries. rewrite length_skipn.
  do 3 f_equal. lia.
Qed.

Lemma log_read_default_limit w :
  dict_get (arg_limit no_args) 50%Z = 50%Z /\
  fst (handle_get_operation_log no_args w) =
    inr (Rep_log (List.length (operation_log (state w)))
                 (Nat.min 50 (List.length (operation_log (state w))))
                 (last_entries 50 (operation_log (state w)))).
Proof.
  split; [reflexivity |].
  rewrite log_read_positive_limit; [reflexivity | reflexivity].
Qed.

(** C7 at the failing input.  On a log of three entries, limit 0 returns
    all three entries and limit -1 returns the last two; the claim asks for
    an empty sequence in both cases. *)
Theorem log_read_limit_zero_returns_whole_log :
  List.length (operation_log (state busy_world)) = 3 /\
  call_tool obliging example_codes no_speed example_unbound
            "bcap_get_operation_log" (args_limit 0) busy_world =
    (Rep_log 3 3 (operation_log (state busy_world)), busy_world) /\
  call_tool obliging example_codes no_speed example_unbound
            "bcap_get_operation_log" (args_limit (-1)) busy_world =
    (Rep_log 3 2 (tl (operation_log (state busy_world))), busy_world).
Proof. repeat split. Qed.

(** ** Reset *)

(** C8, the part the code keeps: a reset that runs to its end has released
    the robot handle, then the controller handle, and cleared the session;
    on a session without a client, and right after a completed reset, it
    sends nothing, changes nothing and raises nothing. *)
Lemma reset_completed_or_idle cl w w1 :
  (reset cl w = (inr tt, w1) ->
   state w1 = cleared (state w) /\
   calls w1 = calls w ++ releases (state w) /\
   reset cl w1 = (inr tt, w1)) /\
  reset cl init_world = (inr tt, init_world).
Proof.
  split; [| reflexivity].
  intro E. split; [| split].
  - destruct (reset_cases cl w) as [E' | (e & i & r & _ & _ & E')];
      rewrite E' in E; inversion E; reflexivity.
  - destruct (reset_cases cl w) as [E' | (e & i & r & _ & _ & E')];
      rewrite E' in E; inversion E; reflexivity.
  - eapply reset_twice. exact E.
Qed.

(** C8 at the failing input.  When the release of the robot handle raises,
    reset raises too: the controller handle is not released and the client,
    both handles and the metadata stay as they were; a disconnect request
    then answers with the error and the session is still connected. *)
Theorem reset_keeps_session_when_release_fails :
  reset release_fails connected_world =
    (inl (ORiNException 7 "release rejected"),
     {| state := connected_state;
        calls := [c_robot_release (Some 2%Z)] |}) /\
  state (snd (reset release_fails connected_world)) <>
    cleared connected_state /\
  reply_success
    (fst (call_tool release_fails example_codes no_speed example_unbound
                    "bcap_disconnect" no_args connected_world)) =
    Some false /\
  client
    (state (snd (call_tool release_fails example_codes no_speed
                           example_unbound "bcap_disconnect" no_args
                           connected_world))) =
    client connected_state.
Proof. repeat split. discriminate. Qed.

(** ** The discrete trajectory executor *)

Section Discrete.

Variable cl : Client.

(** C2, as the code has it.  A trajectory with a point that has not six
    components is refused before anything is sent.  Otherwise, on a
    connected robot: when the [TakeArm] command raises, the call fails and
    no move is issued; when it goes through, one move per point is issued,
    in the order of the trajectory, a point whose move raised is filed in
    the failed list with its index and error and the next point is still
    attempted, executed and failed counts add up to the total, and success
    is true exactly when the failed list is empty. *)
Theorem discrete_trajectory args trajectory w :
  arg_trajectory args = Some trajectory ->
  (forallb six trajectory = false ->
   exists e, handle_robot_execute_trajectory cl args w = (inl e, w)) /\
  (forallb six trajectory = true ->
   truthy (robot_handle (state w)) = true ->
   client (state w) <> None ->
   let w0 := before_take_arm cl w in
   let rh := robot_handle (state w) in
   let move := move_call rh (dict_get (arg_option args) "") in
   match reply_value cl (calls w0) (take_arm_call rh) with
   | inl e =>
       handle_robot_execute_trajectory cl args w =
         (inl e, sent w0 (take_arm_call rh)) /\
       move_targets (calls (sent w0 (take_arm_call rh))) =
         move_targets (calls w)
   | inr _ =>
       exists rep w',
         handle_robot_execute_trajectory cl args w =
           (inr (Rep (R_trajectory rep)), w') /\
         calls w' = calls w0 ++ take_arm_call rh :: map move trajectory /\
         move_targets (calls w') = move_targets (calls w) ++ trajectory /\
         tr_total_points rep = List.length trajectory /\
         tr_executed_points rep + tr_failed_points rep =
           tr_total_points rep /\
         tr_executed_points rep = List.length (tr_executed_details rep) /\
         tr_failed_points rep = List.length (failed_list rep) /\
         (tr_success rep = true <-> failed_list rep = []) /\
         (forall k p,
             nth_error trajectory k = Some p ->
             match reply_value cl
                     (calls w0 ++
                      take_arm_call rh :: map move (firstn k trajectory))
                     (move p)
             with
             | inl e =>
                 In {| fp_index := k + 1; fp_angles := p;
                       fp_error := str e |} (failed_list rep)
             | inr _ =>
                 In {| ep_index := k + 1; ep_angles := p |}
                    (tr_executed_details rep)
             end)
   end).
Proof.
  intro Ht. split.
  - intro Hbad. unfold handle_robot_execute_trajectory, need_robot.
    unfold bind at 1. unfold bind at 1. unfold get_state.
    destruct (truthy (robot_handle (state w))); simpl;
      [| eexists; reflexivity].
    unfold bind at 1. rewrite Ht. simpl. unfold bind at 1.
    destruct (validate_points_bad trajectory 0 w Hbad) as [e He].
    rewrite He. eexists. reflexivity.
  - intros Hok Hrobot Hclient w0 rh move.
    destruct (before_take_arm_quiet cl w) as [Hstate Hquiet].
    fold w0 in Hstate, Hquiet.
    assert (Hc0 : client (state w0) <> None) by (rewrite Hstate; exact Hclient).
    assert (Hhead :
              handle_robot_execute_trajectory cl args w =
                bind (take_arm cl)
                  (fun _ =>
                     f <- with_frame no_points
                            (run_points cl (dict_get (arg_option args) "")
                                        0 trajectory ;; get_frame) ;;
                     let result :=
                       R_trajectory
                         (trajectory_report trajectory
                            (match fst (capture_initial_angles
                                          cl (fun v => v) w) with
                             | inr v => v
                             | inl _ => VNone
                             end) f) in
                     log_operation "bcap_robot_execute_trajectory" args
                                   (Some result) None ;;
                     ret (Rep result)) w0).
    { unfold handle_robot_execute_trajectory, need_robot.
      unfold bind at 1. unfold bind at 1. unfold get_state.
      rewrite Hrobot. simpl.
      unfold bind at 1. rewrite Ht. simpl. unfold bind at 1.
      rewrite (validate_points_ok trajectory 0 w Hok).
      unfold bind at 1.
      destruct (capture_initial_angles_returns cl (fun v => v) w)
        as [v Hv].
      rewrite Hv. simpl. unfold bind at 1.
      rewrite give_arm_if_held_returns. reflexivity. }
    rewrite Hhead. clear Hhead.
    pose proof (take_arm_run cl w0 Hc0) as Htake.
    rewrite Hstate in Htake. fold rh in Htake.
    destruct (reply_value cl (calls w0) (take_arm_call rh)) as [e | v].
    + split.
      * apply bind_raise. exact Htake.
      * unfold sent. simpl. rewrite move_targets_app, app_nil_r.
        exact Hquiet.
    + set (w1 := sent w0 (take_arm_call rh)) in *.
      assert (Hc1 : client (state w1) <> None) by exact Hc0.
      destruct (run_points_spec cl (dict_get (arg_option args) "")
                                trajectory 0 no_points w1 Hc1)
        as (f' & Hrun & Hlen & _ & _ & Hpt).
      assert (Hrh : robot_handle (state w1) = rh)
        by (unfold w1, rh; simpl; rewrite Hstate; reflexivity).
      rewrite Hrh in Hrun, Hpt. fold move in Hrun, Hpt.
      eexists. eexists. split; [| split; [| split; [| split; [| split;
        [| split; [| split; [| split]]]]]]].
      * erewrite bind_run by exact Htake.
        unfold bind at 1. unfold with_frame.
        erewrite bind_run by exact Hrun.
        unfold get_frame. simpl. reflexivity.
      * simpl. unfold w1, sent. simpl. rewrite <- app_assoc. reflexivity.
      * simpl. unfold w1, sent. simpl.
        rewrite !move_targets_app. unfold move.
        rewrite move_targets_moves, Hquiet. simpl.
        rewrite app_nil_r. reflexivity.
      * reflexivity.
      * simpl. simpl in Hlen. lia.
      * reflexivity.
      * rewrite failed_list_report. reflexivity.
      * rewrite failed_list_report. apply report_success.
      * intros k p Hk. specialize (Hpt k p Hk).
        unfold w1, sent in Hpt. simpl in Hpt.
        rewrite <- app_assoc in Hpt. simpl in Hpt.
        rewrite failed_list_report. exact Hpt.
Qed.

End Discrete.

(** C2 is false when the arm cannot be taken: every point of the
    trajectory has six components, yet the call raises and no point is
    attempted. *)
Lemma discrete_trajectory_stops_without_arm :
  forallb six two_points = true /\
  handle_robot_execute_trajectory arm_denied (args_trajectory two_points)
                                  connected_world =
    (inl (ORiNException 3 "arm denied"),
     {| state := connected_state;
        calls := [ c_robot_getvariable (Some 2%Z) "@CURRENT_ANGLE" "";
                   c_variable_getvalue 1;
                   c_variable_release 1;
                   give_arm_call (Some 2%Z);
                   take_arm_call (Some 2%Z) ] |}) /\
  move_targets
    (calls (snd (handle_robot_execute_trajectory
                   arm_denied (args_trajectory two_points)
                   connected_world))) = [].
Proof. repeat split. Qed.

(** C2, as the code has it, on the obliging controller. *)
Lemma discrete_trajectory_witness :
  exists rep w',
    handle_robot_execute_trajectory obliging (args_trajectory two_points)
                                    connected_world =
      (inr (Rep (R_trajectory rep)), w') /\
    move_targets (calls w') = two_points /\
    tr_executed_points rep + tr_failed_points rep = tr_total_points rep /\
    (tr_success rep = true <-> failed_list rep = []).
Proof.
  destruct (proj2 (discrete_trajectory obliging (args_trajectory two_points)
                                       two_points connected_world
                                       eq_refl)
                  eq_refl eq_refl ltac:(discriminate))
    as (rep & w' & Hrun & _ & Hmoves & _ & Hsum & _ & _ & Hsucc & _).
  exists rep, w'. repeat split; assumption || apply Hsucc.
Defined.

(** The scenario of the specification: the second of two moves is
    rejected. *)
Example discrete_trajectory_second_move_rejected :
  match handle_robot_execute_trajectory second_move_fails
                                        (args_trajectory two_points)
                                        connected_world
  with
  | (inr (Rep (R_trajectory rep)), w') =>
      tr_executed_points rep = 1 /\ tr_failed_points rep = 1 /\
      tr_success rep = false /\
      tr_executed_details rep =
        [{| ep_index := 1; ep_angles := [0; 0; 0; 0; 0; 0]%float |}] /\
      tr_failed_details rep =
        Some [{| fp_index := 2; fp_angles := [10; 20; 30; 0; 0; 0]%float;
                 fp_error := "move rejected" |}] /\
      move_targets (calls w') = two_points
  | _ => False
  end.
Proof. vm_compute. repeat split. Qed.

(** ** The slave-mode trajectory executor *)

(** The scenario of the specification: the first streamed point is
    rejected.  The call returns success false, the second point is not
    streamed, and the clean-up leaves slave mode and gives the arm back. *)
Example slave_trajectory_first_point_rejected :
  match handle_robot_execute_slave_trajectory
          points_rejected (args_trajectory two_points) connected_world
  with
  | (inr (Rep (R_slave_failed rep)), w') =>
      sf_total_points rep = 2 /\ sf_executed_points rep = 0 /\
      sf_failed_points rep = 1 /\ sf_error rep = "point rejected" /\
      calls w' =
        [ c_robot_getvariable (Some 2%Z) "@CURRENT_ANGLE" "";
          c_variable_getvalue 1;
          c_variable_release 1;
          take_arm_call (Some 2%Z);
          slv_mode_call (Some 2%Z) 514;
          slv_move_call (Some 2%Z) [0; 0; 0; 0; 0; 0]%float;
          slv_mode_call (Some 2%Z) 0;
          give_arm_call (Some 2%Z) ]
  | _ => False
  end.
Proof. vm_compute. repeat split. Qed.

(** C3 at the failing input.  The first streamed point is rejected and so
    is the mode change of the clean-up: the call returns success false with
    the arm taken, slave mode entered, and no [GiveArm] ever sent, because
    the clean-up guards both commands with a single [try]. *)
Theorem slave_cleanup_skips_arm_release :
  match handle_robot_execute_slave_trajectory
          slave_stuck (args_trajectory two_points) connected_world
  with
  | (inr (Rep (R_slave_failed rep)), w') =>
      sf_failed_points rep = 1 /\ sf_error rep = "point rejected" /\
      calls w' =
        [ c_robot_getvariable (Some 2%Z) "@CURRENT_ANGLE" "";
          c_variable_getvalue 1;
          c_variable_release 1;
          take_arm_call (Some 2%Z);
          slv_mode_call (Some 2%Z) 514;
          slv_move_call (Some 2%Z) [0; 0; 0; 0; 0; 0]%float;
          slv_mode_call (Some 2%Z) 0 ] /\
      ~ In (give_arm_call (Some 2%Z)) (calls w')
  | _ => False
  end.
Proof.
  vm_compute. repeat split.
  intro H. repeat (destruct H as [H | H]; [discriminate H |]). exact H.
Qed.


(** ** Pick and place: every step is attempted and recorded *)

Section SagaClaims.

Variable cl : Client.
Variable unbound_message : string -> string.

(** What the handler returns once the body of its outer [try] is known. *)
Lemma pick_and_place_reply args w result f' w' :
  truthy (controller_handle (state w)) = true ->
  truthy (robot_handle (state w)) = true ->
  try_except
    (saga_body cl unbound_message
       (dict_get (arg_pick_down_distance args) 4%float * 10)%float
       (dict_get (arg_lift_up_distance args) 9%float * 10)%float
       (dict_get (arg_place_y_offset args) 2.5%float * 10)%float
       (dict_get (arg_place_down_distance args) 3%float * 10)%float
       (dict_get (arg_gripper_speed args) 100%float))
    (fun e =>
       f <- get_frame ;;
       ret (R_pick_place_failed (str e) (steps f) (errors f)))
    (saga_start, w) = (inr result, (f', w')) ->
  handle_robot_pick_and_place cl unbound_message args w =
    (inr (Rep result),
     snd (log_operation "bcap_robot_pick_and_place" args (Some result) None
                        w')).
Proof.
  intros Hctrl Hrobot Hbody. unfold handle_robot_pick_and_place.
  erewrite bind_run by (apply need_controller_run; exact Hctrl).
  erewrite bind_run by (apply need_robot_run; exact Hrobot).
  cbv zeta. unfold bind at 1. unfold with_frame. rewrite Hbody.
  reflexivity.
Qed.


End SagaClaims.

(** ** Pick and place: the commanded targets *)

Section SagaTargets.

Variable cl : Client.
Variable unbound_message : string -> string.

(** C9, as the code has it.  With every client call succeeding, the moves
    commanded are, in order: the captured pose with Z lowered by
    [pick_down_distance * 10]; three lifts, each adding the binary64
    quotient [(lift_up_distance * 10) / 3] to Z; the shift of Y by
    [place_y_offset * 10]; Z lowered by [place_down_distance * 10]; and the
    captured initial pose itself.  For [pick_down_distance = 4.0] the first
    target has Z = initial Z - 40, and for the default
    [lift_up_distance = 9.0] the three lifts are of 30 and add up to 90. *)
Theorem pick_and_place_targets args w vh l x y z rx ry rz more :
  truthy (controller_handle (state w)) = true ->
  truthy (robot_handle (state w)) = true ->
  client (state w) <> None ->
  always_succeeds cl ->
  reply_handle cl (calls w) (position_call (robot_handle (state w))) =
    inr vh ->
  reply_value cl (calls w ++ [position_call (robot_handle (state w))])
              (c_variable_getvalue vh) = inr (VList l) ->
  as_floats l = Some (x :: y :: z :: rx :: ry :: rz :: more) ->
  let pick_down_mm :=
    (dict_get (arg_pick_down_distance args) 4 * 10)%float in
  let step_up_mm :=
    (dict_get (arg_lift_up_distance args) 9 * 10 / 3)%float in
  let place_y_mm := (dict_get (arg_place_y_offset args) 2.5 * 10)%float in
  let place_down_mm :=
    (dict_get (arg_place_down_distance args) 3 * 10)%float in
  let pick_z := (z - pick_down_mm)%float in
  let z4 := (pick_z + step_up_mm)%float in
  let z5 := (z4 + step_up_mm)%float in
  let z6 := (z5 + step_up_mm)%float in
  let place_y := (y + place_y_mm)%float in
  move_targets
    (calls (snd (handle_robot_pick_and_place cl unbound_message args w))) =
    move_targets (calls w) ++
    [ [x; y; pick_z; rx; ry; rz];
      [x; y; z4; rx; ry; rz];
      [x; y; z5; rx; ry; rz];
      [x; y; z6; rx; ry; rz];
      [x; place_y; z6; rx; ry; rz];
      [x; place_y; (z6 - place_down_mm)%float; rx; ry; rz];
      [x; y; z; rx; ry; rz] ]
  /\ (arg_pick_down_distance args = Some 4%float ->
      pick_z = (z - 40)%float)
  /\ (arg_lift_up_distance args = Some 9%float ->
      step_up_mm = 30%float /\
      (step_up_mm + step_up_mm + step_up_mm = 9 * 10)%float).
Proof.
  intros Hctrl Hrobot Hclient [Hh Hv] Hvh Hpose Hfloats.
  intros pick_down_mm step_up_mm place_y_mm place_down_mm pick_z z4 z5 z6
         place_y.
  split; [| split].
  2: { intro Ha. unfold pick_z, pick_down_mm. rewrite Ha. reflexivity. }
  2: { intro Ha. unfold step_up_mm. rewrite Ha. split; reflexivity. }
  set (rh := robot_handle (state w)) in *.
  destruct (Hv (calls w ++ [position_call rh; c_variable_getvalue vh])
               (c_variable_release vh)) as [v0 Hrel].
  set (w3 := {| state := state w;
                calls := calls w ++ position_read rh vh |}).
  set (f0 := add_step (step_moved 0 "get_initial_position" None
                                  [x; y; z; rx; ry; rz]) saga_start).
  destruct (saga_steps_succeed cl unbound_message Hv x y z rx ry rz
              pick_down_mm
              (dict_get (arg_lift_up_distance args) 9 * 10)%float
              place_y_mm place_down_mm
              (dict_get (arg_gripper_speed args) 100%float) f0 w3 Hclient)
    as [f10 Esteps].
  rewrite fold_sent in Esteps.
  match type of Esteps with
  | _ = (_, (_, ?w')) => set (w10 := w') in *
  end.
  assert (Hbody :
            saga_body cl unbound_message pick_down_mm
              (dict_get (arg_lift_up_distance args) 9 * 10)%float
              place_y_mm place_down_mm
              (dict_get (arg_gripper_speed args) 100%float)
              (saga_start, w) =
            saga_report cl [x; y; z; rx; ry; rz] (f10, w10)).
  { unfold saga_body.
    erewrite bind_run
      by (apply lift_run;
          apply (read_position_run cl w vh (VList l) v0 Hclient Hvh Hpose
                                   Hrel)).
    cbv iota beta. rewrite Hfloats.
    unfold bind at 1. unfold push_step, modify_frame. simpl.
    erewrite bind_run by exact Esteps. reflexivity. }
  destruct (read_variable_quiet cl "@CURRENT_POSITION" "" w10)
    as [_ Hquiet].
  assert (Hmoves :
            move_targets
              (calls (snd (read_variable cl "@CURRENT_POSITION" "" w10))) =
            move_targets (calls w) ++
            [ [x; y; pick_z; rx; ry; rz];
              [x; y; z4; rx; ry; rz];
              [x; y; z5; rx; ry; rz];
              [x; y; z6; rx; ry; rz];
              [x; place_y; z6; rx; ry; rz];
              [x; place_y; (z6 - place_down_mm)%float; rx; ry; rz];
              [x; y; z; rx; ry; rz] ]).
  { rewrite Hquiet. unfold w10. simpl calls.
    rewrite !move_targets_app. rewrite <- app_assoc. reflexivity. }
  destruct (saga_report_cases cl [x; y; z; rx; ry; rz] f10 w10)
    as [(rep & Erep & _) | (e & Erep & _)].
  - erewrite (pick_and_place_reply cl unbound_message args w _ f10 _
                                   Hctrl Hrobot)
      by (apply try_run; exact (eq_trans Hbody Erep)).
    exact Hmoves.
  - erewrite (pick_and_place_reply cl unbound_message args w _ f10 _
                                   Hctrl Hrobot)
      by (erewrite try_caught by exact (eq_trans Hbody Erep); reflexivity).
    exact Hmoves.
Qed.

End SagaTargets.

Lemma obliging_always_succeeds : always_succeeds obliging.
Proof.
  split; intros h c.
  - exists 1%Z. reflexivity.
  - destruct c; eexists; reflexivity.
Qed.

(** C9 is false in binary64 arithmetic: for [lift_up_distance = 0.31] the
    saga succeeds, each of the steps 4 to 6 lifts by
    [(0.31 * 10) / 3 = 1.0333333333333334], and the three lifts add up to
    3.1000000000000005, which is not [0.31 * 10]. *)
Lemma three_lifts_do_not_add_up :
  match handle_robot_pick_and_place obliging example_unbound
                                    (args_lift_up 0.31) connected_world
  with
  | (inr (Rep (R_pick_place rep)), _) =>
      sg_success rep = true /\
      map sr_distance_mm (firstn 3 (skipn 4 (sg_steps rep))) =
        [Some (0.31 * 10 / 3); Some (0.31 * 10 / 3);
         Some (0.31 * 10 / 3)]%float /\
      PrimFloat.eqb (0.31 * 10 / 3 + 0.31 * 10 / 3 + 0.31 * 10 / 3)
                    (0.31 * 10) = false /\
      (0.31 * 10 / 3 + 0.31 * 10 / 3 + 0.31 * 10 / 3
       = 3.1000000000000005)%float /\
      (0.31 * 10 = 3.1)%float
  | _ => False
  end.
Proof. vm_compute. repeat split. Qed.

(** C9, as the code has it, for the default distances on the obliging
    controller (initial pose 100, 200, 300, 180, 0, 90). *)
Lemma pick_and_place_targets_witness :
  move_targets
    (calls (snd (handle_robot_pick_and_place obliging example_unbound
                                             no_args connected_world))) =
    [ [100; 200; 260; 180; 0; 90];
      [100; 200; 290; 180; 0; 90];
      [100; 200; 320; 180; 0; 90];
      [100; 200; 350; 180; 0; 90];
      [100; 225; 350; 180; 0; 90];
      [100; 225; 320; 180; 0; 90];
      [100; 200; 300; 180; 0; 90] ]%float.
Proof.
  exact (proj1 (pick_and_place_targets
                  obliging example_unbound no_args connected_world 1%Z
                  (map VFloat example_pose) 100 200 300 180 0 90 []
                  eq_refl eq_refl ltac:(discriminate)
                  obliging_always_succeeds eq_refl eq_refl eq_refl)).
Defined.



(** The slip the amended C4 leaves out.  When the arm is refused to step 2,
    [pick_z] is never assigned, [current_z = pick_z] raises outside every
    step's [try], and the saga ends after step 3: steps 4 to 10, the return
    to the initial pose included, are never attempted. *)
Example pick_and_place_stops_after_refused_arm :
  match handle_robot_pick_and_place arm_denied_once example_unbound
                                    no_args connected_world
  with
  | (inr (Rep (R_pick_place_failed text srs errs)), w') =>
      text = example_unbound "pick_z" /\
      map sr_step srs = [0; 1; 2; 3] /\
      map sr_status srs = [success; success; failed; success] /\
      List.length errs = 1 /\
      move_targets (calls w') = []
  | _ => False
  end.
Proof. vm_compute. repeat split. Qed.

(** * Further properties of the server *)

(** Membership in a list of names that is written out. *)
Ltac among :=
  simpl; repeat (first [left; reflexivity | right]).

Lemma log_operation_run operation params result error w :
  log_operation operation params result error w =
    (inr tt, logged operation params result error w).
Proof. reflexivity. Qed.

Lemma same_but_params_refl w : same_but_params w w.
Proof.
  repeat split.
  induction (operation_log (state w)); constructor;
    [repeat split | assumption].
Qed.

Lemma same_but_params_logged operation p1 p2 result error w :
  same_but_params (logged operation p1 result error w)
                  (logged operation p2 result error w).
Proof.
  repeat split. simpl. apply Forall2_app.
  - induction (operation_log (state w)); constructor;
      [repeat split | assumption].
  - constructor; [repeat split | constructor].
Qed.

Lemma dict_get_or_default {A} (entry : option A) d :
  dict_get (or_default entry (Some d)) d = dict_get entry d.
Proof. destruct entry; reflexivity. Qed.

Lemma or_default_none {A} (entry : option A) : or_default entry None = entry.
Proof. destruct entry; reflexivity. Qed.

(** Both sides run the same computation up to the parameters they log:
    follow it step by step. *)
Ltac lockstep :=
  repeat (cbv beta iota;
          match goal with
          | |- context [log_operation ?n ?p ?r ?e ?w] =>
              rewrite (log_operation_run n p r e w)
          | |- context [match ?x with inl _ => _ | inr _ => _ end] =>
              is_var x; destruct x
          | |- context [match ?x with ORiNException _ _ => _ | _ => _ end] =>
              is_var x; destruct x
          | |- context [match ?x with Some _ => _ | None => _ end] =>
              is_var x; destruct x
          | |- context [if ?b then _ else _] => destruct b
          | |- context [match ?x with pair _ _ => _ end] =>
              lazymatch x with
              | pair _ _ => fail
              | match _ with pair _ _ => _ end => fail
              | match _ with inl _ => _ | inr _ => _ end => fail
              | _ => destruct x as [[?e | ?a] ?w]
              end
          end);
  cbv beta iota.

Ltac settled :=
  unfold agree_but_params; cbn [fst snd]; split;
  [ reflexivity
  | first [ apply same_but_params_refl | apply same_but_params_logged ] ].

Lemma same_but_params_logging operation p1 p2 result error w1 w2 :
  same_but_params w1 w2 ->
  same_but_params (logged operation p1 result error w1)
                  (logged operation p2 result error w2).
Proof.
  intros (Hc & Hs & Hl). split; [exact Hc | split; [exact Hs |]].
  simpl. apply Forall2_app; [exact Hl |].
  constructor; [repeat split | constructor].
Qed.


(** ** The advertised tools and the dispatcher *)

Section Advertised.

Variable cl : Client.
Variable HResult : HResultCodes.
Variable parse_speed : string -> option float.
Variable unbound_message : string -> string.

(** A name that [list_tools] does not advertise reaches the last branch of
    the dispatcher. *)
Lemma unlisted_name name args w :
  ~ In name (map tool_name list_tools) ->
  call_tool cl HResult parse_speed unbound_message name args w =
    refusal name args ("Unknown tool: " ++ name) w.
Proof.
  intro Hn. unfold call_tool, dispatch.
  by_name name; try solve [exfalso; apply Hn; among].
  reflexivity.
Qed.

(** X1.  A request for a name that [list_tools] does not advertise is
    answered with the error "Unknown tool: name"; the error is logged under
    that name, nothing is sent to the protocol client and the session is
    as it was. *)
Theorem unknown_tool_is_refused name args w :
  ~ In name (map tool_name list_tools) ->
  call_tool cl HResult parse_speed unbound_message name args w =
    (Rep_error ("Error: Unknown tool: " ++ name) None,
     snd (log_operation name args None
                        (Some ("Error: Unknown tool: " ++ name)%string) w))
  /\ calls (snd (call_tool cl HResult parse_speed unbound_message
                           name args w)) = calls w
  /\ same_session w (snd (call_tool cl HResult parse_speed unbound_message
                                    name args w)).
Proof.
  intro Hn. rewrite (unlisted_name name args w Hn).
  repeat split.
Qed.

(** X2.  The advertised names are twenty distinct names, and they are
    exactly the names the dispatcher routes to a handler: on a fresh
    session and with no argument, a request is answered "Unknown tool"
    exactly when its name is not advertised. *)
Theorem listed_tools_are_routed :
  NoDup (map tool_name list_tools) /\
  List.length list_tools = 20 /\
  forall name,
    In name (map tool_name list_tools) <->
    fst (call_tool cl HResult parse_speed unbound_message
                   name no_args init_world)
    <> Rep_error ("Error: Unknown tool: " ++ name) None.
Proof.
  split; [| split; [reflexivity |]].
  - repeat (constructor;
            [ intro H; simpl in H;
              repeat (destruct H as [H | H]; [discriminate H |]);
              exact H | ]).
    constructor.
  - intro name. split.
    + intro H. simpl in H.
      repeat (destruct H as [<- | H];
              [ intro E; vm_compute in E; discriminate E | ]).
      destruct H.
    + intro H.
      destruct (in_dec string_dec name (map tool_name list_tools))
        as [Hin | Hout]; [exact Hin |].
      exfalso. apply H. rewrite (unlisted_name name no_args init_world Hout).
      reflexivity.
Qed.

(** X3.  A request that lacks a key its tool lists as required, on a
    session that has the connection stages the tool needs, is answered
    with the [KeyError] of that key: the error is logged and nothing is
    sent to the protocol client.  For [bcap_connect] this means that an
    existing session is not reset. *)
Theorem missing_required_key t key args w :
  In t list_tools ->
  In key (tool_required t) ->
  has_key key args = false ->
  find (missing (state w)) (required (tool_name t)) = None ->
  call_tool cl HResult parse_speed unbound_message (tool_name t) args w =
    refusal (tool_name t) args ("'" ++ key ++ "'") w
  /\ calls (snd (call_tool cl HResult parse_speed unbound_message
                           (tool_name t) args w)) = calls w
  /\ same_session w (snd (call_tool cl HResult parse_speed unbound_message
                                    (tool_name t) args w)).
Proof.
  intros Ht Hk Hkey Hstage.
  assert (E : call_tool cl HResult parse_speed unbound_message
                        (tool_name t) args w =
              refusal (tool_name t) args ("'" ++ key ++ "'") w).
  { simpl in Ht.
    repeat (destruct Ht as [<- | Ht];
            [ simpl in Hk; try contradiction;
              destruct Hk as [<- | []];
              cbv beta iota fix delta
                  [has_key String.eqb Ascii.eqb Bool.eqb] in Hkey;
              cbv beta iota fix delta
                  [required tool_name String.eqb Ascii.eqb Bool.eqb find
                   missing] in Hstage | ]);
      try contradiction;
      unfold call_tool;
      cbv beta iota fix delta
          [dispatch tool_name String.eqb Ascii.eqb Bool.eqb].
    - unfold handle_connect, bind, subscript, raise.
      destruct (arg_host args); [discriminate Hkey | reflexivity].
    - unfold handle_robot_get_variable, need_robot, bind, get_state,
        subscript, raise, ret.
      destruct (truthy (robot_handle (state w))); [| discriminate Hstage].
      simpl.
      destruct (arg_name args); [discriminate Hkey | reflexivity].
    - unfold handle_robot_move_to_joint_angles, bind, get_state, subscript,
        raise.
      destruct (arg_joint_angles args); [discriminate Hkey | reflexivity].
    - unfold handle_robot_move_to_pose, need_robot, bind, get_state,
        subscript, raise, ret.
      destruct (truthy (robot_handle (state w))); [| discriminate Hstage].
      simpl.
      destruct (arg_pose args); [discriminate Hkey | reflexivity].
    - unfold handle_robot_execute_trajectory, need_robot, bind, get_state,
        subscript, raise, ret.
      destruct (truthy (robot_handle (state w))); [| discriminate Hstage].
      simpl.
      destruct (arg_trajectory args); [discriminate Hkey | reflexivity].
    - unfold handle_robot_execute_slave_trajectory, need_robot, bind,
        get_state, subscript, raise, ret.
      destruct (truthy (robot_handle (state w))); [| discriminate Hstage].
      simpl.
      destruct (arg_trajectory args); [discriminate Hkey | reflexivity]. }
  rewrite E. repeat split.
Qed.

(** Handlers that agree up to the logged parameters give requests that
    do. *)
Lemma call_tool_agrees name a1 a2 w :
  agree_but_params (dispatch cl parse_speed unbound_message name a1 w)
                   (dispatch cl parse_speed unbound_message name a2 w) ->
  fst (call_tool cl HResult parse_speed unbound_message name a1 w) =
    fst (call_tool cl HResult parse_speed unbound_message name a2 w)
  /\ same_but_params
       (snd (call_tool cl HResult parse_speed unbound_message name a1 w))
       (snd (call_tool cl HResult parse_speed unbound_message name a2 w)).
Proof.
  unfold call_tool, agree_but_params.
  destruct (dispatch cl parse_speed unbound_message name a1 w)
    as [r1 w1].
  destruct (dispatch cl parse_speed unbound_message name a2 w)
    as [r2 w2].
  simpl. intros [<- Hw].
  destruct r1 as [[] | r]; simpl; (split; [reflexivity |]);
    try exact Hw; apply same_but_params_logging; exact Hw.
Qed.

(** X4.  The defaults that [list_tools] advertises are the ones the
    handlers apply: filling in the advertised default of every absent key
    changes neither the reply, nor the calls sent to the protocol client,
    nor the session; only the parameters written to the log differ.  The
    one exception is the speed of the two gripper tools, which has to be
    given for this to hold. *)
Theorem advertised_defaults_are_applied t args w :
  In t list_tools ->
  (gripper_tool (tool_name t) = true -> arg_speed args <> None) ->
  fst (call_tool cl HResult parse_speed unbound_message (tool_name t)
                 (fill (advertised t) args) w) =
    fst (call_tool cl HResult parse_speed unbound_message (tool_name t)
                   args w)
  /\ same_but_params
       (snd (call_tool cl HResult parse_speed unbound_message (tool_name t)
                       (fill (advertised t) args) w))
       (snd (call_tool cl HResult parse_speed unbound_message (tool_name t)
                       args w)).
Proof.
  intros Ht Hg.
  apply call_tool_agrees.
  simpl in Ht.
  repeat (destruct Ht as [<- | Ht]); try contradiction;
    cbv beta iota fix delta
        [dispatch tool_name String.eqb Ascii.eqb Bool.eqb].
  all: try (assert (Hs : arg_speed args <> None) by (apply Hg; reflexivity);
            destruct (arg_speed args) as [speed |] eqn:Es;
            [clear Hs | exfalso; apply Hs; reflexivity]).
  all: clear Hg.
  all: unfold handle_connect, handle_disconnect,
         handle_get_connection_status, handle_controller_connect,
         handle_controller_get_robot_names,
         handle_controller_get_variable_names,
         handle_controller_clear_error, handle_robot_connect,
         handle_robot_get_variable, handle_robot_get_variable_names,
         handle_robot_move_to_joint_angles, handle_robot_move_to_pose,
         handle_robot_gohome, handle_robot_set_speed,
         handle_robot_execute_trajectory,
         handle_robot_execute_slave_trajectory, handle_robot_open_gripper,
         handle_robot_close_gripper, handle_robot_pick_and_place,
         handle_get_operation_log.
  all: cbn [fill advertised default_of as_text as_integer as_number find
            fst snd tool_properties String.eqb Ascii.eqb Bool.eqb
            arg_host arg_port arg_timeout arg_name arg_provider arg_machine
            arg_option arg_joint_angles arg_pose arg_axis arg_speed
            arg_trajectory arg_dist arg_pick_down_distance
            arg_lift_up_distance arg_place_y_offset arg_place_down_distance
            arg_gripper_speed arg_limit].
  all: try (rewrite !Es; cbn [or_default dict_get]).
  all: rewrite ?dict_get_or_default, ?or_default_none.
  all: unfold bind, with_frame, lift, get_frame, ret.
  all: lockstep.
  all: settled.
Qed.

(** The body the two gripper handlers share, once its checks have
    passed: one [HandMoveA] command, logged when it goes through. *)
Lemma gripper_body_run name action args dist speed w :
  truthy (controller_handle (state w)) = true ->
  client (state w) <> None ->
  dist_in_range dist = true ->
  (need_controller ;;
   (if negb (dist_in_range dist) then
      raise (ValueError "Distance must be between 0 and 0.03 meters")
    else ret tt) ;;
   hand_move cl (dist * 1000)%float speed ;;
   log_operation name args
                 (Some (R_gripper action (dist * 1000)%float speed))
                 None ;;
   ret (Rep (R_gripper action (dist * 1000)%float speed))) w =
    let c := hand_call (controller_handle (state w))
                       (dist * 1000)%float speed in
    match reply_value cl (calls w) c with
    | inl e => (inl e, sent w c)
    | inr _ =>
        (inr (Rep (R_gripper action (dist * 1000)%float speed)),
         logged name args
                (Some (R_gripper action (dist * 1000)%float speed)) None
                (sent w c))
    end.
Proof.
  intros Hctrl Hclient Hdist.
  erewrite bind_run by (apply need_controller_run; exact Hctrl).
  rewrite Hdist. simpl negb. cbv iota.
  unfold bind at 1. unfold ret at 1.
  unfold bind at 1. rewrite (hand_move_run cl _ _ w Hclient).
  unfold hand_call.
  destruct (reply_value cl (calls w) _) as [e | v]; reflexivity.
Qed.

(** The calls a request leaves are those its handler made. *)
Lemma call_tool_calls name args w :
  calls (snd (call_tool cl HResult parse_speed unbound_message name args w))
  = calls (snd (dispatch cl parse_speed unbound_message name args w)).
Proof.
  unfold call_tool.
  destruct (dispatch cl parse_speed unbound_message name args w)
    as [[[] |] w']; reflexivity.
Qed.

(** X5.  The speed that the two gripper tools use when none is given is
    not the default [list_tools] advertises: [bcap_robot_open_gripper]
    commands speed 100 where 30 is advertised, [bcap_robot_close_gripper]
    commands 20 where 100 is advertised.  A caller who fills in the
    advertised default gets a different command from the one who leaves
    the key out. *)
Theorem gripper_speed_default_differs t args w :
  In t list_tools ->
  gripper_tool (tool_name t) = true ->
  arg_speed args = None ->
  truthy (controller_handle (state w)) = true ->
  client (state w) <> None ->
  let opening := tool_name t =? "bcap_robot_open_gripper" in
  let dist := dict_get (arg_dist args) (if opening then 0.030 else 0)%float in
  let used := (if opening then 100 else 20)%float in
  let listed := (if opening then 30 else 100)%float in
  dist_in_range dist = true ->
  calls (snd (call_tool cl HResult parse_speed unbound_message
                        (tool_name t) args w)) =
    calls w ++ [hand_call (controller_handle (state w))
                          (dist * 1000)%float used]
  /\ calls (snd (call_tool cl HResult parse_speed unbound_message
                           (tool_name t) (fill (advertised t) args) w)) =
       calls w ++ [hand_call (controller_handle (state w))
                             (dist * 1000)%float listed]
  /\ PrimFloat.eqb used listed = false.
Proof.
  intros Ht Hg Hs Hctrl Hclient. simpl in Ht.
  repeat (destruct Ht as [<- | Ht]); try contradiction;
    try discriminate Hg; clear Hg;
    cbv beta iota zeta fix delta [tool_name String.eqb Ascii.eqb Bool.eqb];
    intro Hdist; (split; [| split; [| reflexivity]]).
  - rewrite call_tool_calls.
    cbv beta iota fix delta [dispatch String.eqb Ascii.eqb Bool.eqb].
    unfold handle_robot_open_gripper.
    rewrite (gripper_body_run "bcap_robot_open_gripper" "open_gripper"
                              args _ _ w Hctrl Hclient Hdist).
    rewrite Hs. simpl dict_get. cbv zeta.
    destruct (reply_value cl (calls w) _); reflexivity.
  - rewrite call_tool_calls.
    cbv beta iota fix delta [dispatch String.eqb Ascii.eqb Bool.eqb].
    unfold handle_robot_open_gripper.
    cbn [fill advertised default_of as_number find fst snd
         tool_properties String.eqb Ascii.eqb Bool.eqb arg_dist arg_speed].
    rewrite Hs. cbn [or_default dict_get]. rewrite dict_get_or_default.
    rewrite (gripper_body_run "bcap_robot_open_gripper" "open_gripper"
                              _ _ _ w Hctrl Hclient Hdist).
    cbv zeta.
    destruct (reply_value cl (calls w) _); reflexivity.
  - rewrite call_tool_calls.
    cbv beta iota fix delta [dispatch String.eqb Ascii.eqb Bool.eqb].
    unfold handle_robot_close_gripper.
    rewrite (gripper_body_run "bcap_robot_close_gripper" "close_gripper"
                              args _ _ w Hctrl Hclient Hdist).
    rewrite Hs. simpl dict_get. cbv zeta.
    destruct (reply_value cl (calls w) _); reflexivity.
  - rewrite call_tool_calls.
    cbv beta iota fix delta [dispatch String.eqb Ascii.eqb Bool.eqb].
    unfold handle_robot_close_gripper.
    cbn [fill advertised default_of as_number find fst snd
         tool_properties String.eqb Ascii.eqb Bool.eqb arg_dist arg_speed].
    rewrite Hs. cbn [or_default dict_get]. rewrite dict_get_or_default.
    rewrite (gripper_body_run "bcap_robot_close_gripper" "close_gripper"
                              _ _ _ w Hctrl Hclient Hdist).
    cbv zeta.
    destruct (reply_value cl (calls w) _); reflexivity.
Qed.

End Advertised.

(** X3 at a connect request without a host on the connected session. *)
Lemma missing_required_key_witness :
  call_tool obliging example_codes no_speed example_unbound
            "bcap_connect" no_args connected_world =
    refusal "bcap_connect" no_args "'host'" connected_world
  /\ calls (snd (call_tool obliging example_codes no_speed example_unbound
                           "bcap_connect" no_args connected_world)) = []
  /\ same_session connected_world
                  (snd (call_tool obliging example_codes no_speed
                                  example_unbound "bcap_connect" no_args
                                  connected_world)).
Proof.
  apply (missing_required_key
           obliging example_codes no_speed example_unbound
           {| tool_name := "bcap_connect";
              tool_properties := [ ("host", None);
                                   ("port", Some (VInt 5007));
                                   ("timeout", Some (VFloat 3)) ];
              tool_required := ["host"] |}
           "host" no_args connected_world).
  - left. reflexivity.
  - left. reflexivity.
  - reflexivity.
  - reflexivity.
Defined.

(** X1 at the name of the handler that is defined but not dispatched. *)
Lemma unknown_tool_is_refused_witness :
  fst (call_tool obliging example_codes no_speed example_unbound
                 "bcap_robot_takearm" no_args connected_world) =
    Rep_error "Error: Unknown tool: bcap_robot_takearm" None
  /\ calls (snd (call_tool obliging example_codes no_speed example_unbound
                           "bcap_robot_takearm" no_args connected_world)) = [].
Proof.
  destruct (unknown_tool_is_refused
              obliging example_codes no_speed example_unbound
              "bcap_robot_takearm" no_args connected_world) as (E & C & _).
  - intro H. simpl in H.
    repeat (destruct H as [H | H]; [discriminate H |]). exact H.
  - split; [rewrite E; reflexivity | exact C].
Defined.

(** X4 at a connect request that gives the host only. *)
Lemma advertised_defaults_are_applied_witness :
  fst (call_tool obliging example_codes no_speed example_unbound
                 "bcap_connect"
                 (fill (advertised
                          {| tool_name := "bcap_connect";
                             tool_properties :=
                               [ ("host", None);
                                 ("port", Some (VInt 5007));
                                 ("timeout", Some (VFloat 3)) ];
                             tool_required := ["host"] |})
                       (args_host "192.168.0.1"))
                 init_world) =
    fst (call_tool obliging example_codes no_speed example_unbound
                   "bcap_connect" (args_host "192.168.0.1") init_world).
Proof.
  apply (advertised_defaults_are_applied
           obliging example_codes no_speed example_unbound
           {| tool_name := "bcap_connect";
              tool_properties := [ ("host", None);
                                   ("port", Some (VInt 5007));
                                   ("timeout", Some (VFloat 3)) ];
              tool_required := ["host"] |}
           (args_host "192.168.0.1") init_world).
  - left. reflexivity.
  - intro H. discriminate H.
Defined.

(** X5 at an open request without arguments on the connected session:
    speed 100 is commanded, speed 30 is advertised. *)
Lemma gripper_speed_default_differs_witness :
  calls (snd (call_tool obliging example_codes no_speed example_unbound
                        "bcap_robot_open_gripper" no_args connected_world))
  = [hand_call (Some 1%Z) (0.030 * 1000)%float 100%float].
Proof.
  apply (gripper_speed_default_differs
           obliging example_codes no_speed example_unbound
           {| tool_name := "bcap_robot_open_gripper";
              tool_properties := [ ("dist", Some (VFloat 0.030));
                                   ("speed", Some (VFloat 30)) ];
              tool_required := [] |}
           no_args connected_world).
  - do 16 right. left. reflexivity.
  - reflexivity.
  - reflexivity.
  - reflexivity.
  - discriminate.
  - reflexivity.
Defined.

(** ** Connecting and disconnecting *)

#[export] Instance same_client_rel : WorldRel same_client.
Proof.
  split.
  - intro w. split; reflexivity.
  - intros a b c [H1 H2] [H3 H4]. split; congruence.
  - intros w c. split; reflexivity.
Qed.

#[export] Instance described_kept_rel : WorldRel described_kept.
Proof.
  split.
  - intros w H. exact H.
  - intros a b c H1 H2 H. apply H2, H1, H.
  - intros w c H. exact H.
Qed.

Lemma same_session_described w w' : same_session w w' -> described_kept w w'.
Proof.
  intros (Hc & _ & _ & Hi) H. unfold described in *. rewrite Hc, Hi. exact H.
Qed.

Lemma same_client_described w w' : same_client w w' -> described_kept w w'.
Proof.
  intros (Hc & Hi) H. unfold described in *. rewrite Hc, Hi. exact H.
Qed.

Section Connection.

Variable cl : Client.
Variable HResult : HResultCodes.
Variable parse_speed : string -> option float.
Variable unbound_message : string -> string.

(** The controller-connect handler on a session with a client. *)
Lemma controller_connect_run args w :
  client (state w) <> None ->
  let c := c_controller_connect
             (dict_get (arg_name args) "")
             (dict_get (arg_provider args) "CaoProv.DENSO.VRC")
             (dict_get (arg_machine args) "localhost")
             (dict_get (arg_option args) "") in
  handle_controller_connect cl args w =
    match reply_handle cl (calls w) c with
    | inl e => (inl e, sent w c)
    | inr h =>
        (inr (Rep (R_controller_connect h)),
         logged "bcap_controller_connect" args
                (Some (R_controller_connect h)) None
                (snd (set_controller_handle h (sent w c))))
    end.
Proof.
  intros Hclient c. subst c.
  unfold handle_controller_connect, on_client, bind, get_state,
    invoke_handle.
  destruct (client (state w)) as [b |] eqn:Hb; [| contradiction].
  cbn [is_some negb]. cbv beta iota zeta. rewrite Hb.
  destruct (reply_handle cl (calls w) _); reflexivity.
Qed.


(** X7.  A controller-connect request on a session with a client sends
    exactly one call, [controller_connect] with the given names or their
    defaults; it never disconnects a controller handle the session
    already holds.  When the call goes through, the session holds the new
    handle; when it raises, the session keeps the handle it had.  The
    client, the robot handle and the metadata are untouched either way. *)
Theorem controller_connect_outcome args w :
  client (state w) <> None ->
  let c := c_controller_connect
             (dict_get (arg_name args) "")
             (dict_get (arg_provider args) "CaoProv.DENSO.VRC")
             (dict_get (arg_machine args) "localhost")
             (dict_get (arg_option args) "") in
  let run := call_tool cl HResult parse_speed unbound_message
                       "bcap_controller_connect" args w in
  calls (snd run) = calls w ++ [c] /\
  client (state (snd run)) = client (state w) /\
  robot_handle (state (snd run)) = robot_handle (state w) /\
  connection_info (state (snd run)) = connection_info (state w) /\
  match reply_handle cl (calls w) c with
  | inr h =>
      fst run = Rep (R_controller_connect h) /\
      controller_handle (state (snd run)) = Some h
  | inl e =>
      reply_success (fst run) = Some false /\
      controller_handle (state (snd run)) = controller_handle (state w)
  end.
Proof.
  intros Hclient c run. unfold run, call_tool.
  cbv beta iota fix delta [dispatch String.eqb Ascii.eqb Bool.eqb].
  rewrite (controller_connect_run args w Hclient). fold c.
  destruct (reply_handle cl (calls w) c) as [e | h].
  - destruct e; repeat split.
  - repeat split.
Qed.





(** X9.  The status query and the precondition checks do not agree on a
    handle 0.  When the controller answers a controller-connect request
    with the handle 0, the request succeeds and the status query reports
    the controller as connected, yet a robot-connect request is refused
    with "Please call bcap_controller_connect first". *)
Theorem handle_zero_is_connected_yet_refused args a_status a_robot w :
  client (state w) <> None ->
  reply_handle cl (calls w)
    (c_controller_connect (dict_get (arg_name args) "")
                          (dict_get (arg_provider args) "CaoProv.DENSO.VRC")
                          (dict_get (arg_machine args) "localhost")
                          (dict_get (arg_option args) "")) = inr 0%Z ->
  let run := call_tool cl HResult parse_speed unbound_message
                       "bcap_controller_connect" args w in
  fst run = Rep (R_controller_connect 0) /\
  (exists robot_connected info,
      fst (call_tool cl HResult parse_speed unbound_message
                     "bcap_get_connection_status" a_status (snd run)) =
        Rep_status true true robot_connected info) /\
  call_tool cl HResult parse_speed unbound_message
            "bcap_robot_connect" a_robot (snd run) =
    refusal "bcap_robot_connect" a_robot
            "Please call bcap_controller_connect first" (snd run).
Proof.
  intros Hclient Hzero run.
  assert (E : run =
              (Rep (R_controller_connect 0),
               logged "bcap_controller_connect" args
                      (Some (R_controller_connect 0)) None
                      (snd (set_controller_handle 0
                              (sent w
                                 (c_controller_connect
                                    (dict_get (arg_name args) "")
                                    (dict_get (arg_provider args)
                                              "CaoProv.DENSO.VRC")
                                    (dict_get (arg_machine args) "localhost")
                                    (dict_get (arg_option args) ""))))))).
  { unfold run, call_tool.
    cbv beta iota fix delta [dispatch String.eqb Ascii.eqb Bool.eqb].
    rewrite (controller_connect_run args w Hclient). cbv zeta.
    rewrite Hzero. reflexivity. }
  rewrite E. split; [reflexivity | split].
  - unfold call_tool.
    cbv beta iota fix delta [dispatch String.eqb Ascii.eqb Bool.eqb].
    destruct (client (state w)) as [b |] eqn:Hb; [| contradiction].
    simpl. rewrite Hb. eexists. eexists. reflexivity.
  - apply (refuses cl HResult parse_speed unbound_message
                   "bcap_robot_connect" a_robot _ Controller).
    reflexivity.
Qed.

(** Every handler but those of the four connection tools keeps the
    client, the handles and the metadata. *)
Lemma dispatch_keeps_session name args :
  ~ In name connection_tools ->
  stable same_session (dispatch cl parse_speed unbound_message name args).
Proof.
  intro Hn. unfold dispatch.
  by_name name; try solve [exfalso; apply Hn; among];
    lazymatch goal with
    | |- stable _ (raise _) => apply stable_raise
    | |- stable _ (handle_get_connection_status _) =>
        apply session_get_connection_status
    | |- stable _ (handle_controller_get_robot_names _ _) =>
        apply session_get_robot_names
    | |- stable _ (handle_controller_get_variable_names _ _) =>
        apply session_get_variable_names
    | |- stable _ (handle_controller_clear_error _ _) =>
        apply session_clear_error
    | |- stable _ (handle_robot_get_variable _ _) =>
        apply session_get_variable
    | |- stable _ (handle_robot_get_variable_names _ _) =>
        apply session_robot_variable_names
    | |- stable _ (handle_robot_move_to_joint_angles _ _ _) =>
        apply session_move_to_joint_angles
    | |- stable _ (handle_robot_move_to_pose _ _) =>
        apply session_move_to_pose
    | |- stable _ (handle_robot_gohome _ _) => apply session_gohome
    | |- stable _ (handle_robot_set_speed _ _) => apply session_set_speed
    | |- stable _ (handle_robot_execute_trajectory _ _) =>
        apply session_execute_trajectory
    | |- stable _ (handle_robot_execute_slave_trajectory _ _) =>
        apply session_execute_slave_trajectory
    | |- stable _ (handle_robot_open_gripper _ _) =>
        apply session_open_gripper
    | |- stable _ (handle_robot_close_gripper _ _) =>
        apply session_close_gripper
    | |- stable _ (handle_robot_pick_and_place _ _ _) =>
        apply session_pick_and_place
    | |- stable _ (handle_get_operation_log _) =>
        apply session_get_operation_log
    end.
Qed.

(** What holds of the world a handler leaves holds of the world the
    request leaves, when logging an error keeps it. *)
Lemma call_tool_stable (R : World -> World -> Prop) `{WorldRel R} name args :
  (forall operation params result error,
      stable R (log_operation operation params result error)) ->
  stable R (dispatch cl parse_speed unbound_message name args) ->
  forall w,
    R w (snd (call_tool cl HResult parse_speed unbound_message name args w)).
Proof.
  intros Hlog Hd w. unfold call_tool.
  specialize (Hd w). unfold world_of, view_world in Hd.
  destruct (dispatch cl parse_speed unbound_message name args w)
    as [[e | r] w']; cbn [fst snd] in *; [| exact Hd].
  destruct e; cbn [fst snd];
    (eapply rel_trans; [exact Hd |]);
    match goal with
    | |- R _ (snd (log_operation ?o ?p ?r ?e ?w)) =>
        exact (Hlog o p r e w)
    end.
Qed.

(** X10.  Only the four connection tools ever change the client, the
    handles or the metadata: any other request, whatever it sends and
    however it fails, leaves them as they were. *)
Theorem only_connection_tools_change_session name args w :
  ~ In name connection_tools ->
  same_session w (snd (call_tool cl HResult parse_speed unbound_message
                                 name args w)).
Proof.
  intro Hn. apply (call_tool_stable same_session).
  - intros. apply session_log_operation.
  - apply dispatch_keeps_session. exact Hn.
Qed.

Lemma client_log_operation operation params result error :
  stable same_client (log_operation operation params result error).
Proof. intro w. split; reflexivity. Qed.

Lemma client_set_controller_handle h :
  stable same_client (set_controller_handle h).
Proof. intro w. split; reflexivity. Qed.

Lemma client_set_robot_handle h : stable same_client (set_robot_handle h).
Proof. intro w. split; reflexivity. Qed.

#[local] Hint Resolve client_log_operation client_set_controller_handle
  client_set_robot_handle : stable.

Lemma client_controller_connect args :
  stable same_client (handle_controller_connect cl args).
Proof. unfold handle_controller_connect. stable_tac. Qed.

Lemma client_robot_connect args :
  stable same_client (handle_robot_connect cl args).
Proof. unfold handle_robot_connect. stable_tac. Qed.

Lemma described_log_operation operation params result error :
  stable described_kept (log_operation operation params result error).
Proof. intros w H. exact H. Qed.

Lemma described_reset : stable described_kept (reset cl).
Proof.
  intros w H. unfold world_of, view_world.
  destruct (reset_cases cl w) as [E | (e & issued & rest & _ & _ & E)];
    rewrite E; simpl; [reflexivity | exact H].
Qed.

Lemma described_set_client host port timeout :
  stable described_kept
         (set_client {| bc_host := host; bc_port := port;
                        bc_timeout := timeout |}
                     {| ci_host := host; ci_port := port;
                        ci_timeout := timeout |}).
Proof. intros w _. reflexivity. Qed.

#[local] Hint Resolve described_log_operation described_reset
  described_set_client : stable.

Lemma described_connect args :
  stable described_kept (handle_connect cl args).
Proof. unfold handle_connect. stable_tac. Qed.

Lemma described_disconnect args :
  stable described_kept (handle_disconnect cl args).
Proof. unfold handle_disconnect. stable_tac. Qed.

Lemma described_dispatch name args :
  stable described_kept (dispatch cl parse_speed unbound_message name args).
Proof.
  destruct (in_dec string_dec name connection_tools) as [Hin | Hout].
  - simpl in Hin.
    destruct Hin as [<- | [<- | [<- | [<- | []]]]];
      cbv beta iota fix delta [dispatch String.eqb Ascii.eqb Bool.eqb].
    + apply described_connect.
    + apply described_disconnect.
    + intro w. apply same_client_described. apply client_controller_connect.
    + intro w. apply same_client_described. apply client_robot_connect.
  - intro w. apply same_session_described.
    apply dispatch_keeps_session. exact Hout.
Qed.

(** X11.  In every world the server can reach, the metadata describe the
    client in use: there are none when there is no client, and otherwise
    they are the host, port and timeout the client was built from.  The
    status query therefore reports metadata exactly when it reports a
    connection. *)
Theorem metadata_describe_the_client w :
  reachable cl HResult parse_speed unbound_message w ->
  described (state w) /\
  is_some (connection_info (state w)) = is_some (client (state w)).
Proof.
  intro Hr.
  assert (Hd : described (state w)).
  { induction Hr as [| name args w Hr IH | w Hr IH].
    - reflexivity.
    - apply (call_tool_stable described_kept name args
                              described_log_operation
                              (described_dispatch name args) w IH).
    - apply (described_reset w IH). }
  split; [exact Hd |].
  unfold described in Hd. rewrite Hd.
  destruct (client (state w)); reflexivity.
Qed.

End Connection.


(** X7 on the session that has a client only. *)
Lemma controller_connect_outcome_witness :
  calls (snd (call_tool obliging example_codes no_speed example_unbound
                        "bcap_controller_connect" no_args online_world)) =
    calls online_world
    ++ [c_controller_connect "" "CaoProv.DENSO.VRC" "localhost" ""].
Proof.
  apply (controller_connect_outcome
           obliging example_codes no_speed example_unbound no_args
           online_world).
  discriminate.
Defined.


(** X9 on the controller that hands out the handle 0. *)
Lemma handle_zero_is_connected_yet_refused_witness :
  fst (call_tool handle_zero example_codes no_speed example_unbound
                 "bcap_controller_connect" no_args online_world) =
    Rep (R_controller_connect 0).
Proof.
  apply (handle_zero_is_connected_yet_refused
           handle_zero example_codes no_speed example_unbound
           no_args no_args no_args online_world).
  - discriminate.
  - reflexivity.
Defined.

(** X10 at a gripper request on the connected session. *)
Lemma only_connection_tools_change_session_witness :
  same_session connected_world
    (snd (call_tool obliging example_codes no_speed example_unbound
                    "bcap_robot_open_gripper" no_args connected_world)).
Proof.
  apply (only_connection_tools_change_session
           obliging example_codes no_speed example_unbound
           "bcap_robot_open_gripper" no_args connected_world).
  intro H. simpl in H.
  repeat (destruct H as [H | H]; [discriminate H |]). exact H.
Defined.

(** X11 after the three connection requests. *)
Lemma metadata_describe_the_client_witness :
  described (state busy_world).
Proof.
  apply (metadata_describe_the_client
           obliging example_codes no_speed example_unbound busy_world).
  repeat constructor.
Defined.

(** ** What the requests send *)

Section Emits.

Context {S : Type} `{View S}.
Variable P : Call -> bool.

Lemma emits_ret A (a : A) : emits P (ret (S := S) a).
Proof. intro s. exists []. simpl. rewrite app_nil_r. auto. Qed.

Lemma emits_raise A e : emits P (raise (S := S) (A := A) e).
Proof. intro s. exists []. simpl. rewrite app_nil_r. auto. Qed.

Lemma emits_bind A B (m : Eff S A) (k : A -> Eff S B) :
  emits P m -> (forall a, emits P (k a)) -> emits P (bind m k).
Proof.
  intros Hm Hk s. unfold bind.
  destruct (Hm s) as (i1 & E1 & P1).
  destruct (m s) as [[e | a] s1]; simpl in *.
  - exists i1. auto.
  - destruct (Hk a s1) as (i2 & E2 & P2).
    exists (i1 ++ i2). rewrite E2, E1, app_assoc, forallb_app, P1, P2. auto.
Qed.

Lemma emits_try_except A (m : Eff S A) h :
  emits P m -> (forall e, emits P (h e)) -> emits P (try_except m h).
Proof.
  intros Hm Hh s. unfold try_except.
  destruct (Hm s) as (i1 & E1 & P1).
  destruct (m s) as [[e | a] s1]; simpl in *.
  - destruct (Hh e s1) as (i2 & E2 & P2).
    exists (i1 ++ i2). rewrite E2, E1, app_assoc, forallb_app, P1, P2. auto.
  - exists i1. auto.
Qed.

Lemma emits_when b (m : Eff S unit) : emits P m -> emits P (when b m).
Proof. intro Hm. destruct b; [exact Hm | apply emits_ret]. Qed.

Lemma emits_subscript A key (entry : option A) :
  emits P (subscript (S := S) key entry).
Proof. destruct entry; [apply emits_ret | apply emits_raise]. Qed.

End Emits.

Section EmitsWorld.

Variable P : Call -> bool.

Lemma emits_get_state : emits P get_state.
Proof. intro w. exists []. simpl. rewrite app_nil_r. auto. Qed.

Lemma emits_set_state s : emits P (set_state s).
Proof. intro w. exists []. simpl. rewrite app_nil_r. auto. Qed.

Lemma emits_invoke cl c : P c = true -> emits P (invoke cl c).
Proof. intros Hc w. exists [c]. simpl. rewrite Hc. auto. Qed.

Lemma emits_invoke_handle cl c : P c = true -> emits P (invoke_handle cl c).
Proof. intros Hc w. exists [c]. simpl. rewrite Hc. auto. Qed.

Lemma emits_lift F A (m : M A) : emits P m -> emits P (lift (F := F) m).
Proof.
  intros Hm [f w]. unfold lift, world_of, view_frame. simpl.
  destruct (Hm w) as (i & E & Pi). unfold world_of, view_world in E.
  destruct (m w) as [r w']. simpl in *. exists i. auto.
Qed.

Lemma emits_get_frame F : emits P (get_frame (F := F)).
Proof. intro s. exists []. simpl. rewrite app_nil_r. auto. Qed.

Lemma emits_set_frame F (f : F) : emits P (set_frame f).
Proof. intro s. exists []. simpl. rewrite app_nil_r. auto. Qed.

Lemma emits_modify_frame F (g : F -> F) : emits P (modify_frame g).
Proof. intro s. exists []. simpl. rewrite app_nil_r. auto. Qed.

Lemma emits_with_frame F A (f0 : F) (m : Fr F A) :
  emits P m -> emits P (with_frame f0 m).
Proof.
  intros Hm w. unfold with_frame.
  destruct (Hm (f0, w)) as (i & E & Pi).
  unfold world_of, view_frame, view_world in *.
  destruct (m (f0, w)) as [r fw]. simpl in *. exists i. auto.
Qed.

Lemma emits_on_client A (m : M A) : emits P m -> emits P (on_client m).
Proof.
  intro Hm. unfold on_client. apply emits_bind; [apply emits_get_state |].
  intro s. destruct (client s); [exact Hm | apply emits_raise].
Qed.

Lemma emits_log_operation operation params result error :
  emits P (log_operation operation params result error).
Proof. intro w. exists []. simpl. rewrite app_nil_r. auto. Qed.

End EmitsWorld.

(** The handlers' building blocks, to be looked into. *)
Create HintDb blocks.

#[export] Hint Unfold need_controller need_robot read_variable take_arm
  give_arm give_arm_if_held robot_move hand_move slv_change_mode slv_move
  set_client set_controller_handle set_robot_handle reset
  capture_initial_angles push_executed push_failed push_step push_error
  set_pick_z set_current_z set_place_y set_place_z read_local
  record_failure gripper_step slave_cleanup slice6 : blocks.

Create HintDb emits.

Ltac emits_step :=
  lazymatch goal with
  | |- emits _ (bind _ _) => apply emits_bind; [ | intro ]
  | |- emits _ (try_except _ _) => apply emits_try_except; [ | intro ]
  | |- emits _ (ret _) => apply emits_ret
  | |- emits _ (raise _) => apply emits_raise
  | |- emits _ (when _ _) => apply emits_when
  | |- emits _ (subscript _ _) => apply emits_subscript
  | |- emits _ get_state => apply emits_get_state
  | |- emits _ (set_state _) => apply emits_set_state
  | |- emits _ (invoke _ _) => apply emits_invoke; reflexivity
  | |- emits _ (invoke_handle _ _) => apply emits_invoke_handle; reflexivity
  | |- emits _ (lift _) => apply emits_lift
  | |- emits _ (on_client _) => apply emits_on_client
  | |- emits _ get_frame => apply emits_get_frame
  | |- emits _ (set_frame _) => apply emits_set_frame
  | |- emits _ (modify_frame _) => apply emits_modify_frame
  | |- emits _ (with_frame _ _) => apply emits_with_frame
  | |- emits _ (log_operation _ _ _ _) => apply emits_log_operation
  | |- emits _ (if ?b then _ else _) => destruct b
  | |- emits _ (match ?x with _ => _ end) => destruct x
  | |- emits _ _ =>
      first [ solve [eauto with emits] | progress autounfold with blocks ]
  end.

Ltac emits_tac := cbv zeta; repeat (emits_step; cbv zeta).

Section Passive.

Variable cl : Client.
Variable HResult : HResultCodes.
Variable parse_speed : string -> option float.
Variable unbound_message : string -> string.

(** Every handler but those of the motion tools sends passive calls
    only. *)
Lemma dispatch_passive name args :
  ~ In name motion_tools ->
  emits passive (dispatch cl parse_speed unbound_message name args).
Proof.
  intro Hn. unfold dispatch.
  by_name name; try solve [exfalso; apply Hn; among];
    lazymatch goal with
    | |- emits _ (raise _) => apply emits_raise
    | |- emits _ (?handler _ _) => unfold handler; emits_tac
    | |- emits _ (?handler _) => unfold handler; emits_tac
    end.
Qed.

(** What holds of the calls a handler sends holds of the calls the
    request sends. *)
Lemma call_tool_emits P name args :
  emits P (dispatch cl parse_speed unbound_message name args) ->
  forall w, exists issued,
    calls (snd (call_tool cl HResult parse_speed unbound_message
                          name args w)) = calls w ++ issued /\
    forallb P issued = true.
Proof.
  intros Hd w. rewrite call_tool_calls. exact (Hd w).
Qed.

(** X12.  A request for a tool that is not a motion tool sends passive
    calls only: it never moves the arm or the gripper, never takes or
    gives the arm and never changes the mode of the robot, whatever the
    controller answers. *)
Theorem other_tools_never_move name args w :
  ~ In name motion_tools ->
  exists issued,
    calls (snd (call_tool cl HResult parse_speed unbound_message
                          name args w)) = calls w ++ issued /\
    forallb passive issued = true.
Proof.
  intro Hn. apply call_tool_emits. apply dispatch_passive. exact Hn.
Qed.

End Passive.

(** A variable read on a connected session, for instance. *)
Lemma other_tools_never_move_witness :
  let run := call_tool obliging example_codes no_speed example_unbound
                       "bcap_robot_get_variable"
                       (args_name "@CURRENT_ANGLE") connected_world in
  ~ In "bcap_robot_get_variable" motion_tools /\
  exists issued,
    calls (snd run) = calls connected_world ++ issued /\
    forallb passive issued = true.
Proof.
  cbv zeta.
  assert (Hn : ~ In "bcap_robot_get_variable" motion_tools)
    by (simpl; intuition discriminate).
  split; [exact Hn |].
  exact (other_tools_never_move obliging example_codes no_speed
           example_unbound "bcap_robot_get_variable"
           (args_name "@CURRENT_ANGLE") connected_world Hn).
Defined.

(** ** No motion without the arm *)

Section Arm.

Variable cl : Client.

Lemma arm_app pre took i1 i2 t :
  arm cl pre took i1 = Some t ->
  arm cl pre took (i1 ++ i2) = arm cl (pre ++ i1) t i2.
Proof.
  revert pre took. induction i1 as [| c i1 IH]; intros pre took E.
  - simpl in *. injection E as <-. rewrite app_nil_r. reflexivity.
  - simpl in *. destruct (is_motion c).
    + destruct took; [| discriminate E].
      rewrite (IH _ _ E), <- app_assoc. reflexivity.
    + rewrite (IH _ _ E), <- app_assoc. reflexivity.
Qed.

Lemma arm_grows pre took issued t :
  arm cl pre took issued = Some t -> took = true -> t = true.
Proof.
  revert pre took. induction issued as [| c i IH]; intros pre took E Ht.
  - simpl in E. congruence.
  - simpl in E. subst took. destruct (is_motion c); eapply IH; eauto.
Qed.

(** Calls that are no motion commands can be sent at any time. *)
Lemma arm_no_motion pre took issued :
  forallb no_motion issued = true ->
  exists t, arm cl pre took issued = Some t.
Proof.
  revert pre took. induction issued as [| c i IH]; intros pre took Hq.
  - eexists. reflexivity.
  - simpl in *. apply andb_prop in Hq. destruct Hq as [Hc Hi].
    unfold no_motion in Hc. destruct (is_motion c); [discriminate Hc |].
    apply IH. exact Hi.
Qed.

Section Rules.

Context {S : Type} `{View S}.

Lemma arm_quiet b b' A (m : Eff S A) :
  emits no_motion m -> (b' = true -> b = true) -> keeps_arm cl b b' m.
Proof.
  intros Hm Hb s took Ht.
  destruct (Hm s) as (issued & E & Hq).
  destruct (arm_no_motion (calls (world_of s)) took issued Hq) as [t Et].
  exists issued, t. repeat split; try assumption.
  - eapply arm_grows; eassumption.
  - intros _ Hb'. eapply arm_grows; [eassumption |]. auto.
Qed.

Lemma arm_bind b b1 b2 A B (m : Eff S A) (k : A -> Eff S B) :
  keeps_arm cl b b1 m -> (forall a, keeps_arm cl b1 b2 (k a)) ->
  keeps_arm cl b b2 (bind m k).
Proof.
  intros Hm Hk s took Ht. unfold bind.
  destruct (Hm s took Ht) as (i1 & t1 & E1 & A1 & G1 & R1).
  destruct (m s) as [[e | a] s1]; simpl in *.
  - exists i1, t1. repeat split; try assumption. discriminate.
  - destruct (Hk a s1 t1 (R1 eq_refl)) as (i2 & t2 & E2 & A2 & G2 & R2).
    exists (i1 ++ i2), t2. rewrite E2, E1, app_assoc.
    rewrite (arm_app _ _ _ _ _ A1). rewrite <- E1.
    repeat split; auto.
Qed.

Lemma arm_try_except b b' A (m : Eff S A) h :
  keeps_arm cl b b' m -> (forall e, keeps_arm cl b b' (h e)) ->
  keeps_arm cl b b' (try_except m h).
Proof.
  intros Hm Hh s took Ht. unfold try_except.
  destruct (Hm s took Ht) as (i1 & t1 & E1 & A1 & G1 & R1).
  destruct (m s) as [[e | a] s1]; simpl in *.
  - assert (Ht1 : b = true -> t1 = true) by auto.
    destruct (Hh e s1 t1 Ht1) as (i2 & t2 & E2 & A2 & G2 & R2).
    exists (i1 ++ i2), t2. rewrite E2, E1, app_assoc.
    rewrite (arm_app _ _ _ _ _ A1). rewrite <- E1.
    repeat split; auto.
  - exists i1, t1. repeat split; assumption.
Qed.

End Rules.

Lemma arm_lift b b' F A (m : M A) :
  keeps_arm cl b b' m -> keeps_arm cl b b' (lift (F := F) m).
Proof.
  intros Hm [f w] took Ht. unfold lift, world_of, view_frame. simpl.
  destruct (Hm w took Ht) as (i & t & E & Ea & G & R).
  unfold world_of, view_world in *.
  destruct (m w) as [r w']. simpl in *. exists i, t. auto.
Qed.

Lemma arm_with_frame b b' F A (f0 : F) (m : Fr F A) :
  keeps_arm cl b b' m -> keeps_arm cl b b' (with_frame f0 m).
Proof.
  intros Hm w took Ht. unfold with_frame.
  destruct (Hm (f0, w) took Ht) as (i & t & E & Ea & G & R).
  unfold world_of, view_frame, view_world in *.
  destruct (m (f0, w)) as [r fw]. simpl in *. exists i, t. auto.
Qed.

Lemma arm_on_client b b' A (m : M A) :
  keeps_arm cl b b' m -> keeps_arm cl b b' (on_client m).
Proof.
  intros Hm w took Ht. unfold on_client, bind, get_state.
  destruct (client (state w)); [exact (Hm w took Ht) |].
  exists [], took. simpl. rewrite app_nil_r.
  repeat split; auto. discriminate.
Qed.

(** A motion command, sent while the arm is granted. *)
Lemma arm_invoke_motion b' c :
  is_motion c = true -> keeps_arm cl true b' (invoke cl c).
Proof.
  intros Hc w took Ht. rewrite (Ht eq_refl).
  exists [c], true. unfold invoke, world_of, view_world. simpl.
  rewrite Hc. auto.
Qed.

(** The request for the arm: granted when it returns. *)
Lemma arm_invoke_take b h param :
  keeps_arm cl b true (invoke cl (c_robot_execute h "TakeArm" param)).
Proof.
  intros w took Ht. unfold invoke, world_of, view_world. simpl.
  eexists [_], _. split; [reflexivity |]. simpl. split; [reflexivity |].
  split.
  - intros ->. reflexivity.
  - intros Hr _. rewrite Hr. apply orb_true_r.
Qed.

Lemma arm_take_arm b : keeps_arm cl b true (take_arm cl).
Proof.
  unfold take_arm.
  apply (arm_bind b b); [apply arm_quiet; [solve [emits_tac] | auto] |].
  intro s. apply (arm_bind b true).
  - apply arm_on_client, arm_invoke_take.
  - intro v. apply arm_quiet; [solve [emits_tac] | auto].
Qed.

Lemma arm_robot_move b' target kind option :
  keeps_arm cl true b' (robot_move cl target kind option).
Proof.
  unfold robot_move.
  apply (arm_bind true true); [apply arm_quiet; [solve [emits_tac] | auto] |].
  intro s. apply (arm_bind true true).
  - apply arm_on_client, arm_invoke_motion. reflexivity.
  - intro v. apply arm_quiet; [solve [emits_tac] | auto].
Qed.

Lemma arm_slv_move b' point : keeps_arm cl true b' (slv_move cl point).
Proof.
  unfold slv_move.
  apply (arm_bind true true); [apply arm_quiet; [solve [emits_tac] | auto] |].
  intro s. apply (arm_bind true true).
  - apply arm_on_client, arm_invoke_motion. reflexivity.
  - intro v. apply arm_quiet; [solve [emits_tac] | auto].
Qed.

End Arm.

Create HintDb arm.

Ltac flags :=
  first [ intro; reflexivity
        | let Hx := fresh in intro Hx; discriminate Hx
        | let Hx := fresh in intro Hx; exact Hx ].

Ltac arm_step :=
  lazymatch goal with
  | |- keeps_arm _ ?b _ (bind (take_arm _) _) =>
      apply (arm_bind _ b true); [apply arm_take_arm | intro]
  | |- keeps_arm _ ?b _ (bind (lift (take_arm _)) _) =>
      apply (arm_bind _ b true); [apply arm_lift, arm_take_arm | intro]
  | |- keeps_arm _ ?b _ (bind (invoke _ (c_robot_execute _ "TakeArm" _)) _) =>
      apply (arm_bind _ b true); [apply arm_invoke_take | intro]
  | |- keeps_arm _ ?b _ (bind _ _) => apply (arm_bind _ b b); [ | intro]
  | |- keeps_arm _ _ _ (try_except _ _) => apply arm_try_except; [ | intro]
  | |- keeps_arm _ true _ (robot_move _ _ _ _) => apply arm_robot_move
  | |- keeps_arm _ true _ (slv_move _ _) => apply arm_slv_move
  | |- keeps_arm _ true _ (invoke _ (c_robot_move _ _ _ _ _ _)) =>
      apply arm_invoke_motion; reflexivity
  | |- keeps_arm _ true _ (invoke _ (c_robot_gohome _)) =>
      apply arm_invoke_motion; reflexivity
  | |- keeps_arm _ _ _ (on_client _) => apply arm_on_client
  | |- keeps_arm _ _ _ (lift _) => apply arm_lift
  | |- keeps_arm _ _ _ (with_frame _ _) => apply arm_with_frame
  | |- keeps_arm _ _ _ (if ?b then _ else _) => destruct b
  | |- keeps_arm _ _ _ (match ?x with _ => _ end) => destruct x
  | |- keeps_arm _ _ _ _ =>
      first [ solve [eauto with arm]
            | apply arm_quiet; [solve [emits_tac] | flags] ]
  end.

Ltac arm_tac := cbv zeta; repeat (arm_step; cbv zeta).

Section ArmHandlers.

Variable cl : Client.
Variable HResult : HResultCodes.
Variable parse_speed : string -> option float.
Variable unbound_message : string -> string.

Lemma emits_validate_points P trajectory :
  forall i, emits P (validate_points i trajectory).
Proof.
  induction trajectory as [| point rest IH]; intro i; simpl.
  - apply emits_ret.
  - destruct (negb _); [apply emits_raise | apply IH].
Qed.

#[local] Hint Resolve emits_validate_points : emits.

Lemma arm_run_points move_option trajectory :
  forall i, keeps_arm cl true true (run_points cl move_option i trajectory).
Proof.
  induction trajectory as [| point rest IH]; intro i; simpl.
  - arm_tac.
  - apply (arm_bind _ true true); [| intro; apply IH].
    arm_tac.
Qed.

Lemma arm_stream_points rest :
  forall i, keeps_arm cl true true (stream_points cl i rest).
Proof.
  induction rest as [| point rest IH]; intro i; simpl.
  - arm_tac.
  - apply (arm_bind _ true true); [| intro; apply IH].
    arm_tac.
Qed.

#[local] Hint Resolve arm_run_points arm_stream_points : arm.

Lemma arm_move_to_pose args :
  keeps_arm cl false false (handle_robot_move_to_pose cl args).
Proof. unfold handle_robot_move_to_pose. arm_tac. Qed.

Lemma arm_gohome args :
  keeps_arm cl false false (handle_robot_gohome cl args).
Proof. unfold handle_robot_gohome. arm_tac. Qed.

Lemma arm_execute_trajectory args :
  keeps_arm cl false false (handle_robot_execute_trajectory cl args).
Proof. unfold handle_robot_execute_trajectory. arm_tac. Qed.

Lemma arm_execute_slave_trajectory args :
  keeps_arm cl false false (handle_robot_execute_slave_trajectory cl args).
Proof.
  unfold handle_robot_execute_slave_trajectory, slave_body. arm_tac.
Qed.

Lemma arm_move_to_joint_angles args :
  keeps_arm cl false false
            (handle_robot_move_to_joint_angles cl parse_speed args).
Proof.
  unfold handle_robot_move_to_joint_angles, joint_move_body. arm_tac.
Qed.

Lemma arm_gripper_step b step action d sp :
  keeps_arm cl b b (gripper_step cl step action d sp).
Proof. unfold gripper_step. arm_tac. Qed.

Lemma arm_move_down_to_pick b x y z rx ry rz pd :
  keeps_arm cl b b (move_down_to_pick cl unbound_message x y z rx ry rz pd).
Proof. unfold move_down_to_pick. arm_tac. Qed.

Lemma arm_lift_up b x y rx ry rz s i :
  keeps_arm cl b b (lift_up cl unbound_message x y rx ry rz s i).
Proof. unfold lift_up. arm_tac. Qed.

#[local] Hint Resolve arm_lift_up : arm.

Lemma arm_lift_up_in_three b x y rx ry rz l :
  keeps_arm cl b b (lift_up_in_three cl unbound_message x y rx ry rz l).
Proof. unfold lift_up_in_three. arm_tac. Qed.

Lemma arm_move_y_to_place b x y rx ry rz py :
  keeps_arm cl b b (move_y_to_place cl unbound_message x y rx ry rz py).
Proof. unfold move_y_to_place. arm_tac. Qed.

Lemma arm_move_down_to_place b x rx ry rz pd :
  keeps_arm cl b b (move_down_to_place cl unbound_message x rx ry rz pd).
Proof. unfold move_down_to_place. arm_tac. Qed.

Lemma arm_return_to_initial_position b x y z rx ry rz :
  keeps_arm cl b b (return_to_initial_position cl x y z rx ry rz).
Proof. unfold return_to_initial_position. arm_tac. Qed.

#[local] Hint Resolve arm_gripper_step arm_move_down_to_pick
  arm_lift_up_in_three arm_move_y_to_place arm_move_down_to_place
  arm_return_to_initial_position : arm.

Lemma arm_saga_steps b x y z rx ry rz pd lu py pdn sp :
  keeps_arm cl b b
            (saga_steps cl unbound_message x y z rx ry rz pd lu py pdn sp).
Proof. unfold saga_steps. arm_tac. Qed.

#[local] Hint Resolve arm_saga_steps : arm.

Lemma arm_pick_and_place args :
  keeps_arm cl false false
            (handle_robot_pick_and_place cl unbound_message args).
Proof.
  unfold handle_robot_pick_and_place, saga_body, saga_report. arm_tac.
Qed.

Lemma emits_weaken {S} `{View S} (P Q : Call -> bool) A (m : Eff S A) :
  (forall c, P c = true -> Q c = true) -> emits P m -> emits Q m.
Proof.
  intros HPQ Hm s. destruct (Hm s) as (issued & E & HP).
  exists issued. split; [exact E |].
  rewrite forallb_forall in *. auto.
Qed.

Lemma passive_no_motion c : passive c = true -> no_motion c = true.
Proof. destruct c; simpl; intro H; try reflexivity; discriminate H. Qed.

(** Every handler sends its motion commands after a granted [TakeArm]. *)
Lemma dispatch_keeps_arm name args :
  keeps_arm cl false false
            (dispatch cl parse_speed unbound_message name args).
Proof.
  destruct (in_dec string_dec name motion_tools) as [Hin | Hout].
  - simpl in Hin.
    repeat (destruct Hin as [<- | Hin]); try contradiction;
      cbv beta iota fix delta [dispatch String.eqb Ascii.eqb Bool.eqb].
    + apply arm_move_to_joint_angles.
    + apply arm_move_to_pose.
    + apply arm_gohome.
    + apply arm_execute_trajectory.
    + apply arm_execute_slave_trajectory.
    + apply arm_quiet; [| flags].
      unfold handle_robot_open_gripper. emits_tac.
    + apply arm_quiet; [| flags].
      unfold handle_robot_close_gripper. emits_tac.
    + apply arm_pick_and_place.
  - apply arm_quiet; [| flags].
    apply (emits_weaken passive no_motion _ _ passive_no_motion).
    apply dispatch_passive. exact Hout.
Qed.

(** What a run of the monitor that does not fail says of the calls. *)
Lemma arm_sound issued :
  forall pre took t,
    arm cl pre took issued = Some t ->
    forall k c,
      nth_error issued k = Some c -> is_motion c = true ->
      took = true \/
      exists j c',
        j < k /\ nth_error issued j = Some c' /\
        grants cl (pre ++ firstn j issued) c' = true.
Proof.
  induction issued as [| c0 rest IH]; intros pre took t E k c Hk Hc.
  - destruct k; discriminate Hk.
  - simpl in E. destruct k as [| k].
    + injection Hk as ->. rewrite Hc in E.
      destruct took; [left; reflexivity | discriminate E].
    + simpl in Hk. destruct (is_motion c0) eqn:Hc0.
      * destruct took; [left; reflexivity | discriminate E].
      * destruct (IH _ _ _ E k c Hk Hc) as [Ht | (j & c' & Hj & Hn & Hg)].
        -- apply orb_prop in Ht. destruct Ht as [Ht | Hg];
             [left; exact Ht |].
           right. exists 0, c0. simpl. rewrite app_nil_r.
           repeat split; [lia | exact Hg].
        -- right. exists (Datatypes.S j), c'. simpl.
           rewrite <- app_assoc in Hg. repeat split; [lia | exact Hn |].
           exact Hg.
Qed.

(** X13.  No request ever sends a motion command (a move, the return to
    the home position, a streamed point) without the arm: every motion
    command that a request sends comes after a [TakeArm] command of the
    same request that the controller granted.  This holds for every tool,
    every argument bag, every session and every behaviour of the
    controller. *)
Theorem motion_needs_granted_arm name args w :
  exists issued,
    calls (snd (call_tool cl HResult parse_speed unbound_message
                          name args w)) = calls w ++ issued /\
    forall k c,
      nth_error issued k = Some c -> is_motion c = true ->
      exists j c',
        j < k /\ nth_error issued j = Some c' /\
        grants cl (calls w ++ firstn j issued) c' = true.
Proof.
  destruct (dispatch_keeps_arm name args w false ltac:(discriminate))
    as (issued & t & E & Ea & _).
  unfold world_of, view_world in *.
  exists issued. split; [rewrite call_tool_calls; exact E |].
  intros k c Hk Hc.
  destruct (arm_sound issued _ _ _ Ea k c Hk Hc) as [Ht | Hj];
    [discriminate Ht | exact Hj].
Qed.

End ArmHandlers.

(** ** The gripper *)

Section Gripper.

Variable cl : Client.
Variable HResult : HResultCodes.
Variable parse_speed : string -> option float.
Variable unbound_message : string -> string.

(** X14.  The two gripper tools check the distance before anything is
    sent.  On a session with a controller handle: when the distance (the
    given one, or the default 0.03 of the open tool and 0 of the close
    tool) is not between 0 and 0.03, a distance that is not a number
    included, the request is refused with the [ValueError], logged, and
    nothing is sent; otherwise exactly one [HandMoveA] command is sent, for
    the distance times 1000 and the speed, and the reply is a success
    exactly when the controller accepts it. *)
Theorem gripper_distance_is_checked name args w :
  gripper_tool name = true ->
  truthy (controller_handle (state w)) = true ->
  client (state w) <> None ->
  let opening := name =? "bcap_robot_open_gripper" in
  let dist := dict_get (arg_dist args) (if opening then 0.030 else 0)%float in
  let speed := dict_get (arg_speed args) (if opening then 100 else 20)%float in
  let c := hand_call (controller_handle (state w)) (dist * 1000)%float
                     speed in
  let run := call_tool cl HResult parse_speed unbound_message name args w in
  dist_in_range nan = false /\
  if dist_in_range dist then
    calls (snd run) = calls w ++ [c] /\
    match reply_value cl (calls w) c with
    | inr _ =>
        fst run =
          Rep (R_gripper (if opening then "open_gripper" else "close_gripper")
                         (dist * 1000)%float speed)
    | inl _ => reply_success (fst run) = Some false
    end
  else
    run = refusal name args "Distance must be between 0 and 0.03 meters" w.
Proof.
  intros Hg Hctrl Hclient opening dist speed c run.
  split; [reflexivity |].
  unfold gripper_tool in Hg. apply orb_prop in Hg.
  destruct Hg as [Hn | Hn]; apply String.eqb_eq in Hn; subst name;
    subst opening; cbv beta iota fix delta
                       [String.eqb Ascii.eqb Bool.eqb] in dist, speed |- *;
    destruct (dist_in_range dist) eqn:Hd;
    unfold run, call_tool;
    cbv beta iota fix delta [dispatch String.eqb Ascii.eqb Bool.eqb].
  - unfold handle_robot_open_gripper. fold dist speed.
    rewrite (gripper_body_run cl "bcap_robot_open_gripper" "open_gripper"
                              args dist speed w Hctrl Hclient Hd).
    cbv zeta. fold c.
    destruct (reply_value cl (calls w) c) as [e | v];
      [destruct e |]; split; reflexivity.
  - unfold handle_robot_open_gripper. fold dist speed.
    erewrite bind_run by (apply need_controller_run; exact Hctrl).
    rewrite Hd. reflexivity.
  - unfold handle_robot_close_gripper. fold dist speed.
    rewrite (gripper_body_run cl "bcap_robot_close_gripper" "close_gripper"
                              args dist speed w Hctrl Hclient Hd).
    cbv zeta. fold c.
    destruct (reply_value cl (calls w) c) as [e | v];
      [destruct e |]; split; reflexivity.
  - unfold handle_robot_close_gripper. fold dist speed.
    erewrite bind_run by (apply need_controller_run; exact Hctrl).
    rewrite Hd. reflexivity.
Qed.

(** X15.  Opening and closing are the same command.  With the distance
    and the speed both given, [bcap_robot_open_gripper] and
    [bcap_robot_close_gripper] send the same calls to the protocol client
    and leave the same session, in every world and whatever the controller
    answers: the two tools differ in their defaults and in the label of
    the result only. *)
Theorem open_and_close_send_the_same_command args w dist speed :
  arg_dist args = Some dist ->
  arg_speed args = Some speed ->
  let opened := call_tool cl HResult parse_speed unbound_message
                          "bcap_robot_open_gripper" args w in
  let closed := call_tool cl HResult parse_speed unbound_message
                          "bcap_robot_close_gripper" args w in
  calls (snd opened) = calls (snd closed) /\
  same_session (snd closed) (snd opened) /\
  reply_success (fst opened) = reply_success (fst closed).
Proof.
  intros Hd Hs opened closed. unfold opened, closed, call_tool.
  cbv beta iota fix delta [dispatch String.eqb Ascii.eqb Bool.eqb].
  unfold handle_robot_open_gripper, handle_robot_close_gripper.
  rewrite Hd, Hs. cbn [dict_get]. cbv zeta.
  unfold bind, ret. lockstep.
  all: repeat split.
Qed.

End Gripper.

(** X14 at an open request without arguments on the connected session. *)
Lemma gripper_distance_is_checked_witness :
  calls (snd (call_tool obliging example_codes no_speed example_unbound
                        "bcap_robot_open_gripper" no_args connected_world))
  = [hand_call (Some 1%Z) (0.030 * 1000)%float 100%float].
Proof.
  apply (gripper_distance_is_checked
           obliging example_codes no_speed example_unbound
           "bcap_robot_open_gripper" no_args connected_world).
  - reflexivity.
  - reflexivity.
  - discriminate.
Defined.

(** X15 at a request for 10 mm at speed 50 on the connected session. *)
Lemma open_and_close_send_the_same_command_witness :
  calls (snd (call_tool obliging example_codes no_speed example_unbound
                        "bcap_robot_open_gripper"
                        (Build_Args None None None None None None None None
                                    None None (Some 50%float) None
                                    (Some 0.01%float) None None None None
                                    None None)
                        connected_world)) =
  calls (snd (call_tool obliging example_codes no_speed example_unbound
                        "bcap_robot_close_gripper"
                        (Build_Args None None None None None None None None
                                    None None (Some 50%float) None
                                    (Some 0.01%float) None None None None
                                    None None)
                        connected_world)).
Proof.
  apply (open_and_close_send_the_same_command
           obliging example_codes no_speed example_unbound
           (Build_Args None None None None None None None None None None
                       (Some 50%float) None (Some 0.01%float) None None None
                       None None None)
           connected_world 0.01%float 50%float eq_refl eq_refl).
Defined.

(** ** Targets that are not six values *)

Section Shapes.

Variable cl : Client.
Variable HResult : HResultCodes.
Variable parse_speed : string -> option float.
Variable unbound_message : string -> string.

(** The validation loop stops at the first point that has not six
    values and names it, counting from 1. *)
Lemma validate_points_first_bad trajectory :
  forall i w k point,
    nth_error trajectory k = Some point ->
    List.length point <> 6 ->
    forallb six (firstn k trajectory) = true ->
    validate_points i trajectory w =
      (inl (ValueError ("Trajectory point " ++ string_of_nat (i + k + 1)
                        ++ " must have 6 joint angle values")), w).
Proof.
  induction trajectory as [| p rest IH]; intros i w k point Hk Hlen Hok.
  - destruct k; discriminate Hk.
  - destruct k as [| k].
    + injection Hk as ->. simpl.
      destruct (Nat.eqb_spec (List.length point) 6) as [E | _];
        [contradiction |].
      simpl. rewrite Nat.add_0_r. reflexivity.
    + simpl in Hk, Hok. apply andb_prop in Hok. destruct Hok as [Hp Hok].
      simpl. unfold six in Hp. rewrite Hp. simpl.
      rewrite (IH (Datatypes.S i) w k point Hk Hlen Hok).
      replace (Datatypes.S i + k + 1) with (i + Datatypes.S k + 1) by lia.
      reflexivity.
Qed.

(** X16.  Targets that have not six values are refused before anything is
    sent, on a session with a robot handle.  Both trajectory executors
    name the first offending point, counting from 1, whatever comes after
    it; the single pose move refuses a pose that has not six values.  In
    each case the error is logged, the session is as it was and the
    protocol client is not contacted. *)
Theorem malformed_targets_are_refused w :
  truthy (robot_handle (state w)) = true ->
  (forall name args trajectory k point,
      name = "bcap_robot_execute_trajectory" \/
      name = "bcap_robot_execute_slave_trajectory" ->
      arg_trajectory args = Some trajectory ->
      nth_error trajectory k = Some point ->
      List.length point <> 6 ->
      forallb six (firstn k trajectory) = true ->
      call_tool cl HResult parse_speed unbound_message name args w =
        refusal name args
                ("Trajectory point " ++ string_of_nat (k + 1)
                 ++ " must have 6 joint angle values") w) /\
  (forall args pose,
      arg_pose args = Some pose ->
      List.length pose <> 6 ->
      call_tool cl HResult parse_speed unbound_message
                "bcap_robot_move_to_pose" args w =
        refusal "bcap_robot_move_to_pose" args
                "Position and orientation must be 6 values [x(mm), y(mm), z(mm), rx(deg), ry(deg), rz(deg)]"
                w).
Proof.
  intro Hrobot. split.
  - intros name args trajectory k point Hname Ht Hk Hlen Hok.
    destruct Hname as [-> | ->]; unfold call_tool;
      cbv beta iota fix delta [dispatch String.eqb Ascii.eqb Bool.eqb].
    + unfold handle_robot_execute_trajectory.
      erewrite bind_run by (apply need_robot_run; exact Hrobot).
      erewrite bind_run by (rewrite Ht; reflexivity).
      cbv zeta.
      erewrite bind_raise
        by (apply (validate_points_first_bad trajectory 0 w k point Hk Hlen
                                             Hok)).
      reflexivity.
    + unfold handle_robot_execute_slave_trajectory.
      erewrite bind_run by (apply need_robot_run; exact Hrobot).
      erewrite bind_run by (rewrite Ht; reflexivity).
      erewrite bind_raise
        by (apply (validate_points_first_bad trajectory 0 w k point Hk Hlen
                                             Hok)).
      reflexivity.
  - intros args pose Hp Hlen. unfold call_tool.
    cbv beta iota fix delta [dispatch String.eqb Ascii.eqb Bool.eqb].
    unfold handle_robot_move_to_pose.
    erewrite bind_run by (apply need_robot_run; exact Hrobot).
    erewrite bind_run by (rewrite Hp; reflexivity).
    cbv zeta.
    destruct (Nat.eqb_spec (List.length pose) 6) as [E | _];
      [contradiction |].
    reflexivity.
Qed.

End Shapes.

(** X16 on the connected session, for a trajectory whose second point has
    five values. *)
Lemma malformed_targets_are_refused_witness :
  call_tool obliging example_codes no_speed example_unbound
            "bcap_robot_execute_trajectory"
            (args_trajectory [origin; [1; 2; 3; 4; 5]%float; origin])
            connected_world =
    refusal "bcap_robot_execute_trajectory"
            (args_trajectory [origin; [1; 2; 3; 4; 5]%float; origin])
            "Trajectory point 2 must have 6 joint angle values"
            connected_world.
Proof.
  apply (proj1 (malformed_targets_are_refused
                  obliging example_codes no_speed example_unbound
                  connected_world eq_refl)
               "bcap_robot_execute_trajectory"
               (args_trajectory [origin; [1; 2; 3; 4; 5]%float; origin])
               [origin; [1; 2; 3; 4; 5]%float; origin] 1
               [1; 2; 3; 4; 5]%float).
  - left. reflexivity.
  - reflexivity.
  - reflexivity.
  - discriminate.
  - reflexivity.
Defined.

(** ** Reading a variable, going home *)

Section Reads.

Variable cl : Client.
Variable HResult : HResultCodes.
Variable parse_speed : string -> option float.
Variable unbound_message : string -> string.

Lemma handle_call_run c w :
  client (state w) <> None ->
  on_client (invoke_handle cl c) w = (reply_handle cl (calls w) c, sent w c).
Proof.
  intro Hclient. unfold on_client, bind, get_state.
  destruct (client (state w)); [reflexivity | contradiction].
Qed.

(** The three calls of a variable read, each made only when the one
    before it went through. *)
Lemma read_variable_run name option w :
  client (state w) <> None ->
  read_variable cl name option w =
    let c1 := c_robot_getvariable (robot_handle (state w)) name option in
    match reply_handle cl (calls w) c1 with
    | inl e => (inl e, sent w c1)
    | inr vh =>
        let c2 := c_variable_getvalue vh in
        let c3 := c_variable_release vh in
        match reply_value cl (calls w ++ [c1]) c2 with
        | inl e => (inl e, sent (sent w c1) c2)
        | inr v =>
            match reply_value cl (calls w ++ [c1; c2]) c3 with
            | inl e => (inl e, sent (sent (sent w c1) c2) c3)
            | inr _ => (inr v, sent (sent (sent w c1) c2) c3)
            end
        end
    end.
Proof.
  intro Hclient. cbv zeta. unfold read_variable.
  erewrite bind_run by reflexivity.
  unfold bind at 1. rewrite (handle_call_run _ w Hclient).
  destruct (reply_handle cl (calls w) _) as [e | vh]; [reflexivity |].
  unfold bind at 1.
  rewrite (client_call_run cl _ (sent w _) Hclient). simpl calls.
  destruct (reply_value cl (calls w ++ [_]) (c_variable_getvalue vh))
    as [e | v]; [reflexivity |].
  unfold bind at 1.
  rewrite (client_call_run cl _ (sent (sent w _) _) Hclient). simpl calls.
  rewrite <- app_assoc. simpl app.
  destruct (reply_value cl _ (c_variable_release vh)) as [e | v0];
    reflexivity.
Qed.

(** X17.  Reading a robot variable sends [robot_getvariable], then
    [variable_getvalue], then [variable_release], each only when the call
    before it went through.  The reply carries the value that
    [variable_getvalue] returned, and only when the release went through
    as well.  When [variable_getvalue] raises, the variable handle is not
    released. *)
Theorem variable_read_outcome args name w :
  arg_name args = Some name ->
  truthy (robot_handle (state w)) = true ->
  client (state w) <> None ->
  let run := call_tool cl HResult parse_speed unbound_message
                       "bcap_robot_get_variable" args w in
  let c1 := c_robot_getvariable (robot_handle (state w)) name
                                (dict_get (arg_option args) "") in
  match reply_handle cl (calls w) c1 with
  | inl _ =>
      calls (snd run) = calls w ++ [c1] /\
      reply_success (fst run) = Some false
  | inr vh =>
      let c2 := c_variable_getvalue vh in
      let c3 := c_variable_release vh in
      match reply_value cl (calls w ++ [c1]) c2 with
      | inl _ =>
          calls (snd run) = calls w ++ [c1; c2] /\
          reply_success (fst run) = Some false
      | inr v =>
          calls (snd run) = calls w ++ [c1; c2; c3] /\
          match reply_value cl (calls w ++ [c1; c2]) c3 with
          | inl _ => reply_success (fst run) = Some false
          | inr _ => fst run = Rep (R_variable name v)
          end
      end
  end.
Proof.
  intros Hname Hrobot Hclient run c1.
  assert (E : handle_robot_get_variable cl args w =
              bind (read_variable cl name (dict_get (arg_option args) ""))
                   (fun value =>
                      log_operation "bcap_robot_get_variable" args
                                    (Some (R_variable name value)) None ;;
                      ret (Rep (R_variable name value))) w).
  { unfold handle_robot_get_variable.
    erewrite bind_run by (apply need_robot_run; exact Hrobot).
    erewrite bind_run by (rewrite Hname; reflexivity).
    reflexivity. }
  unfold bind at 1 in E.
  rewrite (read_variable_run name _ w Hclient) in E. cbv zeta in E.
  fold c1 in E.
  unfold run, call_tool.
  cbv beta iota fix delta [dispatch String.eqb Ascii.eqb Bool.eqb].
  rewrite E. clear E.
  destruct (reply_handle cl (calls w) c1) as [e | vh].
  { destruct e; split; reflexivity. }
  destruct (reply_value cl (calls w ++ [c1]) _) as [e | v].
  { destruct e; simpl; rewrite <- app_assoc; split; reflexivity. }
  destruct (reply_value cl (calls w ++ [c1; _]) _) as [e | v0].
  - destruct e; simpl; rewrite <- !app_assoc; split; reflexivity.
  - simpl. rewrite <- !app_assoc. split; reflexivity.
Qed.

(** X18.  Going home gives the arm up first, and does not mind when that
    fails.  Once the current angles are read, the handler sends [GiveArm],
    then [TakeArm], then, only when the arm was granted, [robot_gohome];
    the reply is a success, carrying the angles read, exactly when
    [TakeArm] and [robot_gohome] went through, whatever the answer to
    [GiveArm] was. *)
Theorem gohome_outcome args w vh v v0 :
  truthy (robot_handle (state w)) = true ->
  client (state w) <> None ->
  let rh := robot_handle (state w) in
  let c1 := c_robot_getvariable rh "@CURRENT_ANGLE" "" in
  let c2 := c_variable_getvalue vh in
  let c3 := c_variable_release vh in
  reply_handle cl (calls w) c1 = inr vh ->
  reply_value cl (calls w ++ [c1]) c2 = inr v ->
  reply_value cl (calls w ++ [c1; c2]) c3 = inr v0 ->
  let run := call_tool cl HResult parse_speed unbound_message
                       "bcap_robot_gohome" args w in
  let read := calls w ++ [c1; c2; c3] in
  match reply_value cl (read ++ [give_arm_call rh]) (take_arm_call rh) with
  | inl _ =>
      calls (snd run) = read ++ [give_arm_call rh; take_arm_call rh] /\
      reply_success (fst run) = Some false
  | inr _ =>
      calls (snd run) =
        read ++ [give_arm_call rh; take_arm_call rh; c_robot_gohome rh] /\
      match reply_value cl (read ++ [give_arm_call rh; take_arm_call rh])
                        (c_robot_gohome rh)
      with
      | inl _ => reply_success (fst run) = Some false
      | inr _ => fst run = Rep (R_gohome v)
      end
  end.
Proof.
  intros Hrobot Hclient rh c1 c2 c3 H1 H2 H3 run read.
  set (w3 := sent (sent (sent w c1) c2) c3).
  assert (Hc3 : client (state w3) <> None) by exact Hclient.
  assert (Hcalls : calls w3 = read).
  { unfold w3, read, sent. simpl. rewrite <- !app_assoc. reflexivity. }
  set (w4 := sent w3 (give_arm_call rh)).
  set (w5 := sent w4 (take_arm_call rh)).
  assert (Hc4 : calls w4 = read ++ [give_arm_call rh])
    by (change (calls w4) with (calls w3 ++ [give_arm_call rh]);
        rewrite Hcalls; reflexivity).
  assert (Hc5 : calls w5 = read ++ [give_arm_call rh; take_arm_call rh])
    by (change (calls w5) with (calls w4 ++ [take_arm_call rh]);
        rewrite Hc4, <- app_assoc; reflexivity).
  (* the arm is given up, whatever the answer *)
  assert (Hgive : give_arm_if_held cl w3 = (inr tt, w4)).
  { change (give_arm_if_held cl)
      with (try_except (give_arm cl) (fun _ => ret (S := World) tt)).
    unfold try_except. rewrite (give_arm_run cl w3 Hc3).
    destruct (reply_value cl (calls w3) _); reflexivity. }
  assert (E : handle_robot_gohome cl args w =
              match reply_value cl (calls w4) (take_arm_call rh) with
              | inl e => (inl e, w5)
              | inr _ =>
                  match reply_value cl (calls w5) (c_robot_gohome rh) with
                  | inl e => (inl e, sent w5 (c_robot_gohome rh))
                  | inr _ =>
                      (inr (Rep (R_gohome v)),
                       logged "bcap_robot_gohome" args (Some (R_gohome v))
                              None (sent w5 (c_robot_gohome rh)))
                  end
              end).
  { unfold handle_robot_gohome.
    erewrite bind_run by (apply need_robot_run; exact Hrobot).
    erewrite bind_run
      by (rewrite (read_variable_run _ _ w Hclient); cbv zeta;
          fold rh; fold c1; rewrite H1; fold c2; rewrite H2;
          fold c3; rewrite H3; reflexivity).
    erewrite bind_run by exact Hgive.
    unfold bind at 1. rewrite (take_arm_run cl w4 Hclient).
    change (robot_handle (state w4)) with rh. fold w5.
    destruct (reply_value cl (calls w4) (take_arm_call rh)) as [e | v1];
      [reflexivity |].
    simpl dropped. cbv iota.
    erewrite bind_run by reflexivity.
    unfold bind at 1. rewrite (client_call_run cl _ w5 Hclient).
    change (robot_handle (state w5)) with rh.
    destruct (reply_value cl (calls w5) (c_robot_gohome rh)); reflexivity. }
  unfold run, call_tool.
  cbv beta iota fix delta [dispatch String.eqb Ascii.eqb Bool.eqb].
  rewrite E, Hc4, Hc5. clear E.
  destruct (reply_value cl (read ++ [give_arm_call rh]) (take_arm_call rh))
    as [e | v1].
  { destruct e; cbn [fst snd reply_success];
      change (calls (snd (log_operation ?o ?p ?r ?e0 w5))) with (calls w5);
      rewrite Hc5; split; reflexivity. }
  assert (Hc6 : calls (sent w5 (c_robot_gohome rh)) =
                read ++ [give_arm_call rh; take_arm_call rh;
                         c_robot_gohome rh])
    by (change (calls (sent w5 (c_robot_gohome rh)))
          with (calls w5 ++ [c_robot_gohome rh]);
        rewrite Hc5, <- app_assoc; reflexivity).
  destruct (reply_value cl (read ++ [give_arm_call rh; take_arm_call rh])
                        (c_robot_gohome rh)) as [e | v2].
  - destruct e; cbn [fst snd reply_success];
      change (calls (snd (log_operation ?o ?p ?r ?e0
                                        (sent w5 (c_robot_gohome rh)))))
        with (calls (sent w5 (c_robot_gohome rh)));
      rewrite Hc6; split; reflexivity.
  - cbn [fst snd].
    change (calls (logged ?o ?p ?r ?e0 (sent w5 (c_robot_gohome rh))))
      with (calls (sent w5 (c_robot_gohome rh))).
    rewrite Hc6. split; reflexivity.
Qed.

End Reads.

(** X17 at a read of the current angles on the connected session. *)
Lemma variable_read_outcome_witness :
  fst (call_tool obliging example_codes no_speed example_unbound
                 "bcap_robot_get_variable" (args_name "@CURRENT_ANGLE")
                 connected_world) =
    Rep (R_variable "@CURRENT_ANGLE" (VList (map VFloat example_pose))).
Proof.
  apply (variable_read_outcome
           obliging example_codes no_speed example_unbound
           (args_name "@CURRENT_ANGLE") "@CURRENT_ANGLE" connected_world
           eq_refl eq_refl).
  discriminate.
Defined.

(** X18 on the connected session. *)
Lemma gohome_outcome_witness :
  fst (call_tool obliging example_codes no_speed example_unbound
                 "bcap_robot_gohome" no_args connected_world) =
    Rep (R_gohome (VList (map VFloat example_pose))).
Proof.
  apply (gohome_outcome
           obliging example_codes no_speed example_unbound no_args
           connected_world 1%Z (VList (map VFloat example_pose)) VNone
           eq_refl ltac:(discriminate) eq_refl eq_refl eq_refl).
Defined.

(** ** Error descriptions *)

Section Descriptions.

Variable HResult : HResultCodes.

(** The look-up in the dictionary literal: the last entry under a key is
    the one that counts. *)
Lemma dict_find_cases key items :
  forall found,
    (dict_find key items found = found /\ ~ In key (map fst items)) \/
    (exists text,
        dict_find key items found = Some text /\ In (key, text) items).
Proof.
  induction items as [| [k v] rest IH]; intro found; simpl.
  - left. split; [reflexivity | intros []].
  - destruct (Z.eqb_spec k key) as [-> | Hne].
    + right. destruct (IH (Some v)) as [[E _] | (text & E & Hin)].
      * exists v. split; [exact E | left; reflexivity].
      * exists text. split; [exact E | right; exact Hin].
    + destruct (IH found) as [[E Hout] | (text & E & Hin)].
      * left. split; [exact E |]. intros [H | H]; [contradiction | auto].
      * right. exists text. split; [exact E | right; exact Hin].
Qed.

Lemma dict_find_unique key text items :
  NoDup (map fst items) -> In (key, text) items ->
  forall found, dict_find key items found = Some text.
Proof.
  induction items as [| [k v] rest IH]; intros Hnd Hin found.
  - destruct Hin.
  - simpl in *. inversion Hnd as [| ? ? Hout Hrest]. subst.
    destruct Hin as [E | Hin].
    + injection E as -> ->. rewrite Z.eqb_refl.
      destruct (dict_find_cases key rest (Some text))
        as [[E _] | (t & _ & Hin)]; [exact E |].
      exfalso. apply Hout. apply (in_map fst) in Hin. exact Hin.
    + destruct (Z.eqb_spec k key) as [-> | Hne].
      * exfalso. apply Hout. apply (in_map fst) in Hin. exact Hin.
      * apply IH; assumption.
Qed.

(** X19.  [get_error_description] looks the code up in its table of seven
    entries.  A code of the table gets a description the table pairs with
    it, and the one the table pairs with it when the seven codes are
    distinct; [E_FAIL], the last entry, always gets "Operation failed";
    any other code gets "Unknown error (code)". *)
Theorem error_description_lookup hresult :
  List.length (error_map HResult) = 7 /\
  (In hresult (map fst (error_map HResult)) ->
   In (hresult, get_error_description HResult hresult)
      (error_map HResult)) /\
  (NoDup (map fst (error_map HResult)) ->
   forall text,
     In (hresult, text) (error_map HResult) ->
     get_error_description HResult hresult = text) /\
  (~ In hresult (map fst (error_map HResult)) ->
   get_error_description HResult hresult =
     ("Unknown error (" ++ string_of_Z hresult ++ ")")%string) /\
  get_error_description HResult (E_FAIL HResult) = "Operation failed".
Proof.
  split; [reflexivity |]. unfold get_error_description.
  split; [| split; [| split]].
  - intro Hin.
    destruct (dict_find_cases hresult (error_map HResult) None)
      as [[_ Hout] | (text & E & Ht)]; [contradiction |].
    rewrite E. exact Ht.
  - intros Hnd text Hin.
    rewrite (dict_find_unique hresult text _ Hnd Hin). reflexivity.
  - intro Hout.
    destruct (dict_find_cases hresult (error_map HResult) None)
      as [[E _] | (text & _ & Ht)].
    + rewrite E. reflexivity.
    + exfalso. apply Hout. apply (in_map fst) in Ht. exact Ht.
  - simpl. rewrite Z.eqb_refl. reflexivity.
Qed.

End Descriptions.

(** ** What the log records *)

Section Reports.

Context {S : Type} `{View S}.

Lemma reports_raise name args e :
  reports name args (raise (S := S) (A := Reply) e).
Proof. intro s. reflexivity. Qed.

Lemma reports_bind A name args (m : Eff S A) (k : A -> Eff S Reply) :
  stable same_log m -> (forall a, reports name args (k a)) ->
  reports name args (bind m k).
Proof.
  intros Hm Hk s. unfold bind.
  specialize (Hm s). unfold same_log in Hm.
  destruct (m s) as [[e | a] s1]; simpl in *.
  - exact Hm.
  - specialize (Hk a s1).
    destruct (k a s1) as [[e | b] s2]; rewrite <- Hm; exact Hk.
Qed.

End Reports.

Lemma reports_log name args res :
  reports name args (bind (log_operation name args (Some res) None)
                          (fun _ => ret (Rep res))).
Proof. intro w. simpl. eexists. split; reflexivity. Qed.

Lemma reports_lift_log F name args res :
  reports name args (bind (lift (F := F)
                                (log_operation name args (Some res) None))
                          (fun _ => ret (Rep res))).
Proof. intros [f w]. simpl. eexists. split; reflexivity. Qed.

Lemma reports_with_frame F name args (f0 : F) (m : Fr F Reply) :
  reports name args m -> reports name args (with_frame f0 m).
Proof.
  intros Hm w. specialize (Hm (f0, w)). unfold with_frame in *.
  destruct (m (f0, w)) as [[e | a] fw]; exact Hm.
Qed.

Ltac reports_step :=
  lazymatch goal with
  | |- reports _ _ (bind (log_operation _ _ _ _) _) => apply reports_log
  | |- reports _ _ (bind (lift (log_operation _ _ _ _)) _) =>
      apply reports_lift_log
  | |- reports _ _ (bind _ _) =>
      apply reports_bind; [ solve [stable_tac] | intro ]
  | |- reports _ _ (raise _) => apply reports_raise
  | |- reports _ _ (with_frame _ _) => apply reports_with_frame
  | |- reports _ _ (if ?b then _ else _) => destruct b
  | |- reports _ _ (match ?x with _ => _ end) => destruct x
  end.

Ltac reports_tac := cbv zeta; repeat (reports_step; cbv zeta).

Section Recorded.

Variable cl : Client.
Variable HResult : HResultCodes.
Variable parse_speed : string -> option float.
Variable unbound_message : string -> string.

#[local] Hint Resolve log_set_client log_set_controller_handle
  log_set_robot_handle reset_keeps_log : stable.

(** Every handler that logs records the result it returns, under the name
    of its tool and with the parameters it was given. *)
Lemma dispatch_reports name args w :
  ~ In name unlogged_tools ->
  (name = "bcap_disconnect" -> client (state w) <> None) ->
  match dispatch cl parse_speed unbound_message name args w with
  | (inr r, w') =>
      exists res,
        r = Rep res /\
        operation_log (state w') =
          operation_log (state w) ++
          [{| le_operation := name; le_params := args;
              le_result := Some res; le_error := None |}]
  | (inl _, w') => operation_log (state w') = operation_log (state w)
  end.
Proof.
  intros Hn Hdisc.
  assert (Hr : name <> "bcap_disconnect" ->
               reports name args
                       (dispatch cl parse_speed unbound_message name args)).
  { intro Hnd. unfold dispatch.
    by_name name; try solve [exfalso; apply Hn; among]; try congruence;
      lazymatch goal with
      | |- reports _ _ (raise _) => apply reports_raise
      | |- reports _ _ (?handler _ _ _) => unfold handler; reports_tac
      | |- reports _ _ (?handler _ _) => unfold handler; reports_tac
      end. }
  destruct (string_dec name "bcap_disconnect") as [-> | Hnd].
  - specialize (Hdisc eq_refl).
    cbv beta iota fix delta [dispatch String.eqb Ascii.eqb Bool.eqb].
    unfold handle_disconnect, bind, get_state.
    destruct (client (state w)) eqn:E; [| contradiction]. simpl.
    destruct (reset_cases cl w) as [R | (e & i & r & _ & _ & R)];
      rewrite R; simpl.
    + eexists. split; reflexivity.
    + reflexivity.
  - exact (Hr Hnd w).
Qed.

(** X20.  The log records what was answered.  A request for a tool that
    logs (every tool but the status query, the log read and the single
    joint move; a disconnect when there is a client) appends exactly one
    entry, and that entry carries the name of the tool, the parameters of
    the request, and either the result that the reply carries, or the
    error text that the reply carries, never both. *)
Theorem log_records_the_reply name args w :
  ~ In name unlogged_tools ->
  (name = "bcap_disconnect" -> client (state w) <> None) ->
  let run := call_tool cl HResult parse_speed unbound_message name args w in
  exists entry,
    entry_of name args (fst run) = Some entry /\
    operation_log (state (snd run)) = operation_log (state w) ++ [entry].
Proof.
  intros Hn Hdisc run. unfold run, call_tool.
  pose proof (dispatch_reports name args w Hn Hdisc) as Hd.
  destruct (dispatch cl parse_speed unbound_message name args w)
    as [[e | r] w'].
  - destruct e; simpl; rewrite Hd; eexists; split; reflexivity.
  - destruct Hd as (res & -> & Hl). simpl. rewrite Hl.
    eexists. split; reflexivity.
Qed.

(** X21.  What was just logged is what a log read returns last.  After a
    request for a tool that logs, a log read with a positive limit (or
    with none) returns a sequence that ends with the entry of that
    request, counts one more operation than before, and leaves the world
    as it was. *)
Theorem last_request_is_read_back name args a w :
  ~ In name unlogged_tools ->
  (name = "bcap_disconnect" -> client (state w) <> None) ->
  (0 < dict_get (arg_limit a) 50%Z)%Z ->
  let run := call_tool cl HResult parse_speed unbound_message name args w in
  exists entry earlier,
    entry_of name args (fst run) = Some entry /\
    call_tool cl HResult parse_speed unbound_message
              "bcap_get_operation_log" a (snd run) =
      (Rep_log (Datatypes.S (List.length (operation_log (state w))))
               (Datatypes.S (List.length earlier))
               (earlier ++ [entry]),
       snd run).
Proof.
  intros Hn Hdisc Hlimit run.
  assert (Hrec : exists entry,
             entry_of name args (fst run) = Some entry /\
             operation_log (state (snd run)) =
               operation_log (state w) ++ [entry]).
  { unfold run, call_tool.
    pose proof (dispatch_reports name args w Hn Hdisc) as Hd.
    destruct (dispatch cl parse_speed unbound_message name args w)
      as [[e | r] w'].
    - destruct e; simpl; rewrite Hd; eexists; split; reflexivity.
    - destruct Hd as (res & -> & Hl). simpl. rewrite Hl.
      eexists. split; reflexivity. }
  destruct Hrec as (entry & He & Hl).
  set (limit := dict_get (arg_limit a) 50%Z) in *.
  set (old := operation_log (state w)) in *.
  exists entry, (skipn (List.length old + 1 - Z.to_nat limit) old).
  split; [exact He |].
  unfold call_tool.
  cbv beta iota fix delta [dispatch String.eqb Ascii.eqb Bool.eqb].
  unfold handle_get_operation_log, bind, get_state, ret. fold limit.
  cbv beta iota zeta. rewrite Hl.
  assert (Hs : slice_from (- limit) (old ++ [entry]) =
               skipn (List.length old + 1 - Z.to_nat limit) old ++ [entry]).
  { unfold slice_from. rewrite length_app. simpl List.length.
    destruct (Z.ltb_spec (- limit) 0) as [_ | Hge]; [| lia].
    replace (Z.to_nat (Z.max (Z.of_nat (List.length old + 1) + - limit) 0))
      with (List.length old + 1 - Z.to_nat limit) by lia.
    rewrite skipn_app.
    replace (List.length old + 1 - Z.to_nat limit - List.length old)
      with 0 by lia.
    reflexivity. }
  rewrite Hs. rewrite !length_app. simpl List.length.
  replace (List.length old + 1) with (Datatypes.S (List.length old)) by lia.
  replace (List.length
             (skipn (Datatypes.S (List.length old) - Z.to_nat limit) old) + 1)
    with (Datatypes.S
            (List.length
               (skipn (Datatypes.S (List.length old) - Z.to_nat limit) old)))
    by lia.
  reflexivity.
Qed.

(** A request appends at most one entry, under its own name, and keeps
    the entries that were there. *)
Lemma call_tool_appends name args w :
  exists added,
    operation_log
      (state (snd (call_tool cl HResult parse_speed unbound_message
                             name args w))) =
      operation_log (state w) ++ added /\
    List.length added <= 1 /\
    Forall (fun e => le_operation e = name) added.
Proof.
  assert (Hquiet :
            stable same_log
                   (dispatch cl parse_speed unbound_message name args) ->
            exists added,
              operation_log
                (state (snd (call_tool cl HResult parse_speed
                                       unbound_message name args w))) =
                operation_log (state w) ++ added /\
              List.length added <= 1 /\
              Forall (fun e => le_operation e = name) added).
  { intro Hs. specialize (Hs w).
    unfold same_log, world_of, view_world, call_tool in *.
    destruct (dispatch cl parse_speed unbound_message name args w)
      as [[e | r] w']; simpl in *.
    - destruct e; simpl; rewrite Hs; eexists [_];
        (split; [reflexivity | split; [simpl; lia |]]);
        repeat constructor.
    - exists []. rewrite Hs, app_nil_r. repeat split; [simpl; lia |].
      constructor. }
  destruct (in_dec string_dec name unlogged_tools) as [Hin | Hout].
  - apply Hquiet. simpl in Hin.
    destruct Hin as [<- | [<- | [<- | []]]];
      cbv beta iota fix delta [dispatch String.eqb Ascii.eqb Bool.eqb].
    + apply status_keeps_log.
    + apply log_read_keeps_log.
    + unfold handle_robot_move_to_joint_angles. stable_tac.
  - destruct (string_dec name "bcap_disconnect") as [-> | Hnd].
    + destruct (client (state w)) eqn:E.
      * destruct (call_tool_logged cl HResult parse_speed unbound_message
                    "bcap_disconnect" args w) as (e & Hl & He).
        { apply logs_disconnect. rewrite E. discriminate. }
        exists [e]. repeat split; [exact Hl | simpl; lia |].
        constructor; [exact He | constructor].
      * exists [].
        unfold call_tool.
        cbv beta iota fix delta [dispatch String.eqb Ascii.eqb Bool.eqb].
        unfold handle_disconnect, bind, get_state. rewrite E. simpl.
        rewrite app_nil_r. repeat split; [lia | constructor].
    + destruct (call_tool_logged cl HResult parse_speed unbound_message
                  name args w) as (e & Hl & He).
      { apply dispatch_logged.
        - intros ->. apply Hout. among.
        - intros ->. apply Hout. among.
        - intros ->. apply Hout. among.
        - intro Hd. contradiction. }
      exists [e]. repeat split; [exact Hl | simpl; lia |].
      constructor; [exact He | constructor].
Qed.

(** X22.  The operation log only grows.  Whatever sequence of requests is
    served, resets and reconnections included, the entries that were in
    the log stay, in their place and unchanged; the entries that come
    after them are at most one per request, each filed under the name of
    one of the requests. *)
Theorem log_only_grows requests w :
  exists added,
    operation_log
      (state (serve_all cl HResult parse_speed unbound_message requests w))
    = operation_log (state w) ++ added /\
    List.length added <= List.length requests /\
    Forall (fun e => In (le_operation e) (map fst requests)) added.
Proof.
  revert w. induction requests as [| [name args] rest IH]; intro w.
  - exists []. simpl. rewrite app_nil_r. repeat split; [lia | constructor].
  - simpl serve_all.
    destruct (call_tool_appends name args w) as (a1 & E1 & L1 & F1).
    destruct (IH (snd (call_tool cl HResult parse_speed unbound_message
                                 name args w)))
      as (a2 & E2 & L2 & F2).
    exists (a1 ++ a2). rewrite E2, E1, app_assoc.
    repeat split.
    + rewrite length_app. simpl. lia.
    + apply Forall_app. split.
      * eapply Forall_impl; [| exact F1].
        intros e He. left. symmetry. exact He.
      * eapply Forall_impl; [| exact F2].
        intros e He. right. exact He.
Qed.

End Recorded.

(** X20 at a robot-connect request on a fresh session, which is refused:
    the entry carries the error text of the reply. *)
Lemma log_records_the_reply_witness :
  operation_log
    (state (snd (call_tool obliging example_codes no_speed example_unbound
                           "bcap_robot_connect" no_args init_world))) =
    [{| le_operation := "bcap_robot_connect"; le_params := no_args;
        le_result := None;
        le_error :=
          Some "Error: Please call bcap_controller_connect first" |}].
Proof.
  destruct (log_records_the_reply
              obliging example_codes no_speed example_unbound
              "bcap_robot_connect" no_args init_world) as (entry & E & L).
  - intro H. simpl in H.
    repeat (destruct H as [H | H]; [discriminate H |]). exact H.
  - intro H. discriminate H.
  - simpl in E. injection E as <-. exact L.
Defined.

(** X21 after the third request of the connected session. *)
Lemma last_request_is_read_back_witness :
  exists entry earlier,
    le_operation entry = "bcap_robot_connect" /\
    fst (call_tool obliging example_codes no_speed example_unbound
                   "bcap_get_operation_log" (args_limit 2) busy_world) =
      Rep_log 3 (Datatypes.S (List.length earlier)) (earlier ++ [entry]).
Proof.
  destruct (last_request_is_read_back
              obliging example_codes no_speed example_unbound
              "bcap_robot_connect" no_args (args_limit 2)
              (snd (call_tool obliging example_codes no_speed
                              example_unbound "bcap_controller_connect"
                              no_args online_world)))
    as (entry & earlier & E & R).
  - intro H. simpl in H.
    repeat (destruct H as [H | H]; [discriminate H |]). exact H.
  - intro H. discriminate H.
  - reflexivity.
  - exists entry, earlier. split.
    + simpl in E. injection E as <-. reflexivity.
    + change busy_world
        with (snd (call_tool obliging example_codes no_speed
                             example_unbound "bcap_robot_connect" no_args
                             (snd (call_tool obliging example_codes no_speed
                                             example_unbound
                                             "bcap_controller_connect"
                                             no_args online_world)))).
      rewrite R. reflexivity.
Defined.

(** ** The single joint move *)

#[export] Instance same_state_rel : WorldRel same_state.
Proof.
  split.
  - intro w. reflexivity.
  - intros a b c H1 H2. unfold same_state in *. congruence.
  - intros w c. reflexivity.
Qed.

Section JointMove.

Variable cl : Client.
Variable HResult : HResultCodes.
Variable parse_speed : string -> option float.
Variable unbound_message : string -> string.

(** The handler of the joint move, once the angles are there: the
    client is built outside the guarded block, the rest inside it. *)
Lemma joint_move_run args w joint_angles :
  arg_joint_angles args = Some joint_angles ->
  let c0 := c_BCAPClient
              match connection_info (state w) with
              | Some i => ci_host i | None => "192.168.0.1" end
              match connection_info (state w) with
              | Some i => ci_port i | None => 5007%Z end
              match connection_info (state w) with
              | Some i => ci_timeout i | None => 3%float end in
  handle_robot_move_to_joint_angles cl parse_speed args w =
    match reply_value cl (calls w) c0 with
    | inl e => (inl e, sent w c0)
    | inr _ =>
        match joint_move_body cl parse_speed joint_angles
                              (dict_get (arg_option args) "") (sent w c0)
        with
        | (inl e, w2) => (inr (Rep_joint_move_failed (str e)), w2)
        | (inr r, w2) => (inr r, w2)
        end
    end.
Proof.
  intros Hja c0. unfold handle_robot_move_to_joint_angles.
  erewrite bind_run by reflexivity. cbv zeta.
  erewrite bind_run by (rewrite Hja; reflexivity).
  fold c0. unfold bind at 1. unfold invoke at 1.
  destruct (reply_value cl (calls w) c0) as [e | v]; [reflexivity |].
  unfold try_except. fold (sent w c0).
  destruct (joint_move_body cl parse_speed joint_angles _ (sent w c0))
    as [[e | r] w2]; reflexivity.
Qed.

Lemma joint_move_body_reply joint_angles option w1 :
  state (snd (joint_move_body cl parse_speed joint_angles option w1)) =
    state w1 /\
  match fst (joint_move_body cl parse_speed joint_angles option w1) with
  | inr r => exists previous, r = Rep_joint_move previous joint_angles
  | inl _ => True
  end.
Proof.
  unfold joint_move_body, bind, try_except, invoke, invoke_handle, ret.
  cbv beta iota zeta. simpl calls. simpl state.
  repeat (cbv beta iota;
          match goal with
          | |- context [reply_handle cl ?pre ?c] =>
              destruct (reply_handle cl pre c)
          | |- context [reply_value cl ?pre ?c] =>
              destruct (reply_value cl pre c)
          | |- context [parse_speed ?o] => destruct (parse_speed o)
          end; simpl);
    split; try reflexivity; try exact I; eexists; reflexivity.
Qed.

Lemma joint_move_body_rejected joint_angles option w1 :
  rejects_moves cl ->
  (exists e,
      fst (joint_move_body cl parse_speed joint_angles option w1) = inl e) /\
  exists issued,
    calls (snd (joint_move_body cl parse_speed joint_angles option w1)) =
      calls w1 ++ issued /\
    forallb (fun c => negb (is_release c)) issued = true.
Proof.
  intro Hrej.
  unfold joint_move_body, bind, try_except, invoke, invoke_handle, ret.
  cbv beta iota zeta. simpl calls. simpl state.
  repeat (cbv beta iota;
          match goal with
          | |- context [reply_value cl ?pre (c_robot_move ?h ?n ?t ?k ?x ?o)]
            =>
              let e := fresh "e" in
              let E := fresh "E" in
              destruct (Hrej pre h n t k x o) as [e E]; rewrite E; clear E
          | |- context [reply_handle cl ?pre ?c] =>
              destruct (reply_handle cl pre c)
          | |- context [reply_value cl ?pre ?c] =>
              destruct (reply_value cl pre c)
          | |- context [parse_speed ?o] => destruct (parse_speed o)
          end; simpl);
    (split; [eexists; reflexivity |]);
    eexists; (split; [rewrite <- ?app_assoc; simpl; reflexivity |]);
    reflexivity.
Qed.

(** X23.  The single joint move works on a connection of its own and
    leaves the session alone.  Given the joint angles, and once its client
    is built, the request never changes the session, its handles, its
    metadata or its log, whether it succeeds or fails, and it answers with
    its own success or failure result, never with the logged error
    envelope; only when the client cannot be built is the error logged.
    When the controller rejects the move, the request fails and neither
    the robot handle nor the controller handle it had acquired is
    released: the connection it opened stays open. *)
Theorem joint_move_is_self_contained args w joint_angles :
  arg_joint_angles args = Some joint_angles ->
  let run := call_tool cl HResult parse_speed unbound_message
                       "bcap_robot_move_to_joint_angles" args w in
  let c0 := c_BCAPClient
              match connection_info (state w) with
              | Some i => ci_host i | None => "192.168.0.1" end
              match connection_info (state w) with
              | Some i => ci_port i | None => 5007%Z end
              match connection_info (state w) with
              | Some i => ci_timeout i | None => 3%float end in
  match reply_value cl (calls w) c0 with
  | inl _ =>
      reply_success (fst run) = Some false /\
      calls (snd run) = calls w ++ [c0] /\
      same_session w (snd run) /\
      List.length (operation_log (state (snd run))) =
        Datatypes.S (List.length (operation_log (state w)))
  | inr _ =>
      state (snd run) = state w /\
      ((exists previous, fst run = Rep_joint_move previous joint_angles) \/
       (exists text, fst run = Rep_joint_move_failed text)) /\
      (rejects_moves cl ->
       (exists text, fst run = Rep_joint_move_failed text) /\
       exists issued,
         calls (snd run) = calls w ++ c0 :: issued /\
         forallb (fun c => negb (is_release c)) issued = true)
  end.
Proof.
  intros Hja run c0. unfold run, call_tool.
  cbv beta iota fix delta [dispatch String.eqb Ascii.eqb Bool.eqb].
  rewrite (joint_move_run args w joint_angles Hja). cbv zeta. fold c0.
  destruct (reply_value cl (calls w) c0) as [e | v].
  - destruct e; simpl; rewrite length_app; simpl;
      repeat split; lia.
  - destruct (joint_move_body_reply joint_angles
                                    (dict_get (arg_option args) "")
                                    (sent w c0)) as [Hs Hr].
    split; [| split].
    + destruct (joint_move_body cl parse_speed joint_angles _ (sent w c0))
        as [[e | r] w2]; exact Hs.
    + destruct (joint_move_body cl parse_speed joint_angles _ (sent w c0))
        as [[e | r] w2]; simpl in *.
      * right. eexists. reflexivity.
      * left. exact Hr.
    + intro Hrej.
      destruct (joint_move_body_rejected joint_angles
                                         (dict_get (arg_option args) "")
                                         (sent w c0) Hrej)
        as [[e He] (issued & Hi & Hp)].
      destruct (joint_move_body cl parse_speed joint_angles _ (sent w c0))
        as [[e' | r] w2]; simpl in *; [| discriminate He].
      split; [eexists; reflexivity |].
      exists issued. rewrite Hi, <- app_assoc. split; [reflexivity |].
      exact Hp.
Qed.

End JointMove.

(** X23 on the controller that rejects every move, from a session that
    was never connected: the request opens a client, a controller and a
    robot, fails at the move, and closes none of them. *)
Lemma joint_move_is_self_contained_witness :
  state (snd (call_tool move_rejected example_codes no_speed example_unbound
                        "bcap_robot_move_to_joint_angles"
                        (args_joint_angles origin) init_world)) =
    init_state /\
  exists text,
    fst (call_tool move_rejected example_codes no_speed example_unbound
                   "bcap_robot_move_to_joint_angles"
                   (args_joint_angles origin) init_world) =
      Rep_joint_move_failed text.
Proof.
  pose proof (joint_move_is_self_contained
                move_rejected example_codes no_speed example_unbound
                (args_joint_angles origin) init_world origin eq_refl)
    as H.
  simpl in H. destruct H as (Hs & _ & Hr).
  split; [exact Hs |].
  apply Hr. intros pre h comp target kind ext option.
  eexists. reflexivity.
Defined.

(** ** Pick and place: when the pose or the arm is missing *)

Section SagaEdges.

Variable cl : Client.
Variable HResult : HResultCodes.
Variable parse_speed : string -> option float.
Variable unbound_message : string -> string.



(** X25.  Steps 7 and 8 of the saga fail together.  Step 8 moves to the
    ordinate that step 7 computes after it was granted the arm; when the
    arm is refused to step 7, that ordinate is never assigned, and step 8
    fails as well, whether or not the arm is granted to it.  Both steps
    are recorded as failed, in order, with their error texts, and the only
    calls they send are their two [TakeArm] commands: no move. *)
Theorem place_steps_fail_together
        x y rx ry rz place_y_mm place_down_mm f w cz e :
  client (state w) <> None ->
  current_z f = Some cz ->
  place_y f = None ->
  let take := take_arm_call (robot_handle (state w)) in
  reply_value cl (calls w) take = inl e ->
  let text7 := failure_text 7 "" e in
  let text8 :=
    failure_text 8 ""
      match reply_value cl (calls w ++ [take]) take with
      | inl e' => e'
      | inr _ => UnboundLocalError (unbound_message "place_y")
      end in
  exists f',
    (move_y_to_place cl unbound_message x y rx ry rz place_y_mm ;;
     move_down_to_place cl unbound_message x rx ry rz place_down_mm)
      (f, w) =
      (inr tt, (f', {| state := state w; calls := calls w ++ [take; take] |}))
    /\
    steps f' = steps f ++ [ step_failed 7 "move_y_to_place" text7;
                            step_failed 8 "move_down_to_place" text8 ] /\
    errors f' = errors f ++ [text7; text8].
Proof.
  intros Hclient Hcz Hpy take Htake text7 text8.
  erewrite bind_run
    by (apply (move_y_to_place_run cl unbound_message x y rx ry rz
                                   place_y_mm cz f w Hclient Hcz)).
  unfold move_outcome. fold take. rewrite Htake.
  set (f7 := add_failure 7 "move_y_to_place" "" e f).
  assert (Hcz7 : current_z f7 = Some cz) by exact Hcz.
  assert (Hpy7 : place_y f7 = None) by exact Hpy.
  rewrite (move_down_to_place_run cl unbound_message x rx ry rz
                                  place_down_mm cz f7 (sent w take)
                                  Hclient Hcz7).
  rewrite Hpy7. unfold unplaced_outcome.
  change (robot_handle (state (sent w take)))
    with (robot_handle (state w)).
  fold take. change (calls (sent w take)) with (calls w ++ [take]).
  subst text8.
  assert (Hw : sent (sent w take) take =
               {| state := state w; calls := calls w ++ [take; take] |}).
  { unfold sent. cbn [state calls]. rewrite <- app_assoc. reflexivity. }
  rewrite Hw.
  destruct (reply_value cl (calls w ++ [take]) take) as [e' | v];
    eexists; (split; [reflexivity |]);
    unfold f7, add_failure, add_step, add_error, assign_place_z;
    cbn [steps errors];
    rewrite <- ?app_assoc; split; reflexivity.
Qed.

End SagaEdges.


(** X25 on the controller that refuses the arm, after steps 1 to 6. *)
Lemma place_steps_fail_together_witness :
  exists f',
    (move_y_to_place arm_denied example_unbound 100 200 180 0 90 25 ;;
     move_down_to_place arm_denied example_unbound 100 180 0 90 30)%py
      (lifted_frame, connected_world) =
      (inr tt,
       (f', {| state := connected_state;
               calls := [ take_arm_call (Some 2%Z);
                          take_arm_call (Some 2%Z) ] |}))
    /\ map sr_step (steps f') = [7; 8]
    /\ map sr_status (steps f') = [failed; failed].
Proof.
  destruct (place_steps_fail_together
              arm_denied example_unbound 100 200 180 0 90 25 30
              lifted_frame connected_world 350%float
              (ORiNException 3 "arm denied")
              ltac:(discriminate) eq_refl eq_refl eq_refl)
    as (f' & Hrun & Hsteps & _).
  exists f'. split; [exact Hrun |].
  rewrite Hsteps. split; reflexivity.
Defined.


(** ** The slave-mode executor: what its replies mean *)

Section SlaveOutcome.

Variable cl : Client.
Variable HResult : HResultCodes.
Variable parse_speed : string -> option float.
Variable unbound_message : string -> string.

(** With a client in the session the streaming loop never raises; it
    sends one [slvMove] per point, in order, and files every point as
    executed or as failed. *)
Lemma stream_points_spec rest :
  forall i f w,
    client (state w) <> None ->
    exists f',
      stream_points cl i rest (f, w) =
        (inr tt,
         (f', {| state := state w;
                 calls := calls w ++
                          map (slv_move_call (robot_handle (state w)))
                              rest |}))
      /\ List.length (executed_points f') + List.length (failed_points f')
         = List.length (executed_points f) + List.length (failed_points f)
           + List.length rest.
Proof.
  induction rest as [| p rest IH]; intros i f w Hc.
  - exists f. simpl. rewrite app_nil_r. destruct w as [s h]. simpl.
    split; [reflexivity | lia].
  - set (rh := robot_handle (state w)).
    set (c := slv_move_call rh p).
    assert (Hmove : slv_move cl p w =
                    (dropped (reply_value cl (calls w) c), sent w c))
      by (apply slv_move_run; exact Hc).
    destruct (reply_value cl (calls w) c) as [e | v] eqn:Hreply.
    + set (f1 := {| executed_points := executed_points f;
                    failed_points :=
                      failed_points f ++
                      [{| fp_index := i + 1; fp_angles := p;
                          fp_error := str e |}] |}).
      destruct (IH (Datatypes.S i) f1 (sent w c) Hc) as (f' & Hrun & Hlen).
      exists f'. split.
      * simpl stream_points. unfold bind at 1.
        erewrite try_caught
          by (eapply bind_raise; eapply lift_run; exact Hmove).
        unfold push_failed, bind, get_frame, set_frame. simpl.
        fold f1. rewrite Hrun. simpl. rewrite <- app_assoc. reflexivity.
      * rewrite Hlen. unfold f1. simpl. rewrite length_app. simpl. lia.
    + set (f1 := {| executed_points :=
                      executed_points f ++
                      [{| ep_index := i + 1; ep_angles := p |}];
                    failed_points := failed_points f |}).
      destruct (IH (Datatypes.S i) f1 (sent w c) Hc) as (f' & Hrun & Hlen).
      exists f'. split.
      * simpl stream_points. unfold bind at 1.
        erewrite try_run.
        2: { eapply eq_trans.
             - eapply bind_run. eapply lift_run. exact Hmove.
             - unfold push_executed, bind, get_frame, set_frame. simpl.
               fold f1. reflexivity. }
        rewrite Hrun. simpl. rewrite <- app_assoc. reflexivity.
      * rewrite Hlen. unfold f1. simpl. rewrite length_app. simpl. lia.
Qed.

(** The clean-up never raises and keeps the two lists; it asks to leave
    the slave mode, and gives the arm back only when that was accepted. *)
Lemma slave_cleanup_run f w :
  client (state w) <> None ->
  let rh := robot_handle (state w) in
  exists w',
    slave_cleanup cl (f, w) = (inr tt, (f, w')) /\
    state w' = state w /\
    (calls w' = calls w ++ [slv_mode_call rh 0] \/
     calls w' = calls w ++ [slv_mode_call rh 0; give_arm_call rh]).
Proof.
  intros Hc rh. unfold slave_cleanup.
  assert (Hoff : slv_change_mode cl 0 w =
                 (dropped (reply_value cl (calls w) (slv_mode_call rh 0)),
                  sent w (slv_mode_call rh 0)))
    by (apply (slv_change_mode_run cl 0 w); exact Hc).
  destruct (reply_value cl (calls w) (slv_mode_call rh 0)) as [e | v].
  { exists (sent w (slv_mode_call rh 0)).
    split; [| split; [reflexivity | left; reflexivity]].
    erewrite try_caught
      by (eapply bind_raise; eapply lift_run; exact Hoff).
    reflexivity. }
  set (w1 := sent w (slv_mode_call rh 0)).
  assert (Hgive : give_arm cl w1 =
                  (dropped (reply_value cl (calls w1) (give_arm_call rh)),
                   sent w1 (give_arm_call rh)))
    by (apply (give_arm_run cl w1); exact Hc).
  exists (sent w1 (give_arm_call rh)).
  split; [| split; [reflexivity |]].
  - destruct (reply_value cl (calls w1) (give_arm_call rh)) as [e | v'].
    + erewrite try_caught.
      2: { eapply eq_trans.
           - eapply bind_run. eapply lift_run. exact Hoff.
           - eapply lift_run. exact Hgive. }
      reflexivity.
    + erewrite try_run.
      2: { eapply eq_trans.
           - eapply bind_run. eapply lift_run. exact Hoff.
           - eapply lift_run. exact Hgive. }
      reflexivity.
  - right. unfold w1, sent. cbn [calls]. rewrite <- app_assoc. reflexivity.
Qed.

(** The body of the guarded block, from empty lists: either it runs to
    its end, having sent the whole protocol in order, or it raises, the
    session being as it was either way. *)
Lemma slave_body_cases trajectory w :
  client (state w) <> None ->
  let rh := robot_handle (state w) in
  (exists f' w',
      slave_body cl trajectory (no_points, w) = (inr tt, (f', w')) /\
      state w' = state w /\
      List.length (executed_points f') + List.length (failed_points f') =
        List.length trajectory /\
      calls w' =
        calls w ++ [take_arm_call rh; slv_mode_call rh 514]
        ++ map (slv_move_call rh) trajectory
        ++ [slv_mode_call rh 0; give_arm_call rh])
  \/ (exists e f' w',
         slave_body cl trajectory (no_points, w) = (inl e, (f', w')) /\
         state w' = state w /\
         List.length (executed_points f') + List.length (failed_points f')
         <= List.length trajectory).
Proof.
  intros Hc rh. unfold slave_body.
  (* the arm *)
  assert (Htake : take_arm cl w =
                  (dropped (reply_value cl (calls w) (take_arm_call rh)),
                   sent w (take_arm_call rh)))
    by (apply take_arm_run; exact Hc).
  destruct (reply_value cl (calls w) (take_arm_call rh)) as [e | v1].
  { right. exists e, no_points, (sent w (take_arm_call rh)).
    split; [| split; [reflexivity | simpl; lia]].
    apply bind_raise. apply lift_run. exact Htake. }
  erewrite bind_run by (apply lift_run; exact Htake).
  set (w1 := sent w (take_arm_call rh)).
  (* slave mode *)
  assert (Hmode : slv_change_mode cl 514 w1 =
                  (dropped (reply_value cl (calls w1) (slv_mode_call rh 514)),
                   sent w1 (slv_mode_call rh 514)))
    by (apply (slv_change_mode_run cl 514 w1); exact Hc).
  destruct (reply_value cl (calls w1) (slv_mode_call rh 514)) as [e | v2].
  { right. exists e, no_points, (sent w1 (slv_mode_call rh 514)).
    split; [| split; [reflexivity | simpl; lia]].
    apply bind_raise. apply lift_run. exact Hmode. }
  erewrite bind_run by (apply lift_run; exact Hmode).
  set (w2 := sent w1 (slv_mode_call rh 514)).
  assert (Hcalls2 : calls w2 =
                    calls w ++ [take_arm_call rh; slv_mode_call rh 514]).
  { unfold w2, w1, sent. cbn [calls]. rewrite <- app_assoc. reflexivity. }
  (* the rest, from the lists [f] and the world [w3] the first point
     leaves *)
  assert (Hrest :
            forall f w3 rest sent_so_far,
              state w3 = state w ->
              calls w3 = calls w2 ++ sent_so_far ->
              (exists f' w',
                  (stream_points cl 1 rest ;;
                   lift (slv_change_mode cl 0) ;;
                   lift (give_arm cl)) (f, w3) = (inr tt, (f', w')) /\
                  state w' = state w /\
                  List.length (executed_points f')
                  + List.length (failed_points f') =
                    List.length (executed_points f)
                    + List.length (failed_points f) + List.length rest /\
                  calls w' =
                    calls w2 ++ sent_so_far
                    ++ map (slv_move_call rh) rest
                    ++ [slv_mode_call rh 0; give_arm_call rh])
              \/ (exists e f' w',
                     (stream_points cl 1 rest ;;
                      lift (slv_change_mode cl 0) ;;
                      lift (give_arm cl)) (f, w3) = (inl e, (f', w')) /\
                     state w' = state w /\
                     List.length (executed_points f')
                     + List.length (failed_points f') =
                       List.length (executed_points f)
                       + List.length (failed_points f)
                       + List.length rest)).
  { intros f w3 rest sofar Hs3 Hc3.
    assert (Hcl3 : client (state w3) <> None) by (rewrite Hs3; exact Hc).
    assert (Hrh3 : robot_handle (state w3) = rh) by (rewrite Hs3; reflexivity).
    destruct (stream_points_spec rest 1 f w3 Hcl3) as (f' & Hrun & Hlen).
    rewrite Hrh3 in Hrun.
    set (w4 := {| state := state w3;
                  calls := calls w3 ++ map (slv_move_call rh) rest |})
      in *.
    assert (Hcl4 : client (state w4) <> None) by exact Hcl3.
    assert (Hoff : slv_change_mode cl 0 w4 =
                   (dropped (reply_value cl (calls w4)
                                         (slv_mode_call rh 0)),
                    sent w4 (slv_mode_call rh 0))).
    { rewrite (slv_change_mode_run cl 0 w4 Hcl4).
      change (robot_handle (state w4)) with (robot_handle (state w3)).
      rewrite Hrh3. reflexivity. }
    destruct (reply_value cl (calls w4) (slv_mode_call rh 0)) as [e | v3].
    { right. exists e, f', (sent w4 (slv_mode_call rh 0)).
      split; [| split; [exact Hs3 | exact Hlen]].
      erewrite bind_run by exact Hrun.
      apply bind_raise. apply lift_run. exact Hoff. }
    set (w5 := sent w4 (slv_mode_call rh 0)).
    assert (Hgive : give_arm cl w5 =
                    (dropped (reply_value cl (calls w5) (give_arm_call rh)),
                     sent w5 (give_arm_call rh))).
    { rewrite (give_arm_run cl w5 Hcl4).
      change (robot_handle (state w5)) with (robot_handle (state w3)).
      rewrite Hrh3. reflexivity. }
    destruct (reply_value cl (calls w5) (give_arm_call rh)) as [e | v4].
    { right. exists e, f', (sent w5 (give_arm_call rh)).
      split; [| split; [exact Hs3 | exact Hlen]].
      erewrite bind_run by exact Hrun.
      erewrite bind_run by (apply lift_run; exact Hoff).
      apply lift_run. exact Hgive. }
    left. exists f', (sent w5 (give_arm_call rh)).
    split; [| split; [exact Hs3 | split; [exact Hlen |]]].
    - erewrite bind_run by exact Hrun.
      erewrite bind_run by (apply lift_run; exact Hoff).
      apply lift_run. exact Hgive.
    - unfold w5, w4, sent. cbn [calls]. rewrite Hc3.
      rewrite <- !app_assoc. reflexivity. }
  destruct trajectory as [| p rest].
  - (* no point at all *)
    erewrite bind_run by reflexivity.
    destruct (Hrest no_points w2 [] [] eq_refl
                    ltac:(rewrite app_nil_r; reflexivity))
      as [(f' & w' & Hrun & Hs & Hlen & Hcalls)
         | (e & f' & w' & Hrun & Hs & Hlen)].
    + left. exists f', w'. simpl tl. split; [exact Hrun |].
      split; [exact Hs |]. split; [exact Hlen |].
      rewrite Hcalls, Hcalls2. simpl. rewrite <- app_assoc. reflexivity.
    + right. exists e, f', w'. simpl tl. split; [exact Hrun |].
      split; [exact Hs |]. simpl in *. lia.
  - (* the first point *)
    assert (Hfirst : slv_move cl p w2 =
                     (dropped (reply_value cl (calls w2)
                                           (slv_move_call rh p)),
                      sent w2 (slv_move_call rh p)))
      by (apply (slv_move_run cl p w2); exact Hc).
    destruct (reply_value cl (calls w2) (slv_move_call rh p)) as [e | v3].
    { right.
      exists e,
        {| executed_points := [];
           failed_points := [{| fp_index := 1; fp_angles := p;
                                fp_error := str e |}] |},
        (sent w2 (slv_move_call rh p)).
      split; [| split; [reflexivity | simpl; lia]].
      apply bind_raise.
      erewrite try_caught
        by (eapply bind_raise; eapply lift_run; exact Hfirst).
      reflexivity. }
    erewrite bind_run.
    2: { apply try_run. eapply eq_trans.
         - eapply bind_run. eapply lift_run. exact Hfirst.
         - reflexivity. }
    simpl tl.
    destruct (Hrest {| executed_points :=
                         [{| ep_index := 1; ep_angles := p |}];
                       failed_points := [] |}
                    (sent w2 (slv_move_call rh p)) rest
                    [slv_move_call rh p] eq_refl eq_refl)
      as [(f' & w' & Hrun & Hs & Hlen & Hcalls)
         | (e & f' & w' & Hrun & Hs & Hlen)].
    + left. exists f', w'. split; [exact Hrun |].
      split; [exact Hs |]. split; [simpl in *; lia |].
      rewrite Hcalls, Hcalls2. simpl. rewrite <- !app_assoc. reflexivity.
    + right. exists e, f', w'. split; [exact Hrun |].
      split; [exact Hs |]. simpl in *. lia.
Qed.

Lemma capture_initial_angles_passive as_list :
  emits passive (capture_initial_angles cl as_list).
Proof. unfold capture_initial_angles. emits_tac. Qed.

(** X26.  On a session with a robot, a slave-mode request whose points
    all have six values is always answered with a report, never with the
    error reply.  Either the whole protocol went through: after reading
    the current angles the handler sent [TakeArm], the change to slave
    mode, one [slvMove] per point in order, the change back and
    [GiveArm], and every point is counted once, as executed or as failed.
    Or a step outside the streaming loop was refused: the report is the
    failure report, it counts no more points than were given, and the last
    thing the handler did was to ask to leave the slave mode, giving the
    arm back when that was accepted. *)
Theorem slave_trajectory_outcome args trajectory w :
  truthy (robot_handle (state w)) = true ->
  client (state w) <> None ->
  arg_trajectory args = Some trajectory ->
  forallb six trajectory = true ->
  let rh := robot_handle (state w) in
  let run := call_tool cl HResult parse_speed unbound_message
                       "bcap_robot_execute_slave_trajectory" args w in
  (exists rep read,
      fst run = Rep (R_slave rep) /\
      tr_total_points rep = List.length trajectory /\
      tr_executed_points rep + tr_failed_points rep
      = List.length trajectory /\
      forallb passive read = true /\
      calls (snd run) =
        calls w ++ read
        ++ [take_arm_call rh; slv_mode_call rh 514]
        ++ map (slv_move_call rh) trajectory
        ++ [slv_mode_call rh 0; give_arm_call rh])
  \/ (exists rep before,
         fst run = Rep (R_slave_failed rep) /\
         sf_total_points rep = List.length trajectory /\
         sf_executed_points rep + sf_failed_points rep
         <= List.length trajectory /\
         (calls (snd run) = before ++ [slv_mode_call rh 0] \/
          calls (snd run) =
            before ++ [slv_mode_call rh 0; give_arm_call rh])).
Proof.
  intros Hrobot Hclient Hargs Hsix rh run.
  destruct (capture_initial_angles_returns cl first_six w) as [initial Hcap].
  destruct (capture_initial_angles_quiet cl first_six w) as [Hs1 _].
  destruct (capture_initial_angles_passive first_six w)
    as (read & Hread & Hpassive).
  unfold world_of, view_world in Hread.
  set (w1 := snd (capture_initial_angles cl first_six w)) in *.
  assert (Hc1 : client (state w1) <> None) by (rewrite Hs1; exact Hclient).
  assert (Hrh1 : robot_handle (state w1) = rh) by (rewrite Hs1; reflexivity).
  assert (E : dispatch cl parse_speed unbound_message
                       "bcap_robot_execute_slave_trajectory" args w =
              handle_robot_execute_slave_trajectory cl args w)
    by reflexivity.
  unfold run, call_tool. rewrite E. clear E.
  unfold handle_robot_execute_slave_trajectory.
  erewrite bind_run by (apply need_robot_run; exact Hrobot).
  rewrite Hargs.
  erewrite bind_run by reflexivity.
  erewrite bind_run by (apply validate_points_ok; exact Hsix).
  erewrite bind_run by exact Hcap.
  fold w1. unfold with_frame.
  destruct (slave_body_cases trajectory w1 Hc1)
    as [(f' & w' & Hrun & Hs & Hlen & Hcalls)
       | (e & f' & w' & Hrun & Hs & Hlen)].
  - left.
    erewrite bind_run.
    2: { apply try_run. eapply eq_trans.
         - eapply bind_run. exact Hrun.
         - reflexivity. }
    exists (trajectory_report trajectory initial f'), read.
    cbn. repeat split; try assumption.
    rewrite Hcalls, Hread, Hrh1, <- !app_assoc. reflexivity.
  - right.
    assert (Hc' : client (state w') <> None) by (rewrite Hs, Hs1; exact Hclient).
    destruct (slave_cleanup_run f' w' Hc') as (w'' & Hclean & Hs'' & Hend).
    erewrite bind_run.
    2: { erewrite try_caught by (eapply bind_raise; exact Hrun).
         eapply eq_trans.
         - eapply bind_run. exact Hclean.
         - reflexivity. }
    eexists _, (calls w'). cbn.
    split; [reflexivity |]. split; [reflexivity |]. split; [exact Hlen |].
    rewrite Hs, Hrh1 in Hend. exact Hend.
Qed.

End SlaveOutcome.

(** In the smallest case, two points sent to a controller that accepts
    everything. *)
Lemma slave_trajectory_outcome_witness :
  let args := args_trajectory two_points in
  let rh := robot_handle (state connected_world) in
  let run := call_tool obliging example_codes no_speed example_unbound
                       "bcap_robot_execute_slave_trajectory" args
                       connected_world in
  (exists rep read,
      fst run = Rep (R_slave rep) /\
      tr_total_points rep = List.length two_points /\
      tr_executed_points rep + tr_failed_points rep
      = List.length two_points /\
      forallb passive read = true /\
      calls (snd run) =
        calls connected_world ++ read
        ++ [take_arm_call rh; slv_mode_call rh 514]
        ++ map (slv_move_call rh) two_points
        ++ [slv_mode_call rh 0; give_arm_call rh])
  \/ (exists rep before,
         fst run = Rep (R_slave_failed rep) /\
         sf_total_points rep = List.length two_points /\
         sf_executed_points rep + sf_failed_points rep
         <= List.length two_points /\
         (calls (snd run) = before ++ [slv_mode_call rh 0] \/
          calls (snd run) =
            before ++ [slv_mode_call rh 0; give_arm_call rh])).
Proof.
  cbv zeta.
  apply (slave_trajectory_outcome obliging example_codes no_speed
           example_unbound (args_trajectory two_points) two_points
           connected_world).
  - reflexivity.
  - discriminate.
  - reflexivity.
  - reflexivity.
Defined.

(** ** The tools that pass one call on *)

Section Forwarding.

Variable cl : Client.
Variable HResult : HResultCodes.
Variable parse_speed : string -> option float.
Variable unbound_message : string -> string.

(** A request answers an exception of its handler with [error_reply],
    and a reply with the reply. *)
Lemma call_tool_reply name args w :
  fst (call_tool cl HResult parse_speed unbound_message name args w) =
    match fst (dispatch cl parse_speed unbound_message name args w) with
    | inl e => error_reply HResult e
    | inr reply => reply
    end.
Proof.
  unfold call_tool.
  destruct (dispatch cl parse_speed unbound_message name args w)
    as [[[] |] w']; reflexivity.
Qed.

(** X27.  The three controller queries, the list of robot variables and
    the speed setting pass exactly one call on.  On a session with a
    client and the handle the tool asks for, the request sends that one
    call, with the option given or the empty one (the axis given or 0, the
    speed given or 50), and answers with the value that came back; when
    the call raises, the answer is the error reply: for an
    [ORiNException], its code and the description of the code, for any
    other exception its text. *)
Theorem forwarding_tools_outcome name args w :
  In name forwarding_tools ->
  find (missing (state w)) (required name) = None ->
  client (state w) <> None ->
  let c := forwarded name args (state w) in
  let run := call_tool cl HResult parse_speed unbound_message name args w in
  calls (snd run) = calls w ++ [c] /\
  match reply_value cl (calls w) c with
  | inr v => fst run = Rep (forwarded_result name args v)
  | inl e => fst run = error_reply HResult e
  end.
Proof.
  intros Hin Hstage Hclient c run. unfold run.
  rewrite call_tool_calls, call_tool_reply.
  assert (Hrun :
            dispatch cl parse_speed unbound_message name args w =
              match reply_value cl (calls w) c with
              | inl e => (inl e, sent w c)
              | inr v =>
                  (inr (Rep (forwarded_result name args v)),
                   snd (log_operation name args
                          (Some (forwarded_result name args v)) None
                          (sent w c)))
              end).
  { unfold c.
    simpl in Hin.
    destruct Hin as [<- | [<- | [<- | [<- | [<- | []]]]]];
      cbn in Hstage;
      match type of Hstage with
      | context [truthy ?h] => destruct (truthy h) eqn:Hh
      end;
      try discriminate Hstage;
      match goal with
      | |- dispatch _ _ _ ?n _ _ = _ =>
          let t := eval cbv beta iota delta
                     [dispatch String.eqb Ascii.eqb Bool.eqb]
                   in (dispatch cl parse_speed unbound_message n args w) in
          change (dispatch cl parse_speed unbound_message n args w) with t
      end;
      cbv beta iota delta [forwarded forwarded_result String.eqb Ascii.eqb
                           Bool.eqb];
      unfold handle_controller_get_robot_names,
        handle_controller_get_variable_names, handle_controller_clear_error,
        handle_robot_get_variable_names, handle_robot_set_speed;
      first [ erewrite bind_run by (apply need_controller_run; exact Hh)
            | erewrite bind_run by (apply need_robot_run; exact Hh) ];
      cbv zeta; erewrite bind_run by reflexivity;
      unfold bind at 1; rewrite (client_call_run cl) by exact Hclient;
      destruct (reply_value cl (calls w) _); reflexivity. }
  rewrite Hrun.
  destruct (reply_value cl (calls w) c) as [e | v]; split; reflexivity.
Qed.

End Forwarding.

(** For instance the robot names, asked of a controller that denies
    access: the reply carries the code. *)
Lemma forwarding_tools_outcome_witness :
  let name := "bcap_controller_get_robot_names" in
  let c := forwarded name no_args (state connected_world) in
  let run := call_tool access_denied example_codes no_speed example_unbound
                       name no_args connected_world in
  calls (snd run) = calls connected_world ++ [c] /\
  fst run = Rep_error "ORiN error (HResult=3): Access denied" (Some 3%Z).
Proof.
  cbv zeta.
  exact (forwarding_tools_outcome access_denied example_codes no_speed
           example_unbound "bcap_controller_get_robot_names" no_args
           connected_world (or_introl eq_refl) eq_refl
           ltac:(discriminate)).
Defined.

(** ** The pose move *)

Section PoseMove.

Variable cl : Client.
Variable HResult : HResultCodes.
Variable parse_speed : string -> option float.
Variable unbound_message : string -> string.

(** X28.  The pose move takes the arm and keeps it.  On a session with a
    robot, given a pose of six values and once the current position is
    read, the handler sends [TakeArm], then, only when the arm was
    granted, one [robot_move] to the pose, of kind "P", with the option
    given or the empty one, and nothing after it: no [GiveArm], whether
    the move went through or not.  The reply is a success, carrying the
    target and the position read, exactly when both went through. *)
Theorem pose_move_outcome args pose w vh v v0 :
  arg_pose args = Some pose ->
  List.length pose = 6 ->
  truthy (robot_handle (state w)) = true ->
  client (state w) <> None ->
  let rh := robot_handle (state w) in
  let c1 := c_robot_getvariable rh "@CURRENT_POSITION" "" in
  let c2 := c_variable_getvalue vh in
  let c3 := c_variable_release vh in
  reply_handle cl (calls w) c1 = inr vh ->
  reply_value cl (calls w ++ [c1]) c2 = inr v ->
  reply_value cl (calls w ++ [c1; c2]) c3 = inr v0 ->
  let run := call_tool cl HResult parse_speed unbound_message
                       "bcap_robot_move_to_pose" args w in
  let read := calls w ++ [c1; c2; c3] in
  let move := c_robot_move rh 1 pose "P" "@E"
                           (dict_get (arg_option args) "") in
  match reply_value cl read (take_arm_call rh) with
  | inl _ =>
      calls (snd run) = read ++ [take_arm_call rh] /\
      reply_success (fst run) = Some false
  | inr _ =>
      calls (snd run) = read ++ [take_arm_call rh; move] /\
      match reply_value cl (read ++ [take_arm_call rh]) move with
      | inl _ => reply_success (fst run) = Some false
      | inr _ => fst run = Rep (R_move_pose pose v)
      end
  end.
Proof.
  intros Hpose Hsix Hrobot Hclient rh c1 c2 c3 H1 H2 H3 run read move.
  set (w3 := sent (sent (sent w c1) c2) c3).
  assert (Hcalls : calls w3 = read).
  { unfold w3, read, sent. simpl. rewrite <- !app_assoc. reflexivity. }
  set (w4 := sent w3 (take_arm_call rh)).
  assert (Hc4 : calls w4 = read ++ [take_arm_call rh])
    by (change (calls w4) with (calls w3 ++ [take_arm_call rh]);
        rewrite Hcalls; reflexivity).
  assert (Hc5 : calls (sent w4 move) = read ++ [take_arm_call rh; move])
    by (change (calls (sent w4 move)) with (calls w4 ++ [move]);
        rewrite Hc4, <- app_assoc; reflexivity).
  assert (E : handle_robot_move_to_pose cl args w =
              match reply_value cl (calls w3) (take_arm_call rh) with
              | inl e => (inl e, w4)
              | inr _ =>
                  match reply_value cl (calls w4) move with
                  | inl e => (inl e, sent w4 move)
                  | inr _ =>
                      (inr (Rep (R_move_pose pose v)),
                       logged "bcap_robot_move_to_pose" args
                              (Some (R_move_pose pose v)) None
                              (sent w4 move))
                  end
              end).
  { unfold handle_robot_move_to_pose.
    erewrite bind_run by (apply need_robot_run; exact Hrobot).
    rewrite Hpose. erewrite bind_run by reflexivity.
    cbv zeta. rewrite Hsix. erewrite bind_run by reflexivity.
    erewrite bind_run
      by (rewrite (read_variable_run cl _ _ w Hclient); cbv zeta;
          fold rh; fold c1; rewrite H1; fold c2; rewrite H2;
          fold c3; rewrite H3; reflexivity).
    fold w3.
    unfold bind at 1. rewrite (take_arm_run cl w3 Hclient).
    change (robot_handle (state w3)) with rh. fold w4.
    destruct (reply_value cl (calls w3) (take_arm_call rh)) as [e | v1];
      [reflexivity |].
    simpl dropped. cbv iota.
    unfold bind at 1. rewrite (robot_move_run cl _ _ _ w4 Hclient).
    change (robot_handle (state w4)) with rh.
    destruct (reply_value cl (calls w4) _); reflexivity. }
  unfold run, call_tool.
  cbv beta iota fix delta [dispatch String.eqb Ascii.eqb Bool.eqb].
  rewrite E, Hcalls, Hc4. clear E.
  destruct (reply_value cl read (take_arm_call rh)) as [e | v1].
  { destruct e; cbn [fst snd reply_success];
      change (calls (snd (log_operation ?o ?p ?r ?e0 w4))) with (calls w4);
      rewrite Hc4; split; reflexivity. }
  destruct (reply_value cl (read ++ [take_arm_call rh]) move) as [e | v2].
  - destruct e; cbn [fst snd reply_success];
      change (calls (snd (log_operation ?o ?p ?r ?e0 (sent w4 move))))
        with (calls (sent w4 move));
      rewrite Hc5; split; reflexivity.
  - cbn [fst snd].
    change (calls (logged ?o ?p ?r ?e0 (sent w4 move)))
      with (calls (sent w4 move)).
    rewrite Hc5. split; reflexivity.
Qed.

End PoseMove.

(** X28 on the connected session: the move is sent and the position read
    comes back with the target. *)
Lemma pose_move_outcome_witness :
  fst (call_tool obliging example_codes no_speed example_unbound
                 "bcap_robot_move_to_pose" (args_pose example_pose)
                 connected_world) =
    Rep (R_move_pose example_pose (VList (map VFloat example_pose))).
Proof.
  apply (pose_move_outcome
           obliging example_codes no_speed example_unbound
           (args_pose example_pose) example_pose connected_world 1%Z
           (VList (map VFloat example_pose)) VNone
           eq_refl eq_refl eq_refl ltac:(discriminate)
           eq_refl eq_refl eq_refl).
Defined.
